(** * A Rocq model of the Livestatus test simulator

    Source: [cmk/gui/plugins/openapi/livestatus_helpers/testing.py].

    The development is a shallow embedding.  Python [str] is a list of
    Unicode code points, [bytes] is a list of [Byte.byte], a [dict] is a
    [gmap], and a method of [MockLiveStatusConnection] is a function from the
    connection's fields to an outcome and the fields afterwards, so that what
    an exception leaves behind is visible in the model.

    What is outside the repository is taken as a parameter of the model: the
    regular-expression engine behind [re.match]; the Unicode tables that
    [str.isprintable] consults for code points from U+0100 on and that [int]
    consults for the decimal digits outside ASCII; the parser behind [float]
    and the digits that [repr] writes for a float.  A float is a binary64
    number, with the comparisons of IEEE 754.  An integer is read from text
    and written as text whatever its size, as by the Python of 2020, the
    year of the code; the limit that later versions set on the number of
    digits is not part of the model. *)

From Stdlib Require Import ZArith NArith.
From Stdlib Require DecimalN.
From Stdlib Require Import PrimFloat SpecFloat FloatOps FloatAxioms.
From Stdlib.Strings Require Import String Ascii Byte.
From stdpp Require Import gmap list sorting.

Local Open Scope N_scope.

(** ** Python strings *)

(** A [str] is a sequence of code points. *)
Abbreviation str := (list N).

(** [py "GET "] is the Python literal ['GET '] (ASCII only). *)
Definition py (s : string) : str := N_of_ascii <$> list_ascii_of_string s.
Arguments py s%_string : simpl never.

Definition NL : N := 10.
Definition CR : N := 13.
Definition SP : N := 32.

Definition str_eqb (a b : str) : bool := bool_decide (a = b).

(** [s.startswith(prefix)] *)
Fixpoint startswith (s prefix : str) : bool :=
  match prefix, s with
  | [], _ => true
  | p :: ps, c :: cs => (p =? c) && startswith cs ps
  | _ :: _, [] => false
  end.

(** [sub in s] *)
Fixpoint contains (sub s : str) : bool :=
  startswith s sub ||
  match s with
  | [] => false
  | _ :: cs => contains sub cs
  end.

(** [s.partition(sep)] when [sep] occurs: the text before and after the
    first occurrence.  [sep] is never empty in the source. *)
Fixpoint find_sep (sep s : str) : option (str * str) :=
  if startswith s sep then Some ([], drop (length sep) s)
  else match s with
       | [] => None
       | c :: cs =>
           match find_sep sep cs with
           | Some (a, b) => Some (c :: a, b)
           | None => None
           end
       end.

(** [s.split(sep, 1)] *)
Definition split_sep_1 (sep s : str) : list str :=
  match find_sep sep s with
  | Some (a, b) => [a; b]
  | None => [s]
  end.

(** [c in chars] for a character of a strip set *)
Definition char_in (c : N) (chars : str) : bool := existsb (N.eqb c) chars.

(** [s.lstrip(chars)] *)
Fixpoint lstrip (chars s : str) : str :=
  match s with
  | [] => []
  | c :: cs => if char_in c chars then lstrip chars cs else s
  end.

(** [s.rstrip(chars)] *)
Definition rstrip (chars s : str) : str := rev (lstrip chars (rev s)).

(** [s.replace(old, new)] for a non-empty [old]: [skip] counts the
    characters of a replaced occurrence that are still to be dropped. *)
Fixpoint replace_from (old new : str) (skip : nat) (s : str) : str :=
  match s with
  | [] => []
  | c :: cs =>
      match skip with
      | S k => replace_from old new k cs
      | O =>
          if startswith s old
          then new ++ replace_from old new (length old - 1) cs
          else c :: replace_from old new 0 cs
      end
  end.

Definition replace (old new s : str) : str := replace_from old new 0 s.

(** [sep.join(parts)] *)
Fixpoint str_join (sep : str) (parts : list str) : str :=
  match parts with
  | [] => []
  | [p] => p
  | p :: ps => p ++ sep ++ str_join sep ps
  end.

(** The line boundaries of [str.splitlines]. *)
Definition is_linebreak (c : N) : bool :=
  (c =? 10) || (c =? 13) || (c =? 11) || (c =? 12) ||
  (c =? 28) || (c =? 29) || (c =? 30) || (c =? 133) ||
  (c =? 8232) || (c =? 8233).

(** [s.splitlines()]: [cur] is the line read so far, reversed.  A carriage
    return followed by a line feed is one boundary; there is no empty last
    line after a final boundary. *)
Fixpoint splitlines_from (cur s : str) : list str :=
  match s with
  | [] => match cur with [] => [] | _ => [rev cur] end
  | c :: cs =>
      if is_linebreak c then
        rev cur ::
          (if c =? 13 then
             match cs with
             | 10 :: cs' => splitlines_from [] cs'
             | _ => splitlines_from [] cs
             end
           else splitlines_from [] cs)
      else splitlines_from (c :: cur) cs
  end.

Definition splitlines (s : str) : list str := splitlines_from [] s.

(** Python's notion of whitespace ([str.isspace] on one character). *)
Definition isspace (c : N) : bool :=
  ((9 <=? c) && (c <=? 13)) || ((28 <=? c) && (c <=? 32)) ||
  (c =? 133) || (c =? 160) || (c =? 5760) ||
  ((8192 <=? c) && (c <=? 8202)) ||
  (c =? 8232) || (c =? 8233) || (c =? 8239) || (c =? 8287) || (c =? 12288).

(** [s.split(None, maxsplit)]; [None] for no limit.  [cur] is the token being
    read, reversed, or [None] between tokens.  When the limit is used up the
    rest of the text, from its first non-blank character, is the last piece,
    trailing blanks included. *)
Fixpoint split_ws_from (maxsplit : option nat) (cur : option str) (s : str)
  : list str :=
  match s with
  | [] => match cur with Some t => [rev t] | None => [] end
  | c :: cs =>
      match cur with
      | None =>
          if isspace c then split_ws_from maxsplit None cs
          else match maxsplit with
               | Some O => [s]
               | _ => split_ws_from maxsplit (Some [c]) cs
               end
      | Some t =>
          if isspace c
          then rev t :: split_ws_from (pred <$> maxsplit) None cs
          else split_ws_from maxsplit (Some (c :: t)) cs
      end
  end.

Definition split_ws (maxsplit : option nat) (s : str) : list str :=
  split_ws_from maxsplit None s.

Fixpoint drop_while (p : N -> bool) (s : str) : str :=
  match s with
  | [] => []
  | c :: cs => if p c then drop_while p cs else s
  end.

(** ** Integers as text *)

Fixpoint uint_digits (d : Decimal.uint) : str :=
  match d with
  | Decimal.Nil => []
  | Decimal.D0 d => 48 :: uint_digits d
  | Decimal.D1 d => 49 :: uint_digits d
  | Decimal.D2 d => 50 :: uint_digits d
  | Decimal.D3 d => 51 :: uint_digits d
  | Decimal.D4 d => 52 :: uint_digits d
  | Decimal.D5 d => 53 :: uint_digits d
  | Decimal.D6 d => 54 :: uint_digits d
  | Decimal.D7 d => 55 :: uint_digits d
  | Decimal.D8 d => 56 :: uint_digits d
  | Decimal.D9 d => 57 :: uint_digits d
  end.

(** [str(n)] for a natural number *)
Definition str_of_N (n : N) : str := uint_digits (N.to_uint n).

(** [str(z)], which is also [repr(z)] *)
Definition str_of_Z (z : Z) : str :=
  match z with
  | Zneg p => 45 :: str_of_N (Npos p)
  | _ => str_of_N (Z.to_N z)
  end.

(** [f"{s:<width}"] and [f"{s:>width}"]: pad with blanks up to [width], never
    cut. *)
Definition ljust (width : nat) (s : str) : str :=
  s ++ replicate (width - length s) SP.
Definition rjust (width : nat) (s : str) : str :=
  replicate (width - length s) SP ++ s.

Definition digit_val (c : N) : option N :=
  if (48 <=? c) && (c <=? 57) then Some (c - 48) else None.

(** The digits of [int(s)]: decimal digits, single underscores between
    digits.  [after_digit] tells whether the previous character was a
    digit. *)
Fixpoint parse_digits (acc : N) (after_digit : bool) (s : str) : option N :=
  match s with
  | [] => if after_digit then Some acc else None
  | c :: cs =>
      match digit_val c with
      | Some d => parse_digits (10 * acc + d) true cs
      | None =>
          if (c =? 95) && after_digit then parse_digits acc false cs else None
      end
  end.

(** White space for the parser of integers: the ASCII white space of C. *)
Definition ascii_isspace (c : N) : bool :=
  ((9 <=? c) && (c <=? 13)) || (c =? 32).

Definition strip_ascii (s : str) : str :=
  rev (drop_while ascii_isspace (rev (drop_while ascii_isspace s))).

(** ** Bytes and UTF-8 *)

#[export] Instance byte_eq_decision : EqDecision byte := Byte.byte_eq_dec.

Definition byte_of_N (n : N) : byte := default x00 (Byte.of_N n).

(** One code point in UTF-8; a surrogate has no encoding. *)
Definition encode_char (c : N) : option (list byte) :=
  if c <? 128 then Some [byte_of_N c]
  else if c <? 2048 then
    Some [byte_of_N (192 + c / 64); byte_of_N (128 + c mod 64)]
  else if c <? 65536 then
    if (55296 <=? c) && (c <=? 57343) then None
    else Some [byte_of_N (224 + c / 4096);
               byte_of_N (128 + (c / 64) mod 64);
               byte_of_N (128 + c mod 64)]
  else if c <? 1114112 then
    Some [byte_of_N (240 + c / 262144);
          byte_of_N (128 + (c / 4096) mod 64);
          byte_of_N (128 + (c / 64) mod 64);
          byte_of_N (128 + c mod 64)]
  else None.

(** [s.encode('utf-8')]; [None] is [UnicodeEncodeError]. *)
Fixpoint encode_utf8 (s : str) : option (list byte) :=
  match s with
  | [] => Some []
  | c :: cs =>
      match encode_char c, encode_utf8 cs with
      | Some b, Some bs => Some (b ++ bs)
      | _, _ => None
      end
  end.

(** The payload of a continuation byte. *)
Definition continuation (b : byte) : option N :=
  let n := Byte.to_N b in
  if (128 <=? n) && (n <=? 191) then Some (n - 128) else None.

(** [data.decode('utf-8')]; [None] is [UnicodeDecodeError].  Overlong forms,
    surrogates and values past U+10FFFF are rejected. *)
Fixpoint decode_utf8 (data : list byte) : option str :=
  match data with
  | [] => Some []
  | b0 :: r0 =>
      let n0 := Byte.to_N b0 in
      if n0 <? 128 then cons n0 <$> decode_utf8 r0
      else if (192 <=? n0) && (n0 <=? 223) then
        match r0 with
        | b1 :: r1 =>
            match continuation b1 with
            | Some c1 =>
                let c := (n0 - 192) * 64 + c1 in
                if 128 <=? c then cons c <$> decode_utf8 r1 else None
            | None => None
            end
        | _ => None
        end
      else if (224 <=? n0) && (n0 <=? 239) then
        match r0 with
        | b1 :: b2 :: r2 =>
            match continuation b1, continuation b2 with
            | Some c1, Some c2 =>
                let c := (n0 - 224) * 4096 + c1 * 64 + c2 in
                if (2048 <=? c) && negb ((55296 <=? c) && (c <=? 57343))
                then cons c <$> decode_utf8 r2 else None
            | _, _ => None
            end
        | _ => None
        end
      else if (240 <=? n0) && (n0 <=? 247) then
        match r0 with
        | b1 :: b2 :: b3 :: r3 =>
            match continuation b1, continuation b2, continuation b3 with
            | Some c1, Some c2, Some c3 =>
                let c := (n0 - 240) * 262144 + c1 * 4096 + c2 * 64 + c3 in
                if (65536 <=? c) && (c <? 1114112)
                then cons c <$> decode_utf8 r3 else None
            | _, _, _ => None
            end
        | _ => None
        end
      else None
  end.

(** ** Values of a row *)

(** The values the tables hold: integers, floats, strings, and lists (of
    host names, of pairs of names). *)
#[warnings="-register-all"]
Inductive value :=
| VInt (z : Z)
| VFloat (x : float)
| VStr (s : str)
| VList (l : list value).

(** Two lists are equal when they have the same length and equal items. *)
Definition equal_items {A} (eqb : A -> A -> bool) : list A -> list A -> bool :=
  fix go (xs ys : list A) : bool :=
    match xs, ys with
    | [], [] => true
    | x :: xs', y :: ys' => eqb x y && go xs' ys'
    | _, _ => false
    end.

(** The comparisons of the [operator] module that the table of operators
    uses. *)
Inductive rich_op := op_eq | op_gt | op_lt | op_le | op_ge.

(** An integer against a float: the two numbers are compared exactly, and a
    NaN has no order with anything. *)
Definition Z_float_compare (x : Z) (f : float) : option comparison :=
  match Prim2SF f with
  | S754_nan => None
  | S754_zero _ => Some (x ?= 0)%Z
  | S754_infinity negative => Some (if negative then Gt else Lt)
  | S754_finite negative m e =>
      let v := if negative then Zneg m else Zpos m in
      Some (if (0 <=? e)%Z then (x ?= v * 2 ^ e)%Z
            else (x * 2 ^ (- e) ?= v)%Z)
  end.

Definition order_cmp (o : rich_op) (c : option comparison) : bool :=
  match c, o with
  | Some Eq, (op_eq | op_le | op_ge) => true
  | Some Lt, (op_lt | op_le) => true
  | Some Gt, (op_gt | op_ge) => true
  | _, _ => false
  end.

(** The comparisons of two floats are those of IEEE 754: every one of them
    is false when a NaN takes part. *)
Definition order_float (o : rich_op) (x y : float) : bool :=
  match o with
  | op_eq => PrimFloat.eqb x y
  | op_gt => PrimFloat.ltb y x
  | op_lt => PrimFloat.ltb x y
  | op_le => PrimFloat.leb x y
  | op_ge => PrimFloat.leb y x
  end.

(** [a == b].  The two values are never the same object here: the second is
    made from the text of a filter line. *)
Fixpoint value_eqb (a b : value) : bool :=
  match a, b with
  | VInt x, VInt y => (x =? y)%Z
  | VFloat x, VFloat y => order_float op_eq x y
  | VInt x, VFloat y => order_cmp op_eq (Z_float_compare x y)
  | VFloat x, VInt y => order_cmp op_eq (Z_float_compare y x)
  | VStr x, VStr y => str_eqb x y
  | VList xs, VList ys => equal_items value_eqb xs ys
  | _, _ => false
  end.

(** [a < b] on strings: by code point, a proper prefix first. *)
Fixpoint str_ltb (a b : str) : bool :=
  match a, b with
  | _, [] => false
  | [], _ :: _ => true
  | x :: a', y :: b' => (x <? y) || ((x =? y) && str_ltb a' b')
  end.

Definition str_leb (a b : str) : bool := negb (str_ltb b a).

Definition order_Z (o : rich_op) (x y : Z) : bool :=
  match o with
  | op_eq => (x =? y)%Z
  | op_gt => (y <? x)%Z
  | op_lt => (x <? y)%Z
  | op_le => (x <=? y)%Z
  | op_ge => (y <=? x)%Z
  end.

Definition order_str (o : rich_op) (x y : str) : bool :=
  match o with
  | op_eq => str_eqb x y
  | op_gt => str_ltb y x
  | op_lt => str_ltb x y
  | op_le => str_leb x y
  | op_ge => str_leb y x
  end.

(** ** Exceptions and outcomes *)

(** The three ways to compare.  [expect_query] refuses any other spelling
    with a [ValueError] before it does anything else; here the type leaves no
    other spelling. *)
Inductive MatchType := strict | ellipsis | loose.

(** One constructor for each place that raises, with what its message
    names. *)
Inductive exn :=
| ValueError_unpack
| ValueError_operator (op : str)
| ValueError_filters (n : nat)
| ValueError_int (s : str)
| ValueError_float (s : str)
| KeyError_key (k : str)
| KeyError_table (table : str)
| KeyError_column (table col : str)
| IndexError_range
| TypeError_operand
| RuntimeError_unexpected (got : str)
| RuntimeError_mismatch (mode : MatchType) (expected got : str)
| RuntimeError_no_context
| RuntimeError_nothing_sent
| RuntimeError_remaining (queries : list str)
| re_error
| UnicodeDecodeError
| UnicodeEncodeError.

Inductive exn_class :=
| ValueError | KeyError | IndexError | TypeError | RuntimeError
| ReError | UnicodeError.

Definition class_of (e : exn) : exn_class :=
  match e with
  | ValueError_unpack | ValueError_operator _ | ValueError_filters _
  | ValueError_int _ | ValueError_float _ => ValueError
  | KeyError_key _ | KeyError_table _ | KeyError_column _ _ => KeyError
  | IndexError_range => IndexError
  | TypeError_operand => TypeError
  | RuntimeError_unexpected _ | RuntimeError_mismatch _ _ _
  | RuntimeError_no_context | RuntimeError_nothing_sent
  | RuntimeError_remaining _ => RuntimeError
  | re_error => ReError
  | UnicodeDecodeError | UnicodeEncodeError => UnicodeError
  end.

(** What a call does: it returns or it raises. *)
Inductive result (A : Type) :=
| Ok (a : A)
| Raise (e : exn).
Arguments Ok {A} a.
Arguments Raise {A} e.

#[export] Instance result_ret : MRet result := fun A a => Ok a.
#[export] Instance result_bind : MBind result := fun A B f r =>
  match r with
  | Ok a => f a
  | Raise e => Raise e
  end.
#[export] Instance result_fmap : FMap result := fun A B f r =>
  match r with
  | Ok a => Ok (f a)
  | Raise e => Raise e
  end.

(** [option] to [result]: raise [e] on [None]. *)
Definition or_raise {A} (e : exn) (o : option A) : result A :=
  match o with
  | Some a => Ok a
  | None => Raise e
  end.

(** Run [f] over a list, left to right, stopping at the first exception. *)
Fixpoint map_result {A B} (f : A -> result B) (l : list A) : result (list B) :=
  match l with
  | [] => Ok []
  | x :: xs => y ← f x; ys ← map_result f xs; Ok (y :: ys)
  end.

(** The comparison of two lists: decided by the first pair of unequal
    items, or by the lengths when one list runs out. *)
Definition compare_items {A} (eqb : A -> A -> bool)
    (cmp : A -> A -> result bool) (by_length : Z -> Z -> bool)
  : list A -> list A -> result bool :=
  fix go (xs ys : list A) : result bool :=
    match xs, ys with
    | x :: xs', y :: ys' => if eqb x y then go xs' ys' else cmp x y
    | _, _ => Ok (by_length (Z.of_nat (length xs)) (Z.of_nat (length ys)))
    end.

(** [a op b] for the ordering comparisons and [==]; an integer and a float
    are compared as numbers, and any other values of different types are
    unequal and have no order. *)
Fixpoint rich_compare (o : rich_op) (a b : value) : result bool :=
  match o with
  | op_eq => Ok (value_eqb a b)
  | _ =>
      match a, b with
      | VInt x, VInt y => Ok (order_Z o x y)
      | VFloat x, VFloat y => Ok (order_float o x y)
      | VInt x, VFloat y => Ok (order_cmp o (Z_float_compare x y))
      | VFloat x, VInt y => Ok (order_cmp o (CompOpp <$> Z_float_compare y x))
      | VStr x, VStr y => Ok (order_str o x y)
      | VList xs, VList ys =>
          compare_items value_eqb (rich_compare o) (order_Z o) xs ys
      | _, _ => Raise TypeError_operand
      end
  end.

(** ** A fragment of the [re] engine

    The model is parametric in the engine behind [re.match].  To run it on
    concrete queries the following engine is supplied for the fragment of the
    pattern language that the examples use: literal characters, escaped
    punctuation, [.], the anchors [^] and [$], and the repetitions [*], [+]
    and [?] with their non-greedy forms.  A pattern outside the fragment is
    answered with [None], as a pattern that [re] rejects is. *)

Inductive re_atom := re_char (c : N) | re_any | re_bol | re_eol.

(** No repetition yet, a repetition, or a repetition followed by its
    non-greedy mark. *)
Inductive re_rep := rep_one | rep_star | rep_plus | rep_opt.

Record re_item := mk_re_item {
  item_atom : re_atom;
  item_rep : re_rep;
  item_lazy : bool;
}.

Definition is_ascii_punct (c : N) : bool :=
  ((33 <=? c) && (c <=? 47)) || ((58 <=? c) && (c <=? 64)) ||
  ((91 <=? c) && (c <=? 96)) || ((123 <=? c) && (c <=? 126)).

Definition rep_of_char (c : N) : option re_rep :=
  if c =? 42 then Some rep_star
  else if c =? 43 then Some rep_plus
  else if c =? 63 then Some rep_opt
  else None.

(** Characters that open a construct outside the fragment. *)
Definition re_unsupported (c : N) : bool :=
  (c =? 40) || (c =? 41) || (c =? 91) || (c =? 123) || (c =? 124).

(** [acc] holds the items read so far, last first; [esc] tells whether the
    previous character was an unescaped backslash. *)
Fixpoint re_parse_from (esc : bool) (acc : list re_item) (s : str)
  : option (list re_item) :=
  match s with
  | [] => if esc then None else Some (rev acc)
  | c :: cs =>
      if esc then
        if is_ascii_punct c
        then re_parse_from false (mk_re_item (re_char c) rep_one false :: acc) cs
        else None
      else if c =? 92 then re_parse_from true acc cs
      else
        match rep_of_char c with
        | Some r =>
            match acc with
            | mk_re_item (re_char _ as a) rep_one _ :: acc'
            | mk_re_item (re_any as a) rep_one _ :: acc' =>
                re_parse_from false (mk_re_item a r false :: acc') cs
            | mk_re_item a (rep_star as r') false :: acc'
            | mk_re_item a (rep_plus as r') false :: acc'
            | mk_re_item a (rep_opt as r') false :: acc' =>
                if c =? 63
                then re_parse_from false (mk_re_item a r' true :: acc') cs
                else None
            | _ => None
            end
        | None =>
            if re_unsupported c then None
            else
              let a := if c =? 46 then re_any
                       else if c =? 94 then re_bol
                       else if c =? 36 then re_eol
                       else re_char c in
              re_parse_from false (mk_re_item a rep_one false :: acc) cs
        end
  end.

Definition re_atom_ok (a : re_atom) (c : N) : bool :=
  match a with
  | re_char x => x =? c
  | re_any => negb (c =? 10)
  | _ => false
  end.

(** Whether the items match a prefix of the text; [at_start] tells whether
    the text begins at position 0.  Greedy and non-greedy repetitions accept
    the same texts. *)
Fixpoint re_run (items : list re_item) : bool -> str -> bool :=
  match items with
  | [] => fun _ _ => true
  | it :: rest =>
      let k := re_run rest in
      let a := item_atom it in
      let step (next : bool -> str -> bool) (s : str) : bool :=
        match s with
        | c :: cs => re_atom_ok a c && next false cs
        | [] => false
        end in
      let star :=
        fix star (at_start : bool) (s : str) {struct s} : bool :=
          k at_start s ||
          match s with
          | c :: cs => re_atom_ok a c && star false cs
          | [] => false
          end in
      match a with
      | re_bol => fun at_start s => at_start && k at_start s
      | re_eol => fun at_start s =>
          match s with
          | [] | [10] => k at_start s
          | _ => false
          end
      | _ =>
          match item_rep it with
          | rep_one => fun _ s => step k s
          | rep_opt => fun at_start s => k at_start s || step k s
          | rep_star => star
          | rep_plus => fun _ s => step star s
          end
      end
  end.

(** [bool(re.match(pattern, text))] on the fragment; [None] for a pattern
    that is rejected. *)
Definition re_fragment (pattern text : str) : option bool :=
  (fun items => re_run items true text) <$> re_parse_from false [] pattern.

(** ** Python list helpers *)

(** [l[:k]] and [l[k:]] for any integer [k]: a negative index counts from the
    end, and an index beyond either end is clipped. *)
Definition slice_to {A} (k : Z) (l : list A) : list A :=
  if (k <? 0)%Z then take (Z.to_nat (Z.of_nat (length l) + k)) l
  else take (Z.to_nat k) l.
Definition slice_from {A} (k : Z) (l : list A) : list A :=
  if (k <? 0)%Z then drop (Z.to_nat (Z.of_nat (length l) + k)) l
  else drop (Z.to_nat k) l.

(** [l.insert(i, x)] *)
Definition list_insert_at {A} (i : Z) (x : A) (l : list A) : list A :=
  slice_to i l ++ x :: slice_from i l.

(** [sorted(names)] for strings: insertion into a sorted list. *)
Fixpoint insert_sorted (x : str) (l : list str) : list str :=
  match l with
  | [] => [x]
  | y :: ys => if str_leb x y then x :: l else y :: insert_sorted x ys
  end.
Definition sorted (l : list str) : list str := foldr insert_sorted [] l.

(** [io.StringIO]: the text and the position of the next read. *)
Record StringIO := mk_StringIO {
  io_text : str;
  io_pos : nat;
}.

(** [io.read(size)]: the text read and the stream afterwards; a negative
    size reads to the end. *)
Definition StringIO_read (size : Z) (io : StringIO) : str * StringIO :=
  let rest := drop (io_pos io) (io_text io) in
  let got := if (size <? 0)%Z then rest else take (Z.to_nat size) rest in
  (got, mk_StringIO (io_text io) (io_pos io + length got)).

(** ** The simulator *)

Abbreviation Row := (gmap str value).
Abbreviation Response := (list (list value)).
Abbreviation FilterFunc := (Row -> result bool).
(** An operator compares the value of a row with the text of a filter line:
    [make_filter_func], its only caller, passes nothing else as the second
    argument. *)
Abbreviation OperatorFunc := (value -> str -> result bool).

(** An entry of the queue of expected queries: the query, its columns, its
    rows, and how to compare. *)
Abbreviation Expectation := (str * list str * Response * MatchType)%type.

(** The fields of [MockLiveStatusConnection] that its methods read or
    write.  The counters [_num_queries] and [_query_index] are set by the
    constructor and never used; [socket] only forwards to [socket_recv] and
    [socket_send]. *)
Record MockLiveStatusConnection := mk_conn {
  _prepend_site : bool;
  _expected_queries : list Expectation;
  _report_multiple : bool;
  _expect_status_query : option bool;
  _last_response : option StringIO;
  _tables : gmap str (list Row);
}.

Definition set_expected_queries (q : list Expectation)
    (self : MockLiveStatusConnection) : MockLiveStatusConnection :=
  mk_conn (_prepend_site self) q (_report_multiple self)
          (_expect_status_query self) (_last_response self) (_tables self).

Definition set_expect_status_query (b : option bool)
    (self : MockLiveStatusConnection) : MockLiveStatusConnection :=
  mk_conn (_prepend_site self) (_expected_queries self) (_report_multiple self)
          b (_last_response self) (_tables self).

Definition set_last_response (r : option StringIO)
    (self : MockLiveStatusConnection) : MockLiveStatusConnection :=
  mk_conn (_prepend_site self) (_expected_queries self) (_report_multiple self)
          (_expect_status_query self) r (_tables self).

(** [self._prepend_site = prepend_site] *)
Definition set_prepend_site (prepend_site : bool)
    (self : MockLiveStatusConnection) : MockLiveStatusConnection :=
  mk_conn prepend_site (_expected_queries self) (_report_multiple self)
          (_expect_status_query self) (_last_response self) (_tables self).

(** [self._tables[name] = data] *)
Definition add_table (name : str) (data : list Row)
    (self : MockLiveStatusConnection) : MockLiveStatusConnection :=
  mk_conn (_prepend_site self) (_expected_queries self) (_report_multiple self)
          (_expect_status_query self) (_last_response self)
          (<[name := data]> (_tables self)).

(** The query given to [expect_query]: a text, or its lines. *)
Inductive query_arg :=
| query_text (s : str)
| query_lines (l : list str).


(** A table for [str.isprintable] in which no code point from U+0100 on is
    printable: enough to run the model on Latin-1 text. *)
Definition latin1_printable : N -> bool := fun _ => false.

(** A table of decimal digits in which no code point outside ASCII is one:
    enough to run the model on Latin-1 text, where the decimal digits are
    those of ASCII. *)
Definition latin1_decimal : N -> option N := fun _ => None.

(** ** A fragment of [float] and of [repr]

    The parser behind [float] and the digits that [repr] writes for a float
    are parameters of the model.  To run it on the examples they are
    supplied for the values that have a name: [float] reads [nan], [inf]
    and [-inf], and [repr] writes them so.  Any other text, and any other
    float, is outside the fragment; such a text is answered with [None] and
    such a float with the empty text. *)
Definition float_fragment (s : str) : option float :=
  if bool_decide (s = py "nan") then Some nan
  else if bool_decide (s = py "inf") then Some infinity
  else if bool_decide (s = py "-inf") then Some neg_infinity
  else None.

Definition special_float_repr (x : float) : string :=
  if PrimFloat.is_nan x then "nan"
  else if PrimFloat.eqb x infinity then "inf"
  else if PrimFloat.eqb x neg_infinity then "-inf"
  else "".

(** ** Example data

    The rows and queries of the examples in the source's documentation. *)

Definition row_of (cells : list (str * value)) : Row := list_to_map cells.

Definition lines_of (lines : list str) : str := str_join [NL] lines.

Definition heute_morgen : list Row := [
  row_of [(py "name", VStr (py "heute")); (py "state", VInt 0)];
  row_of [(py "name", VStr (py "morgen")); (py "state", VInt 1)]
].

Definition query_one_filter : str :=
  lines_of [py "GET hosts"; py "Filter: name = heute"].

Definition query_two_filters : str :=
  lines_of [py "GET hosts"; py "Filter: name = heute"; py "Filter: state > 0"].

Definition query_hosts_name : str :=
  lines_of [py "GET hosts"; py "Columns: name"].

Definition row_heute : Row :=
  row_of [(py "name", VStr (py "heute")); (py "state", VInt 0)].

(** A table whose second row lacks the column [alias]. *)
Definition uneven_hosts : list Row := [
  row_of [(py "name", VStr (py "heute")); (py "alias", VStr (py "h"))];
  row_of [(py "name", VStr (py "morgen"))]
].

(** A connection as it is constructed, with the given tables. *)
Definition connection_with (tables : gmap str (list Row))
  : MockLiveStatusConnection :=
  mk_conn false [] false None None tables.

Definition uneven_connection : MockLiveStatusConnection :=
  connection_with {[ py "hosts" := uneven_hosts ]}.

Definition query_alias_of_heute : str :=
  lines_of [py "GET hosts"; py "Columns: alias"; py "Filter: name = heute"].

Definition query_alias : str :=
  lines_of [py "GET hosts"; py "Columns: alias"].

(** The tables [hosts] and [services] of a new connection. *)
Definition documentation_tables : gmap str (list Row) :=
  list_to_map [
    (py "hosts", [
       row_of [(py "name", VStr (py "heute"));
               (py "parents", VList [VStr (py "example.com")])];
       row_of [(py "name", VStr (py "example.com")); (py "parents", VList [])]
     ]);
    (py "services", [
       row_of [(py "host_name", VStr (py "example.com"));
               (py "description", VStr (py "Memory"))];
       row_of [(py "host_name", VStr (py "example.com"));
               (py "description", VStr (py "CPU load"))];
       row_of [(py "host_name", VStr (py "heute"));
               (py "description", VStr (py "CPU load"))]
     ])
  ].

Definition query_services_headers : str :=
  lines_of [py "GET services"; py "Columns: description"; py "ColumnHeaders: on"].

(** The bytes of an ASCII text. *)
Definition ascii_bytes (s : str) : list byte := byte_of_N <$> s.

Definition query_malformed_header : str :=
  lines_of [py "GET hosts"; py "ColumnHeaders:on"].

Definition query_with_plus : str :=
  lines_of [py "GET hosts"; py "Filter: name ~ heu+te"].

(** A [status] table with the columns that the query after the connect
    asks for. *)
Definition status_rows : list Row := [
  row_of [(py "livestatus_version", VStr (py "2021.03.01"));
          (py "program_version", VStr (py "Check_MK 2021.03.01"));
          (py "program_start", VInt 1614556800);
          (py "num_hosts", VInt 1);
          (py "num_services", VInt 36)]
].

Definition status_connection : MockLiveStatusConnection :=
  connection_with {[ py "status" := status_rows ]}.

(** A connection inside the scope, with two queries expected and no
    tables. *)
Definition two_expected : MockLiveStatusConnection :=
  mk_conn false
    [(py "GET hosts", [], [], loose); (py "GET services", [], [], strict)]
    false (Some false) None ∅.

(** A connection whose last response has not been read yet. *)
Definition answered_connection : MockLiveStatusConnection :=
  mk_conn false [] false (Some false)
    (Some (mk_StringIO (py "200           2" ++ [NL] ++ py "[]") 0)) ∅.

Definition query_name_and_state : str :=
  lines_of [py "GET hosts"; py "Filter: name = heute"; py "Filter: state = 0";
            py "And: 2"].

(** A predicate that answers the same on every row. *)
Definition always (b : bool) : FilterFunc := fun _ => Ok b.

(** A predicate that raises on every row. *)
Definition never_answers : FilterFunc := fun _ => Raise TypeError_operand.

(** A row with a float, as the rows of the [status] table have. *)
Definition row_load : Row := row_of [(py "load", VFloat 1%float)].
Section Simulator.

(** [re_match pattern text] is [bool(re.match(pattern, text))], and [None]
    when [re] rejects the pattern, which it does whatever the text is. *)
Variable re_match : str -> str -> option bool.

(** [unicode_printable c] is [chr(c).isprintable()] for a code point from
    U+0100 on. *)
Variable unicode_printable : N -> bool.

(** [unicode_decimal c] is the value of the decimal digit [chr(c)], a number
    below ten, for a code point outside ASCII; [None] when the character is
    no decimal digit. *)
Variable unicode_decimal : N -> option N.

(** [float_of_str s] is [float(s)], and [None] when [float] refuses the
    text. *)
Variable float_of_str : str -> option float.

(** [float_repr x] is [repr(x)] for a float, an ASCII text. *)
Variable float_repr : float -> string.

(** *** [int] of a string *)

(** What [int] makes of the characters before it parses them: a text that
    is all ASCII stays as it is; in any other text white space outside ASCII
    becomes a blank and a decimal digit outside ASCII the ASCII digit of
    its value, and the first character that is neither ends the text with a
    question mark. *)
Fixpoint decimal_and_space_to_ascii (s : str) : str :=
  match s with
  | [] => []
  | c :: cs =>
      if c <? 127 then c :: decimal_and_space_to_ascii cs
      else if isspace c then SP :: decimal_and_space_to_ascii cs
      else match unicode_decimal c with
           | Some d =>
               if d <? 10 then (48 + d) :: decimal_and_space_to_ascii cs
               else [63]
           | None => [63]
           end
  end.

(** [int(s)] in base ten; [None] is Python's [ValueError].  After the
    characters are brought to ASCII, the text is an optional sign and
    digits, single underscores allowed between digits, with ASCII white
    space around. *)
Definition int_of_str (s : str) : option Z :=
  let s := if forallb (fun c => c <? 128) s then s
           else decimal_and_space_to_ascii s in
  match strip_ascii s with
  | 43 :: ds => Z.of_N <$> parse_digits 0 false ds
  | 45 :: ds => (fun n => Z.opp (Z.of_N n)) <$> parse_digits 0 false ds
  | ds => Z.of_N <$> parse_digits 0 false ds
  end.

(** *** [repr] *)

Definition isprintable (c : N) : bool :=
  if c <? 128 then (32 <=? c) && (c <=? 126)
  else if c <? 256 then (161 <=? c) && negb (c =? 173)
  else unicode_printable c.

Definition hex_digit (n : N) : N := if n <? 10 then 48 + n else 87 + n.

(** [n] in [width] lower-case hexadecimal digits *)
Fixpoint hex_fixed (width : nat) (n : N) : str :=
  match width with
  | O => []
  | S w => hex_fixed w (n / 16) ++ [hex_digit (n mod 16)]
  end.

(** One character of [repr(s)] between quotes [quote]. *)
Definition repr_char (quote c : N) : str :=
  if (c =? quote) || (c =? 92) then [92; c]
  else if c =? 9 then py "\t"
  else if c =? 10 then py "\n"
  else if c =? 13 then py "\r"
  else if (c <? 32) || (c =? 127) then py "\x" ++ hex_fixed 2 c
  else if c <? 127 then [c]
  else if isprintable c then [c]
  else if c <? 256 then py "\x" ++ hex_fixed 2 c
  else if c <? 65536 then py "\u" ++ hex_fixed 4 c
  else py "\U" ++ hex_fixed 8 c.

(** [repr(s)] for a string: double quotes only when the text has a single
    quote and no double quote. *)
Definition repr_str (s : str) : str :=
  let quote := if char_in 39 s && negb (char_in 34 s) then 34 else 39 in
  quote :: concat (repr_char quote <$> s) ++ [quote].

Fixpoint repr (v : value) : str :=
  match v with
  | VInt z => str_of_Z z
  | VFloat x => py (float_repr x)
  | VStr s => repr_str s
  | VList l => py "[" ++ str_join (py ", ") (map repr l) ++ py "]"
  end.

(** The value of a response: a list of lists. *)
Definition response_value (response : Response) : value :=
  VList (VList <$> response).

Definition _make_livestatus_response (response : Response) : str :=
  let data := repr (response_value response) in
  let code := 200 in
  let length := N.of_nat (length data) in
  ljust 3 (str_of_N code) ++ py " " ++ rjust 11 (str_of_N length)
    ++ [NL] ++ data.

(** *** Operators and filters *)

(** [type(a)(b)] for the text [b] of a filter line. *)
Definition cast_to_type_of (a : value) (b : str) : result value :=
  match a with
  | VInt _ => VInt <$> or_raise (ValueError_int b) (int_of_str b)
  | VFloat _ => VFloat <$> or_raise (ValueError_float b) (float_of_str b)
  | VStr _ => Ok (VStr b)
  | VList _ => Ok (VList ((fun c => VStr [c]) <$> b))
  end.

Definition cast_down (op : value -> value -> result bool) : OperatorFunc :=
  fun a b => t_b ← cast_to_type_of a b; op a t_b.

(** [re.match] compiles the pattern before it looks at the value: a
    pattern that [re] rejects raises also on a value that is no string. *)
Definition match_regexp : OperatorFunc :=
  fun string_ regexp =>
    match string_ with
    | VStr s => or_raise re_error (re_match regexp s)
    | _ =>
        _ ← or_raise re_error (re_match regexp []);
        Raise TypeError_operand
    end.

Definition OPERATORS : gmap str OperatorFunc :=
  list_to_map [
    (py "=", cast_down (rich_compare op_eq));
    (py ">", cast_down (rich_compare op_gt));
    (py "<", cast_down (rich_compare op_lt));
    (py ">=", cast_down (rich_compare op_le));
    (py "<=", cast_down (rich_compare op_ge));
    (py "~", match_regexp)
  ].

(** [field, op, *value = line[7:].split(None, 2)]: at least two pieces, or
    the unpacking fails; [value] holds the third piece if there is one, and
    the empty text takes its place if there is none. *)
Definition make_filter_func (line : str) : result FilterFunc :=
  match split_ws (Some 2%nat) (drop 7 line) with
  | field :: op :: value =>
      match OPERATORS !! op with
      | None => Raise (ValueError_operator op)
      | Some operator =>
          let value := match value with [] => [[]] | _ => value end in
          Ok (fun entry =>
                a ← or_raise (KeyError_key field) (entry !! field);
                match value with
                | [b] => operator a b
                | _ => Raise TypeError_operand
                end)
      end
  | _ => Raise ValueError_unpack
  end.

Definition and_ (filters : list FilterFunc) : FilterFunc :=
  fun entry => forallb id <$> map_result (fun filt => filt entry) filters.

Definition or_ (filters : list FilterFunc) : FilterFunc :=
  fun entry => existsb id <$> map_result (fun filt => filt entry) filters.

Definition COMBINATORS : gmap str (list FilterFunc -> FilterFunc) :=
  list_to_map [(py "And:", and_); (py "Or:", or_)].

(** The loop of [evaluate_filter] over the lines of the query; [filters] is
    the stack, its top last. *)
Fixpoint collect_filters (lines : list str) (filters : list FilterFunc)
  : result (list FilterFunc) :=
  match lines with
  | [] => Ok filters
  | line :: rest =>
      if startswith line (py "Filter:") then
        f ← make_filter_func line;
        collect_filters rest (filters ++ [f])
      else if startswith line (py "And:") || startswith line (py "Or:") then
        match split_sep_1 (py " ") line with
        | [op; count_] =>
            count ← or_raise (ValueError_int count_) (int_of_str count_);
            let params := slice_from (- count) filters in
            let filters := slice_to (- count) filters in
            combine ← or_raise (KeyError_key op) (COMBINATORS !! op);
            collect_filters rest (filters ++ [combine params])
        | _ => Raise ValueError_unpack
        end
      else collect_filters rest filters
  end.

(** [[entry for entry in result if f(entry)]] *)
Fixpoint keep_rows (f : FilterFunc) (rows : list Row) : result (list Row) :=
  match rows with
  | [] => Ok []
  | entry :: rest =>
      b ← f entry;
      kept ← keep_rows f rest;
      Ok (if b : bool then entry :: kept else kept)
  end.

Definition evaluate_filter (query : str) (rows : list Row)
  : result (list Row) :=
  filters ← collect_filters (splitlines query) [];
  match filters with
  | [] => Ok rows
  | f0 :: _ =>
      if (1 <? length filters)%nat
      then Raise (ValueError_filters (length filters))
      else keep_rows f0 rows
  end.

(** *** Reading a query *)

(** The loop of [_column_of_query]: the names on the first line that starts
    with [Columns:]. *)
Fixpoint first_columns (lines : list str) : option (list str) :=
  match lines with
  | [] => None
  | line :: rest =>
      if startswith line (py "Columns:")
      then Some (split_ws None (drop 8 line))
      else first_columns rest
  end.

Definition _column_of_query (query : str) : option (list str) :=
  first_columns (splitlines query).

Definition _table_of_query (query : str) : result (option str) :=
  match splitlines query with
  | line0 :: _ =>
      if startswith line0 (py "GET ")
      then Some <$> or_raise IndexError_range (split_ws (Some 1%nat) line0 !! 1%nat)
      else Ok None
  | [] => Ok None
  end.

(** The loop of [_unpack_headers]. *)
Fixpoint unpack_lines (lines : list str) (unpacked : gmap str str)
  : result (gmap str str) :=
  match lines with
  | [] => Ok unpacked
  | header :: rest =>
      if startswith header (py "GET ") then unpack_lines rest unpacked
      else if negb (contains (py ":") header) then unpack_lines rest unpacked
      else if bool_decide (header = []) then unpack_lines rest unpacked
      else
        match split_sep_1 (py ": ") header with
        | [key; value] =>
            unpack_lines rest (<[key := lstrip (py " ") value]> unpacked)
        | _ => Raise ValueError_unpack
        end
  end.

Definition _unpack_headers (query : str) : result (gmap str str) :=
  unpack_lines (splitlines query) ∅.

(** *** Comparing a query with the expected one *)

(** The [for ... else] of the loose comparison: [false] at the first line of
    the pattern that is neither a cache line nor a line of the query. *)
Fixpoint loose_lines (pattern_lines string_lines : list str) : bool :=
  match pattern_lines with
  | [] => true
  | line :: rest =>
      if startswith line (py "Cache: ") then loose_lines rest string_lines
      else if negb (bool_decide (line ∈ string_lines)) then false
      else loose_lines rest string_lines
  end.

(** The regular expression of the [ellipsis] comparison:
    [f"^{final_pattern}$"]. *)
Definition ellipsis_pattern (pattern : str) : str :=
  let final_pattern :=
    replace (py "...") (py ".*?") (replace (py "[") (py "\[") pattern) in
  py "^" ++ final_pattern ++ py "$".

Definition _compare (pattern string : str) (match_type : MatchType)
  : result bool :=
  match match_type with
  | loose =>
      let string_lines := splitlines string in
      Ok (loose_lines (splitlines pattern) string_lines)
  | strict => Ok (str_eqb pattern string)
  | ellipsis => or_raise re_error (re_match (ellipsis_pattern pattern) string)
  end.

(** *** Declaring an expected query *)

(** [for entry in rows: columns = sorted(entry.keys())] *)
Definition columns_from_rows (columns : list str) (rows : list Row)
  : list str :=
  foldl (fun _ entry => sorted (map_to_list entry).*1) columns rows.

(** [[entry[col] for col in columns]], with the check of the source. *)
Definition row_of_entry (table : str) (columns : list str) (entry : Row)
  : result (list value) :=
  map_result (fun col => or_raise (KeyError_column table col) (entry !! col))
             columns.

(** [query = '\n'.join(query)] for a list of lines, then
    [query = query.rstrip("\n")] *)
Definition normalize_query (query : query_arg) : str :=
  let query := match query with
               | query_lines l => str_join [NL] l
               | query_text s => s
               end in
  rstrip [NL] query.

(** The columns of the declaration: those the query names, or else those
    found in the rows of its table. *)
Definition resolve_columns (tables : gmap str (list Row)) (table : option str)
    (query : str) : list str :=
  let columns := default [] (_column_of_query query) in
  match table, columns with
  | Some t, [] => columns_from_rows columns (default [] (tables !! t))
  | _, _ => columns
  end.

(** The rows of the declaration: empty without a table or without columns. *)
Definition resolve_rows (tables : gmap str (list Row)) (table : option str)
    (columns : list str) (query : str) : result Response :=
  match table, columns with
  | Some t, _ :: _ =>
      stored ← or_raise (KeyError_table t) (tables !! t);
      result_dicts ← evaluate_filter query stored;
      map_result (row_of_entry t columns) result_dicts
  | _, _ => Ok []
  end.

(** The entry that [expect_query] puts on the queue. *)
Definition resolve_query (tables : gmap str (list Row)) (query : str)
    (match_type : MatchType) : result Expectation :=
  table ← _table_of_query query;
  let columns := resolve_columns tables table query in
  rows ← resolve_rows tables table columns query;
  Ok (query, columns, rows, match_type).

(** [self._expected_queries.insert(force_pos, entry)], or [append(entry)]
    without a position. *)
Definition enqueue (force_pos : option Z) (entry : Expectation)
    (queue : list Expectation) : list Expectation :=
  match force_pos with
  | Some pos => list_insert_at pos entry queue
  | None => queue ++ [entry]
  end.

Definition expect_query (query : query_arg) (match_type : MatchType)
    (force_pos : option Z) (self : MockLiveStatusConnection)
  : result unit * MockLiveStatusConnection :=
  let query := normalize_query query in
  match resolve_query (_tables self) query match_type with
  | Raise e => (Raise e, self)
  | Ok entry =>
      (Ok (),
       set_expected_queries (enqueue force_pos entry (_expected_queries self))
                            self)
  end.

Definition _expect_post_connect_query (self : MockLiveStatusConnection)
  : result unit * MockLiveStatusConnection :=
  expect_query
    (query_lines [
       py "GET status";
       py "Cache: reload";
       py "Columns: livestatus_version program_version program_start num_hosts num_services"
     ])
    loose (Some 0%Z) self.

(** *** Entering and leaving the scope *)

Definition __call__ (expect_status_query : bool)
    (self : MockLiveStatusConnection) : MockLiveStatusConnection :=
  set_expect_status_query (Some expect_status_query) self.

Definition __enter__ (self : MockLiveStatusConnection)
  : result unit * MockLiveStatusConnection :=
  let self :=
    match _expect_status_query self with
    | None => set_expect_status_query (Some true) self
    | Some _ => self
    end in
  if bool_decide (_expect_status_query self = Some true)
  then _expect_post_connect_query self
  else (Ok (), self).

(** [exc] tells whether an exception is leaving the scope. *)
Definition __exit__ (exc : bool) (self : MockLiveStatusConnection)
  : result unit * MockLiveStatusConnection :=
  let self := set_expect_status_query None self in
  if exc && negb (_report_multiple self) then (Ok (), self)
  else
    match _expected_queries self with
    | [] => (Ok (), self)
    | queue => (Raise (RuntimeError_remaining (queue.*1.*1.*1)), self)
    end.

(** *** Sending and receiving *)

(** The generator of [_lookup_next_query]. *)
Definition _generate_output (show_columns : str) (prepend_site : bool)
    (columns : list str) (response : Response) : Response :=
  (if bool_decide (show_columns = py "on") then [VStr <$> columns] else [])
  ++ (if prepend_site
      then (fun line => VStr (py "NO_SITE") :: line) <$> response
      else response).

Definition _lookup_next_query (query : str) (self : MockLiveStatusConnection)
  : result Response * MockLiveStatusConnection :=
  match _expect_status_query self with
  | None => (Raise RuntimeError_no_context, self)
  | Some _ =>
      match _unpack_headers query with
      | Raise e => (Raise e, self)
      | Ok header_dict =>
          let show_columns :=
            default (py "off") (header_dict !! py "ColumnHeaders") in
          match _expected_queries self with
          | [] => (Raise (RuntimeError_unexpected query), self)
          | (expected_query, columns, response, match_type) :: _ =>
              match _compare expected_query query match_type with
              | Raise e => (Raise e, self)
              | Ok false =>
                  (Raise (RuntimeError_mismatch match_type expected_query query),
                   self)
              | Ok true =>
                  let self :=
                    set_expected_queries (drop 1 (_expected_queries self)) self in
                  let response :=
                    _generate_output show_columns (_prepend_site self)
                                     columns response in
                  let self :=
                    set_last_response
                      (Some (mk_StringIO (_make_livestatus_response response) 0))
                      self in
                  (Ok response, self)
              end
          end
      end
  end.

Definition socket_recv (length : Z) (self : MockLiveStatusConnection)
  : result (list byte) * MockLiveStatusConnection :=
  match _last_response self with
  | None => (Raise RuntimeError_nothing_sent, self)
  | Some io =>
      let '(text, io) := StringIO_read length io in
      (or_raise UnicodeEncodeError (encode_utf8 text),
       set_last_response (Some io) self)
  end.

(** [if data[-2:] == b"\n\n": data = data[:-2]] *)
Definition strip_terminator (data : list byte) : list byte :=
  if bool_decide (drop (length data - 2) data = [x0a; x0a])
  then take (length data - 2) data
  else data.

Definition socket_send (data : list byte) (self : MockLiveStatusConnection)
  : result unit * MockLiveStatusConnection :=
  let data := strip_terminator data in
  match decode_utf8 data with
  | None => (Raise UnicodeDecodeError, self)
  | Some query =>
      let '(r, self) := _lookup_next_query query self in
      ((fun _ => ()) <$> r, self)
  end.

(** *** Notions used to state the properties *)

(** A line that [_unpack_headers] reads as a header: it does not start with
    [GET ] and has a colon. *)
Definition is_header_line (line : str) : bool :=
  negb (startswith line (py "GET ")) && contains (py ":") line.

(** The key and the value of a header line: the text before the first colon
    followed by a blank, and the text after it without the blanks in
    front. *)
Definition header_pair (line : str) : option (str * str) :=
  (fun kv => (kv.1, lstrip (py " ") kv.2)) <$> find_sep (py ": ") line.

(** The value of a header when a single blank in front is removed. *)
Definition strip_one_blank (value : str) : str :=
  match value with
  | 32 :: rest => rest
  | _ => value
  end.

(** The header a line contributes, if it is a header line. *)
Definition header_of_line (line : str) : option (str * str) :=
  if is_header_line line then header_pair line else None.

(** The headers of the lines of a query, a later line replacing an earlier
    one with the same key. *)
Definition headers_of (lines : list str) : gmap str str :=
  list_to_map (reverse (omap header_of_line lines)).

(** Every header line has a colon followed by a blank. *)
Definition headers_wellformed (query : str) : bool :=
  forallb (fun line => implb (is_header_line line) (contains (py ": ") line))
          (splitlines query).

(** The predicate holds of the row: it returns true, and does not raise. *)
Definition holds (f : FilterFunc) (entry : Row) : bool :=
  match f entry with
  | Ok true => true
  | _ => false
  end.

(** A line that [evaluate_filter] acts on. *)
Definition is_filter_directive (line : str) : bool :=
  startswith line (py "Filter:") || startswith line (py "And:")
  || startswith line (py "Or:").

(** A column name or an operator on a filter line: not empty, and without
    white space. *)
Definition is_token (s : str) : bool :=
  match s with
  | [] => false
  | _ => forallb (fun c => negb (isspace c)) s
  end.

(** The text after the operator on a filter line: empty, or starting with a
    character that is not white space. *)
Definition is_filter_value (s : str) : bool :=
  match s with
  | [] => true
  | c :: _ => negb (isspace c)
  end.

(** Whether two values have the same Python type. *)
Definition same_type (a b : value) : bool :=
  match a, b with
  | VInt _, VInt _ | VFloat _, VFloat _ | VStr _, VStr _
  | VList _, VList _ => true
  | _, _ => false
  end.

(** The text has ASCII characters only. *)
Definition is_ascii (s : str) : bool := forallb (fun c => c <? 128) s.

(** [a <= b] on strings, as a relation. *)
Definition str_le (a b : str) : Prop := str_leb a b = true.

(** The sorted union of the column names of the rows: the columns that the
    specification gives a query without a [Columns:] line. *)
Definition union_columns (rows : list Row) : list str :=
  sorted (elements (⋃ (dom <$> rows) : gset str)).

(** A code point that UTF-8 encodes: below U+110000 and not a surrogate. *)
Definition is_scalar (c : N) : bool :=
  (c <? 55296) || ((57343 <? c) && (c <? 1114112)).

(** The client: it sends each query and then reads at most [size] characters
    of the answer; it stops at the first exception. *)
Fixpoint exchange (sends : list (list byte * Z)) (self : MockLiveStatusConnection)
  : result (list (list byte)) * MockLiveStatusConnection :=
  match sends with
  | [] => (Ok [], self)
  | (data, size) :: rest =>
      match socket_send data self with
      | (Raise e, self) => (Raise e, self)
      | (Ok _, self) =>
          match socket_recv size self with
          | (Raise e, self) => (Raise e, self)
          | (Ok received, self) =>
              match exchange rest self with
              | (Raise e, self) => (Raise e, self)
              | (Ok more, self) => (Ok (received :: more), self)
              end
          end
      end
  end.

(** The frame that answers the query of an entry of the queue when that very
    text is sent: the rows computed at the declaration, after the column
    names if the text says [ColumnHeaders: on], each row after the site
    marker if [prepend_site] is set. *)
Definition frame_of_entry (prepend_site : bool) (entry : Expectation) : str :=
  let '(query, columns, response, _) := entry in
  let show_columns :=
    default (py "off") (headers_of (splitlines query) !! py "ColumnHeaders") in
  _make_livestatus_response
    (_generate_output show_columns prepend_site columns response).

(** The bytes carry the query of the entry, the text has well-formed
    headers and matches itself under the mode of the entry, and [size]
    characters hold the whole frame. *)
Definition sends_entry (prepend_site : bool) (send : list byte * Z)
    (entry : Expectation) : Prop :=
  let '(query, _, _, match_type) := entry in
  decode_utf8 (strip_terminator send.1) = Some query ∧
  headers_wellformed query = true ∧
  (match_type = ellipsis →
   re_match (ellipsis_pattern query) query = Some true) ∧
  (Z.of_nat (length (frame_of_entry prepend_site entry)) ≤ send.2)%Z.

(** Declare the queries one after the other, each at the end of the queue;
    stop at the first exception. *)
Fixpoint declare_all (decls : list (query_arg * MatchType))
    (self : MockLiveStatusConnection)
  : result unit * MockLiveStatusConnection :=
  match decls with
  | [] => (Ok (), self)
  | (query, match_type) :: rest =>
      match expect_query query match_type None self with
      | (Raise e, self) => (Raise e, self)
      | (Ok _, self) => declare_all rest self
      end
  end.

(** The entry is the one that the declaration resolves to, with the text of
    the declaration without its final line feeds, and with its mode. *)
Definition declared_as (tables : gmap str (list Row))
    (decl : query_arg * MatchType) (entry : Expectation) : Prop :=
  resolve_query tables (normalize_query decl.1) decl.2 = Ok entry ∧
  entry.1.1.1 = normalize_query decl.1 ∧ entry.2 = decl.2.

(** *** Further notions used to state the properties *)

(** The query that [_expect_post_connect_query] declares, and its columns. *)
Definition status_query : str :=
  str_join [NL] [
    py "GET status";
    py "Cache: reload";
    py "Columns: livestatus_version program_version program_start num_hosts num_services"
  ].

Definition status_columns : list str := [
  py "livestatus_version"; py "program_version"; py "program_start";
  py "num_hosts"; py "num_services"
].

(** The texts of the entries of a queue. *)
Definition queue_texts (queue : list Expectation) : list str :=
  queue.*1.*1.*1.

(** Every row of the entry has one cell for each of its columns. *)
Definition rectangular (entry : Expectation) : Prop :=
  Forall (fun row : list value => length row = length entry.1.1.2) entry.1.2.

(** The operators that [OPERATORS] knows. *)
Definition operator_names : list str :=
  [py "="; py ">"; py "<"; py ">="; py "<="; py "~"].

(** The text that an argument of [expect_query] stands for: a list of lines
    is joined by line feeds. *)
Definition text_of (query : query_arg) : str :=
  match query with
  | query_lines l => str_join [NL] l
  | query_text s => s
  end.

(** * Properties *)

(** Replace the literals [py "..."] of the goal by their code points. *)
Ltac py_literals :=
  repeat match goal with
         | |- context [py ?s] =>
             let v := eval vm_compute in (py s) in change (py s) with v
         end.

(** Look a literal key up in a table written as a list of pairs. *)
Ltac lookup_table :=
  unfold list_to_map; cbn [foldr uncurry fst snd];
  repeat first
    [ apply lookup_insert_eq
    | rewrite lookup_insert_ne by (vm_compute; discriminate)
    | apply lookup_empty ].

(** [lia] with the equations of division by a constant. *)
Ltac lia_div := zify; Z.to_euclidean_division_equations; lia.

(** Decide the comparisons of the goal by arithmetic. *)
Ltac decide_tests :=
  repeat match goal with
         | |- context [?a <? ?b] => destruct (N.ltb_spec a b); try lia_div
         | |- context [?a <=? ?b] => destruct (N.leb_spec a b); try lia_div
         end.

(** ** Strings *)

Lemma startswith_prefix (s p : str) : startswith s p = true ↔ p `prefix_of` s.
Proof.
  revert s. induction p as [|c p IH]; intros s; simpl.
  - destruct s; simpl; (split; [intros _; apply prefix_nil | done]).
  - destruct s as [|d s]; simpl.
    + split; [done | intros [k Hk]; discriminate].
    + rewrite andb_true_iff, N.eqb_eq, IH. split.
      * intros [-> Hp]. by apply prefix_cons.
      * intros [k Hk]. injection Hk as -> ->. split; [done | by exists k].
Qed.

Lemma startswith_app (p r : str) : startswith (p ++ r) p = true.
Proof. apply startswith_prefix. by exists r. Qed.

Lemma startswith_drop (s p : str) :
  startswith s p = true → s = p ++ drop (length p) s.
Proof.
  rewrite startswith_prefix. intros [k ->].
  by rewrite drop_app_length.
Qed.

Lemma contains_occurrence (sub s : str) :
  contains sub s = true ↔ ∃ a b, s = a ++ sub ++ b.
Proof.
  induction s as [|c s IH]; cbn [contains].
  - rewrite orb_false_r, startswith_prefix. split.
    + intros [k Hk]. by exists [], k.
    + intros (a & b & Hs). symmetry in Hs.
      apply app_eq_nil in Hs as [-> Hs]. apply app_eq_nil in Hs as [-> ->].
      apply prefix_nil.
  - rewrite orb_true_iff, startswith_prefix, IH. split.
    + intros [[k Hk] | (a & b & ->)].
      * by exists [], k.
      * by exists (c :: a), b.
    + intros ([|d a] & b & Hs).
      * left. by exists b.
      * right. injection Hs as -> ->. by exists a, b.
Qed.

Lemma find_sep_None (sep s : str) :
  find_sep sep s = None ↔ contains sep s = false.
Proof.
  induction s as [|c s IH]; cbn [find_sep contains].
  - destruct (startswith [] sep); simpl; split; done.
  - destruct (startswith (c :: s) sep); simpl; [split; done|].
    rewrite <- IH. destruct (find_sep sep s) as [[a b]|]; split; done.
Qed.

(** [find_sep] cuts the text at an occurrence of the separator, the first
    one. *)
Lemma find_sep_Some (sep s a b : str) :
  find_sep sep s = Some (a, b) →
  s = a ++ sep ++ b ∧ ∀ a' b', s = a' ++ sep ++ b' → (length a ≤ length a')%nat.
Proof.
  revert a. induction s as [|c s IH]; intros a; cbn [find_sep].
  - destruct (startswith [] sep) eqn:Hp; [|done].
    intros [= <- <-]. split; [|intros; simpl; lia].
    by apply startswith_drop in Hp.
  - destruct (startswith (c :: s) sep) eqn:Hp.
    + intros [= <- <-]. split; [|intros; simpl; lia].
      by apply startswith_drop in Hp.
    + destruct (find_sep sep s) as [[a0 b0]|] eqn:Hf; [|done].
      intros [= <- <-]. destruct (IH a0 eq_refl) as [Hs Hmin]. split.
      * simpl. by rewrite <- Hs.
      * intros [|d a'] b' Heq.
        -- simpl in Heq. rewrite Heq, startswith_app in Hp. done.
        -- injection Heq as -> Heq. simpl. apply le_n_S. by eapply Hmin.
Qed.

Lemma split_sep_1_absent (sep s : str) :
  contains sep s = false → split_sep_1 sep s = [s].
Proof. intros H. unfold split_sep_1. by apply find_sep_None in H as ->. Qed.

Lemma split_sep_1_present (sep s : str) :
  contains sep s = true → ∃ a b, find_sep sep s = Some (a, b) ∧ split_sep_1 sep s = [a; b].
Proof.
  intros H. unfold split_sep_1. destruct (find_sep sep s) as [[a b]|] eqn:Hf.
  - by exists a, b.
  - apply find_sep_None in Hf. congruence.
Qed.

(** [lstrip] with one blank as its set removes the blanks in front, all of
    them. *)
Lemma lstrip_blank (s : str) :
  startswith (lstrip (py " ") s) (py " ") = false ∧
  ∃ n, s = replicate n SP ++ lstrip (py " ") s.
Proof.
  py_literals.
  induction s as [|c s [IH1 [n IH2]]]; cbn [lstrip char_in existsb].
  - split; [done | by exists 0%nat].
  - rewrite orb_false_r. destruct (c =? 32) eqn:Hc.
    + apply N.eqb_eq in Hc as ->. split; [done|].
      exists (S n). simpl. by rewrite <- IH2.
    + split; [|by exists 0%nat].
      cbn [startswith]. by rewrite N.eqb_sym, Hc.
Qed.

(** ** Header unpacking *)

Lemma unpack_lines_malformed (lines : list str) (header : str)
    (unpacked : gmap str str) :
  header ∈ lines →
  startswith header (py "GET ") = false →
  contains (py ":") header = true →
  contains (py ": ") header = false →
  unpack_lines lines unpacked = Raise ValueError_unpack.
Proof.
  intros Hin Hget Hcolon Hsep. revert unpacked.
  induction lines as [|line rest IH]; intros unpacked.
  - by apply elem_of_nil in Hin.
  - cbn [unpack_lines]. apply elem_of_cons in Hin as [<- | Hin].
    + rewrite Hget, Hcolon. cbn [negb].
      rewrite bool_decide_false by (intros ->; discriminate).
      by rewrite split_sep_1_absent.
    + specialize (IH Hin).
      destruct (startswith line (py "GET ")); [apply IH|].
      destruct (negb (contains (py ":") line)); [apply IH|].
      case_bool_decide; [apply IH|].
      unfold split_sep_1. destruct (find_sep (py ": ") line) as [[k v]|].
      * apply IH.
      * done.
Qed.

(** C10: a query with a line that does not start with [GET ], has a colon
    and has no colon followed by a blank (such as [ColumnHeaders:on]) makes
    [_unpack_headers] raise the unpacking [ValueError]; inside the scope
    [_lookup_next_query] and [socket_send] raise it too, and leave the
    connection as it was. *)
Theorem unpack_headers_malformed_line (query header : str) :
  header ∈ splitlines query →
  startswith header (py "GET ") = false →
  contains (py ":") header = true →
  contains (py ": ") header = false →
  _unpack_headers query = Raise ValueError_unpack ∧
  ∀ self, is_Some (_expect_status_query self) →
    _lookup_next_query query self = (Raise ValueError_unpack, self) ∧
    ∀ data, decode_utf8 (strip_terminator data) = Some query →
      socket_send data self = (Raise ValueError_unpack, self).
Proof.
  intros Hin Hget Hcolon Hsep.
  assert (Hraise : _unpack_headers query = Raise ValueError_unpack)
    by (eapply unpack_lines_malformed; eauto).
  split; [done|]. intros self [b Hb].
  assert (Hlook : _lookup_next_query query self = (Raise ValueError_unpack, self))
    by (unfold _lookup_next_query; by rewrite Hb, Hraise).
  split; [done|]. intros data Hdata.
  unfold socket_send. by rewrite Hdata, Hlook.
Qed.

Lemma unpack_lines_headers_of (lines : list str) (unpacked : gmap str str) :
  forallb (fun line => implb (is_header_line line) (contains (py ": ") line))
          lines = true →
  unpack_lines lines unpacked = Ok (headers_of lines ∪ unpacked).
Proof.
  unfold headers_of. revert unpacked.
  induction lines as [|line rest IH]; intros unpacked Hwf.
  - cbn. by rewrite (left_id_L ∅ (∪)).
  - cbn [forallb] in Hwf. apply andb_true_iff in Hwf as [Hline Hrest].
    cbn [unpack_lines omap list_omap]. unfold header_of_line at 1.
    unfold is_header_line in *.
    destruct (startswith line (py "GET ")); cbn [negb andb]; [by apply IH|].
    cbn [negb andb] in Hline.
    destruct (contains (py ":") line) eqn:Hcolon; cbn [negb]; [|by apply IH].
    cbn [implb] in Hline.
    rewrite bool_decide_false by (intros ->; discriminate).
    destruct (split_sep_1_present _ _ Hline) as (k & v & Hf & ->).
    rewrite IH by done. unfold header_pair. rewrite Hf. cbn [fmap option_fmap option_map fst snd].
    f_equal. rewrite reverse_cons, list_to_map_app.
    rewrite <- (assoc_L (∪)). f_equal.
    cbn. by rewrite insert_empty, <- insert_union_singleton_l.
Qed.

(** Lines that are not header lines leave no trace. *)
Lemma unpack_lines_ignores (lines : list str) (unpacked : gmap str str) :
  unpack_lines lines unpacked
  = unpack_lines (filter (λ line : str, is_header_line line = true) lines) unpacked.
Proof.
  revert unpacked. induction lines as [|line rest IH]; intros unpacked; [done|].
  rewrite filter_cons. cbn [unpack_lines]. case_decide as Hh.
  - cbn [unpack_lines].
    destruct (startswith line (py "GET ")); [apply IH|].
    destruct (negb (contains (py ":") line)); [apply IH|].
    case_bool_decide; [apply IH|].
    destruct (split_sep_1 (py ": ") line) as [|k [|v [|? ?]]];
      first [apply IH | reflexivity].
  - unfold is_header_line in Hh.
    destruct (startswith line (py "GET ")); [apply IH|].
    destruct (contains (py ":") line); [done | apply IH].
Qed.

Lemma header_pair_shape (line key value : str) :
  header_pair line = Some (key, value) →
  startswith value (py " ") = false ∧
  ∃ n, line = key ++ py ": " ++ replicate n SP ++ value ∧
       ∀ a b, line = a ++ py ": " ++ b → (length key ≤ length a)%nat.
Proof.
  unfold header_pair. destruct (find_sep (py ": ") line) as [[k v]|] eqn:Hf; [|done].
  cbn. intros [= <- <-]. apply find_sep_Some in Hf as [Hline Hfirst].
  destruct (lstrip_blank v) as [Hv [n Hn]]. split; [done|].
  exists n. split; [|done]. by rewrite <- Hn.
Qed.

Lemma unpack_headers_Ok (query : str) :
  headers_wellformed query = true →
  _unpack_headers query = Ok (headers_of (splitlines query)).
Proof.
  intros Hwf. unfold _unpack_headers.
  rewrite unpack_lines_headers_of by done. by rewrite (right_id_L ∅ (∪)).
Qed.

(** C9, amended: when every header line of a query has a colon followed by a
    blank, [_unpack_headers] returns the map that gives each key (the text
    before the first colon-blank of a line that does not start with [GET ]
    and has a colon) the rest of that line without any of the blanks in
    front, a later line replacing an earlier one; lines without a colon,
    empty lines among them, are ignored. *)
Theorem unpack_headers_wellformed (query : str) :
  headers_wellformed query = true →
  _unpack_headers query = Ok (headers_of (splitlines query)) ∧
  _unpack_headers query
    = unpack_lines (filter (λ line : str, is_header_line line = true)
                           (splitlines query)) ∅ ∧
  ∀ key value, headers_of (splitlines query) !! key = Some value →
    startswith value (py " ") = false ∧
    ∃ line n, line ∈ splitlines query ∧ is_header_line line = true ∧
      line = key ++ py ": " ++ replicate n SP ++ value ∧
      ∀ a b, line = a ++ py ": " ++ b → (length key ≤ length a)%nat.
Proof.
  intros Hwf. split; [|split].
  - by apply unpack_headers_Ok.
  - apply unpack_lines_ignores.
  - intros key value Hkv. unfold headers_of in Hkv.
    apply elem_of_list_to_map_2, elem_of_reverse, list_elem_of_omap in Hkv
      as (line & Hin & Hline).
    unfold header_of_line in Hline.
    destruct (is_header_line line) eqn:Hh; [|done].
    apply header_pair_shape in Hline as [Hv (n & Hshape & Hfirst)].
    split; [done|]. by exists line, n.
Qed.

(** ** Comparing queries *)

Lemma loose_lines_spec (pattern_lines string_lines : list str) :
  loose_lines pattern_lines string_lines = true ↔
  ∀ line, line ∈ pattern_lines →
    startswith line (py "Cache: ") = false → line ∈ string_lines.
Proof.
  induction pattern_lines as [|l rest IH]; cbn [loose_lines].
  - split; [|done]. intros _ line Hin. by apply elem_of_nil in Hin.
  - destruct (startswith l (py "Cache: ")) eqn:Hcache.
    + rewrite IH. split.
      * intros H line [->|Hin]%elem_of_cons Hc; [congruence | by apply H].
      * intros H line Hin. apply H. by right.
    + case_bool_decide as Hl; cbn [negb].
      * rewrite IH. split.
        -- intros H line [->|Hin]%elem_of_cons Hc; [done | by apply H].
        -- intros H line Hin. apply H. by right.
      * split; [done|]. intros H. destruct Hl. apply H; [by left | done].
Qed.

(** C6: under [loose] the comparison succeeds exactly when every line of the
    expected query that does not start with [Cache: ] is, as a whole line,
    one of the lines of the actual query.  It never raises, and a match is
    kept when the actual query is changed to any text whose lines include
    its lines: further lines and another order do no harm. *)
Theorem compare_loose_spec (expected actual : str) :
  (_compare expected actual loose = Ok true ↔
   ∀ line, line ∈ splitlines expected →
     startswith line (py "Cache: ") = false → line ∈ splitlines actual) ∧
  (∃ b, _compare expected actual loose = Ok b) ∧
  (∀ actual',
     (∀ line, line ∈ splitlines actual → line ∈ splitlines actual') →
     _compare expected actual loose = Ok true →
     _compare expected actual' loose = Ok true).
Proof.
  assert (Hiff : ∀ s, _compare expected s loose = Ok true ↔
            ∀ line, line ∈ splitlines expected →
              startswith line (py "Cache: ") = false → line ∈ splitlines s).
  { intros s. cbn [_compare]. rewrite <- loose_lines_spec.
    split; [by intros [= ->] | by intros ->]. }
  split; [apply Hiff|]. split; [by eexists|].
  intros actual' Hsub Hmatch. apply Hiff. intros line Hin Hc.
  apply Hsub. by apply (proj1 (Hiff actual)).
Qed.

(** ** Evaluating filters *)

Lemma keep_rows_filter (f : FilterFunc) (rows kept : list Row) :
  keep_rows f rows = Ok kept →
  kept = filter (λ entry, holds f entry = true) rows ∧
  ∀ entry, entry ∈ rows → ∃ b, f entry = Ok b.
Proof.
  revert kept. induction rows as [|entry rest IH]; intros kept; cbn [keep_rows].
  - intros [= <-]. split; [done|]. intros entry Hin. by apply elem_of_nil in Hin.
  - destruct (f entry) as [b|e] eqn:Hf; cbn; [|done].
    destruct (keep_rows f rest) as [kept'|e] eqn:Hk; cbn; [|done].
    intros [= <-]. destruct (IH kept' eq_refl) as [-> Hall]. split.
    + destruct (decide (holds f entry = true)) as [Hd|Hd];
        unfold holds in Hd; rewrite Hf in Hd; by destruct b.
    + intros r [->|Hin]%elem_of_cons; [by exists b | by apply Hall].
Qed.

Lemma keep_rows_total (f : FilterFunc) (rows : list Row) :
  (∀ entry, entry ∈ rows → ∃ b, f entry = Ok b) →
  keep_rows f rows = Ok (filter (λ entry, holds f entry = true) rows).
Proof.
  induction rows as [|entry rest IH]; intros Hall; cbn [keep_rows]; [done|].
  destruct (Hall entry) as [b Hb]; [by left|]. rewrite Hb. cbn.
  rewrite IH by (intros r Hr; apply Hall; by right). cbn.
  destruct (decide (holds f entry = true)) as [Hd|Hd];
    unfold holds in Hd; rewrite Hb in Hd; by destruct b.
Qed.

Lemma keep_rows_raises (f : FilterFunc) (rows : list Row) (entry : Row) (e : exn) :
  entry ∈ rows → f entry = Raise e → ∃ e', keep_rows f rows = Raise e'.
Proof.
  intros Hin Hf. induction rows as [|r rest IH]; [by apply elem_of_nil in Hin|].
  cbn [keep_rows]. destruct (f r) as [b|e'] eqn:Hr; cbn; [|by eexists].
  apply elem_of_cons in Hin as [->|Hin]; [congruence|].
  destruct (IH Hin) as [e' ->]. cbn. by eexists.
Qed.

(** A query without [Filter:], [And:] and [Or:] lines leaves the stack as it
    is. *)
Lemma collect_filters_no_directive (lines : list str) (filters : list FilterFunc) :
  forallb (λ line, negb (is_filter_directive line)) lines = true →
  collect_filters lines filters = Ok filters.
Proof.
  induction lines as [|line rest IH]; cbn [forallb collect_filters]; [done|].
  intros [Hline Hrest]%andb_true_iff. unfold is_filter_directive in Hline.
  destruct (startswith line (py "Filter:")); [done|].
  destruct (startswith line (py "And:")); [done|].
  destruct (startswith line (py "Or:")); [done|]. by apply IH.
Qed.

(** C7: let the lines of the query leave [filters] on the stack.  With more
    than one predicate left [evaluate_filter] raises the [ValueError] that
    counts them; with none it returns the rows as they are; with exactly one
    it returns the rows for which the predicate holds, in their order: a
    sublist of the rows, and an error if the predicate raises on a row. *)
Theorem evaluate_filter_by_stack (query : str) (rows : list Row)
    (filters : list FilterFunc) :
  collect_filters (splitlines query) [] = Ok filters →
  ((1 < length filters)%nat →
     evaluate_filter query rows = Raise (ValueError_filters (length filters))) ∧
  (filters = [] → evaluate_filter query rows = Ok rows) ∧
  (∀ f, filters = [f] →
     (∀ kept, evaluate_filter query rows = Ok kept →
        kept = filter (λ entry, holds f entry = true) rows ∧
        kept `sublist_of` rows) ∧
     ((∀ entry, entry ∈ rows → ∃ b, f entry = Ok b) →
        evaluate_filter query rows
        = Ok (filter (λ entry, holds f entry = true) rows)) ∧
     (∀ entry e, entry ∈ rows → f entry = Raise e →
        ∃ e', evaluate_filter query rows = Raise e')).
Proof.
  intros Hstack. unfold evaluate_filter. rewrite Hstack. cbn.
  split; [|split].
  - intros Hlen. destruct filters as [|f0 [|f1 rest]]; cbn in Hlen; [lia..|].
    done.
  - by intros ->.
  - intros f ->. cbn. split; [|split].
    + intros kept Hk. apply keep_rows_filter in Hk as [-> _].
      split; [done | apply sublist_filter].
    + apply keep_rows_total.
    + apply keep_rows_raises.
Qed.

(** In particular a query without filter directives returns every row. *)
Lemma evaluate_filter_no_directive (query : str) (rows : list Row) :
  forallb (λ line, negb (is_filter_directive line)) (splitlines query) = true →
  evaluate_filter query rows = Ok rows.
Proof.
  intros H. unfold evaluate_filter.
  by rewrite (collect_filters_no_directive _ _ H).
Qed.

(** ** The queue of expected queries *)

(** C2: [_lookup_next_query] reads the queue at its head only.  Inside the
    scope, a query whose headers can be read and that compares equal to the
    head is accepted: the call returns the response of the head, the head is
    taken off the queue, and the frame of the response is stored to be
    received.  It raises on an empty queue, with the error that quotes the
    query, and when the comparison with the head fails, with the error that
    quotes both texts; whenever it raises, the connection, and with it the
    queue, is as before.  When it returns, the head matched the query and
    the queue has lost exactly that entry.  What follows the head has no
    part in the outcome. *)
Theorem lookup_next_query_fifo (query : str) (self : MockLiveStatusConnection) :
  (∀ headers expected columns rows mode rest,
     is_Some (_expect_status_query self) →
     _unpack_headers query = Ok headers →
     _expected_queries self = (expected, columns, rows, mode) :: rest →
     _compare expected query mode = Ok true →
     let response :=
       _generate_output (default (py "off") (headers !! py "ColumnHeaders"))
                        (_prepend_site self) columns rows in
     _lookup_next_query query self
     = (Ok response,
        set_last_response
          (Some (mk_StringIO (_make_livestatus_response response) 0))
          (set_expected_queries rest self))) ∧
  (∀ headers,
     is_Some (_expect_status_query self) →
     _unpack_headers query = Ok headers →
     (_expected_queries self = [] →
        _lookup_next_query query self
        = (Raise (RuntimeError_unexpected query), self)) ∧
     (∀ expected columns rows mode rest,
        _expected_queries self = (expected, columns, rows, mode) :: rest →
        _compare expected query mode = Ok false →
        _lookup_next_query query self
        = (Raise (RuntimeError_mismatch mode expected query), self))) ∧
  (∀ e self', _lookup_next_query query self = (Raise e, self') → self' = self) ∧
  (∀ response self', _lookup_next_query query self = (Ok response, self') →
     ∃ expected columns rows mode rest,
       _expected_queries self = (expected, columns, rows, mode) :: rest ∧
       _compare expected query mode = Ok true ∧
       _expected_queries self' = rest) ∧
  (_expected_queries self = [] →
     ∃ e, _lookup_next_query query self = (Raise e, self)) ∧
  (∀ expected columns rows mode rest,
     _expected_queries self = (expected, columns, rows, mode) :: rest →
     _compare expected query mode ≠ Ok true →
     ∃ e, _lookup_next_query query self = (Raise e, self)) ∧
  (∀ entry rest rest',
     _expected_queries self = entry :: rest →
     (_lookup_next_query query (set_expected_queries (entry :: rest') self)).1
       = (_lookup_next_query query self).1 ∧
     ∀ response self',
       _lookup_next_query query (set_expected_queries (entry :: rest') self)
         = (Ok response, self') →
       _expected_queries self' = rest').
Proof.
  split.
  { intros headers expected columns rows mode rest [flag Hscope] Hheaders
           Hqueue Hcompare response.
    unfold _lookup_next_query. rewrite Hscope, Hheaders, Hqueue, Hcompare.
    destruct self as [site queue multi status last tabs].
    cbn [_expected_queries] in Hqueue. subst queue. reflexivity. }
  split.
  { intros headers [flag Hscope] Hheaders. unfold _lookup_next_query.
    rewrite Hscope, Hheaders. split.
    - by intros ->.
    - intros expected columns rows mode rest -> Hcompare. by rewrite Hcompare. }
  unfold _lookup_next_query. destruct self as [site queue multi status last tabs].
  cbn [_expect_status_query _expected_queries set_expected_queries
       _prepend_site _report_multiple _last_response _tables].
  destruct status as [b|].
  2:{ repeat split; try (intros; simplify_eq; done); intros; by eexists. }
  destruct (_unpack_headers query) as [headers|e0].
  2:{ repeat split; try (intros; simplify_eq; done); intros; by eexists. }
  destruct queue as [|[[[expected columns] rows] mode] rest].
  { repeat split; try (intros; simplify_eq; done); intros; by eexists. }
  destruct (_compare expected query mode) as [[|]|e1] eqn:Hcmp.
  - split; [intros; simplify_eq|]. split.
    { intros response self' [= <- <-]. by exists expected, columns, rows, mode, rest. }
    split; [done|]. split.
    { intros ? ? ? ? ? [= <- <- <- <- <-] Hne. done. }
    intros entry rest0 rest' [= <- <-]. rewrite Hcmp. cbn.
    split; [done|]. intros response self' Heq.
    apply (f_equal snd) in Heq. cbn [snd] in Heq. by rewrite <- Heq.
  - split; [by intros ? ? [= <- <-]|]. split; [intros; simplify_eq|].
    split; [done|]. split; [intros; by eexists|].
    intros entry rest0 rest' [= <- <-]. rewrite Hcmp. split; [done|].
    intros; simplify_eq.
  - split; [by intros ? ? [= <- <-]|]. split; [intros; simplify_eq|].
    split; [done|]. split; [intros; by eexists|].
    intros entry rest0 rest' [= <- <-]. rewrite Hcmp. split; [done|].
    intros; simplify_eq.
Qed.

(** ** Operators *)

Lemma OPERATORS_ge : OPERATORS !! py ">=" = Some (cast_down (rich_compare op_le)).
Proof. unfold OPERATORS. lookup_table. Qed.

Lemma OPERATORS_le : OPERATORS !! py "<=" = Some (cast_down (rich_compare op_ge)).
Proof. unfold OPERATORS. lookup_table. Qed.

(** A token is read up to the next white space. *)
Lemma split_ws_from_token (m : option nat) (cur t rest : str) :
  forallb (λ c, negb (isspace c)) t = true →
  split_ws_from m (Some cur) (t ++ rest)
  = split_ws_from m (Some (rev t ++ cur)) rest.
Proof.
  revert cur. induction t as [|c t IH]; intros cur Ht; [done|].
  cbn [forallb] in Ht. apply andb_true_iff in Ht as [Hc Ht].
  apply negb_true_iff in Hc. cbn [app split_ws_from]. rewrite Hc.
  rewrite IH by done. cbn [rev]. by rewrite <- app_assoc.
Qed.

(** The three pieces of a filter line: the column, the operator, and what
    follows, if anything does. *)
Lemma split_filter_line (field op literal : str) :
  is_token field = true → is_token op = true →
  is_filter_value literal = true →
  split_ws (Some 2%nat)
    (drop 7 (py "Filter: " ++ field ++ [SP] ++ op ++ [SP] ++ literal))
  = field :: op :: match literal with [] => [] | _ => [literal] end.
Proof.
  intros Hfield Hop Hlit.
  change (drop 7 (py "Filter: " ++ field ++ [SP] ++ op ++ [SP] ++ literal))
    with (SP :: field ++ SP :: op ++ SP :: literal).
  unfold split_ws. cbn [split_ws_from].
  change (isspace SP) with true. cbn match.
  destruct field as [|f0 field]; [done|]. destruct op as [|o0 op]; [done|].
  cbn [is_token forallb] in Hfield, Hop.
  apply andb_true_iff in Hfield as [Hf0 Hfield].
  apply andb_true_iff in Hop as [Ho0 Hop].
  apply negb_true_iff in Hf0, Ho0.
  cbn [app split_ws_from]. rewrite Hf0.
  rewrite split_ws_from_token by done. cbn [split_ws_from].
  change (isspace SP) with true. cbn match.
  rewrite rev_app_distr, rev_involutive. cbn [rev app]. f_equal.
  cbn [fmap option_fmap option_map pred split_ws_from]. rewrite Ho0.
  rewrite split_ws_from_token by done. cbn [split_ws_from].
  change (isspace SP) with true. cbn match.
  rewrite rev_app_distr, rev_involutive. cbn [rev app]. f_equal.
  cbn [fmap option_fmap option_map pred].
  destruct literal as [|l0 literal]; [done|].
  cbn [is_filter_value] in Hlit. apply negb_true_iff in Hlit.
  cbn [split_ws_from]. by rewrite Hlit.
Qed.

(** The predicate that a well-formed filter line compiles to. *)
Lemma make_filter_func_line (field op literal : str) (operator : OperatorFunc) :
  is_token field = true → is_token op = true →
  is_filter_value literal = true →
  OPERATORS !! op = Some operator →
  ∃ f, make_filter_func (py "Filter: " ++ field ++ [SP] ++ op ++ [SP] ++ literal)
         = Ok f ∧
       ∀ entry, f entry
         = (a ← or_raise (KeyError_key field) (entry !! field); operator a literal).
Proof.
  intros Hfield Hop Hlit Hlookup. unfold make_filter_func.
  rewrite split_filter_line, Hlookup by done.
  eexists. split; [done|]. intros entry. by destruct literal.
Qed.

(** Induction on values, with the items of a list as smaller values. *)
Lemma value_nested_ind (P : value → Prop) :
  (∀ z, P (VInt z)) → (∀ x, P (VFloat x)) → (∀ s, P (VStr s)) →
  (∀ l, Forall P l → P (VList l)) → ∀ v, P v.
Proof.
  intros Hint Hfloat Hstr Hlist. fix IH 1. intros [z|x|s|l].
  - apply Hint.
  - apply Hfloat.
  - apply Hstr.
  - apply Hlist. induction l as [|v l IHl]; constructor; [apply IH | apply IHl].
Qed.

(** Against a string, [a <= b] is [not a > b] and [a >= b] is
    [not a < b], errors included. *)
Lemma rich_compare_negated_str (a : value) (s : str) :
  rich_compare op_le a (VStr s) = negb <$> rich_compare op_gt a (VStr s) ∧
  rich_compare op_ge a (VStr s) = negb <$> rich_compare op_lt a (VStr s).
Proof. by destruct a. Qed.

Lemma compare_items_negated_str (xs : list value) (ys : list str) :
  compare_items value_eqb (rich_compare op_le) (order_Z op_le) xs (VStr <$> ys)
  = negb <$> compare_items value_eqb (rich_compare op_gt) (order_Z op_gt)
               xs (VStr <$> ys) ∧
  compare_items value_eqb (rich_compare op_ge) (order_Z op_ge) xs (VStr <$> ys)
  = negb <$> compare_items value_eqb (rich_compare op_lt) (order_Z op_lt)
               xs (VStr <$> ys).
Proof.
  revert ys. induction xs as [|x xs IH]; intros ys.
  - destruct ys; cbn; by rewrite !Z.leb_antisym.
  - destruct ys as [|y ys]; [cbn; by rewrite !Z.leb_antisym|].
    cbn [fmap list_fmap compare_items].
    destruct (value_eqb x (VStr y)); [apply IH | apply rich_compare_negated_str].
Qed.

(** For a value that is no float, [a <= t(b)] is [not a > t(b)] and
    [a >= t(b)] is [not a < t(b)], errors included.  The same does not hold
    of floats: every comparison with a NaN is false. *)
Lemma rich_compare_negated (a : value) (b : str) (t_b : value) :
  (∀ x, a ≠ VFloat x) →
  cast_to_type_of a b = Ok t_b →
  rich_compare op_le a t_b = negb <$> rich_compare op_gt a t_b ∧
  rich_compare op_ge a t_b = negb <$> rich_compare op_lt a t_b.
Proof.
  intros Hfloat. destruct a as [x|x|x|xs]; cbn [cast_to_type_of].
  - destruct (int_of_str b) as [y|]; cbn; [|done]. intros [= <-].
    cbn. by rewrite !Z.leb_antisym.
  - by destruct (Hfloat x).
  - intros [= <-]. apply rich_compare_negated_str.
  - intros [= <-]. cbn [rich_compare].
    replace ((λ c : N, VStr [c]) <$> b)
      with (VStr <$> ((λ c : N, [c]) <$> b))
      by (by rewrite <- list_fmap_compose).
    apply compare_items_negated_str.
Qed.

Lemma cast_to_type_of_same_type (a : value) (b : str) (t_b : value) :
  cast_to_type_of a b = Ok t_b → same_type a t_b = true.
Proof.
  destruct a; cbn.
  - destruct (int_of_str b); cbn; [by intros [= <-] | done].
  - destruct (float_of_str b); cbn; [by intros [= <-] | done].
  - by intros [= <-].
  - by intros [= <-].
Qed.

(** Every comparison with a NaN is false. *)
Lemma is_nan_spec (x : float) : PrimFloat.is_nan x = true → Prim2SF x = S754_nan.
Proof.
  unfold PrimFloat.is_nan. rewrite FloatAxioms.eqb_spec. unfold SFeqb.
  destruct (Prim2SF x) as [s|s| |s m e]; cbn [SFcompare negb]; try done.
  - by destruct s.
  - rewrite Z.compare_refl, Pos.compare_cont_refl. by destruct s.
Qed.

Lemma order_float_nan (o : rich_op) (x y : float) :
  PrimFloat.is_nan x = true ∨ PrimFloat.is_nan y = true → order_float o x y = false.
Proof.
  assert (Hleft : ∀ s, SFcompare S754_nan s = None) by done.
  assert (Hright : ∀ s, SFcompare s S754_nan = None) by (by intros []).
  intros Hnan. unfold order_float.
  destruct o;
    rewrite ?FloatAxioms.eqb_spec, ?FloatAxioms.ltb_spec, ?FloatAxioms.leb_spec;
    unfold SFeqb, SFltb, SFleb;
    destruct Hnan as [->%is_nan_spec | ->%is_nan_spec];
    by rewrite ?Hleft, ?Hright.
Qed.

(** C4, amended: on a row whose value for the column is [a], the predicate
    compiled from [Filter: <col> >= <b>] is [a <= t(b)], where [t(b)] is the
    text [b] converted to the type of [a], and the predicate of
    [Filter: <col> <= <b>] is [a >= t(b)].  For a value that is no float the
    first is true exactly when [a > t(b)] is false, and the second exactly
    when [a < t(b)] is false.  For a float the predicates are the
    comparisons of IEEE 754: when a NaN takes part they are false, and so
    are [a > t(b)] and [a < t(b)].  The
    converted value has the type of [a], and [a] itself is compared as it
    is. *)
Theorem filter_ge_le_reversed (field literal : str) (entry : Row) (a : value) :
  is_token field = true →
  is_filter_value literal = true →
  entry !! field = Some a →
  (∃ f, make_filter_func (py "Filter: " ++ field ++ py " >= " ++ literal) = Ok f ∧
        f entry = (t_b ← cast_to_type_of a literal; rich_compare op_le a t_b) ∧
        ((∀ x, a ≠ VFloat x) →
         (f entry = Ok true ↔
          ∃ t_b, cast_to_type_of a literal = Ok t_b ∧
                 rich_compare op_gt a t_b = Ok false)) ∧
        (∀ x y, a = VFloat x → float_of_str literal = Some y →
           f entry = Ok (PrimFloat.leb x y) ∧
           (PrimFloat.is_nan x = true ∨ PrimFloat.is_nan y = true →
            f entry = Ok false ∧
            rich_compare op_gt a (VFloat y) = Ok false))) ∧
  (∃ f, make_filter_func (py "Filter: " ++ field ++ py " <= " ++ literal) = Ok f ∧
        f entry = (t_b ← cast_to_type_of a literal; rich_compare op_ge a t_b) ∧
        ((∀ x, a ≠ VFloat x) →
         (f entry = Ok true ↔
          ∃ t_b, cast_to_type_of a literal = Ok t_b ∧
                 rich_compare op_lt a t_b = Ok false)) ∧
        (∀ x y, a = VFloat x → float_of_str literal = Some y →
           f entry = Ok (PrimFloat.leb y x) ∧
           (PrimFloat.is_nan x = true ∨ PrimFloat.is_nan y = true →
            f entry = Ok false ∧
            rich_compare op_lt a (VFloat y) = Ok false))) ∧
  (∀ t_b, cast_to_type_of a literal = Ok t_b → same_type a t_b = true) ∧
  (∀ x y : Z, rich_compare op_le (VInt x) (VInt y) = Ok (x <=? y)%Z ∧
              rich_compare op_ge (VInt x) (VInt y) = Ok (y <=? x)%Z) ∧
  (∀ x y : str, rich_compare op_le (VStr x) (VStr y) = Ok (negb (str_ltb y x)) ∧
                rich_compare op_ge (VStr x) (VStr y) = Ok (negb (str_ltb x y))).
Proof.
  intros Hfield Hlit Hentry.
  assert (Hneg : ∀ o o' : rich_op,
            (∀ v, cast_to_type_of a literal = Ok v →
                  rich_compare o a v = negb <$> rich_compare o' a v) →
            ∀ r, r = (t_b ← cast_to_type_of a literal; rich_compare o a t_b) →
            r = Ok true ↔
            ∃ t_b, cast_to_type_of a literal = Ok t_b ∧
                   rich_compare o' a t_b = Ok false).
  { intros o o' Hoo' r ->. destruct (cast_to_type_of a literal) as [v|e]; cbn.
    - rewrite (Hoo' v eq_refl). split.
      + intros Hr. exists v. split; [done|].
        destruct (rich_compare o' a v) as [[|]|]; by cbn in Hr.
      + intros (t_b & [= <-] & ->). done.
    - split; [done | by intros (t_b & ? & _)]. }
  assert (Hfloat : ∀ o x y, a = VFloat x → float_of_str literal = Some y →
            (t_b ← cast_to_type_of a literal; rich_compare o a t_b)
            = rich_compare o (VFloat x) (VFloat y)).
  { intros o x y -> Hy. cbn [cast_to_type_of]. by rewrite Hy. }
  split; [|split; [|split; [|split]]].
  - destruct (make_filter_func_line field (py ">=") literal _
                Hfield eq_refl Hlit OPERATORS_ge) as (f & Hf & Hentryf).
    exists f. split; [exact Hf|].
    assert (Hfe : f entry
              = (t_b ← cast_to_type_of a literal; rich_compare op_le a t_b))
      by (by rewrite Hentryf, Hentry).
    split; [done|]. split.
    + intros Hno. apply (Hneg op_le op_gt); [|done].
      intros v Hv. by apply (rich_compare_negated a literal v).
    + intros x y Ha Hy. rewrite Hfe, (Hfloat op_le x y Ha Hy).
      split; [done|]. intros Hnan. subst a. cbn [rich_compare].
      split; f_equal.
      * by apply (order_float_nan op_le).
      * by apply (order_float_nan op_gt).
  - destruct (make_filter_func_line field (py "<=") literal _
                Hfield eq_refl Hlit OPERATORS_le) as (f & Hf & Hentryf).
    exists f. split; [exact Hf|].
    assert (Hfe : f entry
              = (t_b ← cast_to_type_of a literal; rich_compare op_ge a t_b))
      by (by rewrite Hentryf, Hentry).
    split; [done|]. split.
    + intros Hno. apply (Hneg op_ge op_lt); [|done].
      intros v Hv. by apply (rich_compare_negated a literal v).
    + intros x y Ha Hy. rewrite Hfe, (Hfloat op_ge x y Ha Hy).
      split; [done|]. intros Hnan. subst a. cbn [rich_compare].
      split; f_equal.
      * by apply (order_float_nan op_ge).
      * by apply (order_float_nan op_lt).
  - apply cast_to_type_of_same_type.
  - done.
  - done.
Qed.

(** ** The frame of a response *)

Lemma encode_char_length (c : N) (b : list byte) :
  encode_char c = Some b →
  (1 ≤ length b)%nat ∧ (length b = 1%nat ↔ (c <? 128) = true).
Proof.
  unfold encode_char. destruct (c <? 128).
  { intros [= <-]. cbn. split; [lia | done]. }
  destruct (c <? 2048).
  { intros [= <-]. cbn. split; [lia | split; [lia | done]]. }
  destruct (c <? 65536).
  { destruct ((55296 <=? c) && (c <=? 57343)); [done|].
    intros [= <-]. cbn. split; [lia | split; [lia | done]]. }
  destruct (c <? 1114112); [|done].
  intros [= <-]. cbn. split; [lia | split; [lia | done]].
Qed.

(** The encoded text has at least as many bytes as the text has characters,
    and as many exactly when the text is ASCII. *)
Lemma encode_utf8_length (s : str) (bytes : list byte) :
  encode_utf8 s = Some bytes →
  (length s ≤ length bytes)%nat ∧
  (length bytes = length s ↔ is_ascii s = true).
Proof.
  revert bytes. induction s as [|c s IH]; intros bytes; cbn [encode_utf8].
  - intros [= <-]. cbn. split; [lia | done].
  - destruct (encode_char c) as [b|] eqn:Hc; [|done].
    destruct (encode_utf8 s) as [bs|] eqn:Hs; [|done].
    intros [= <-]. destruct (IH bs eq_refl) as [Hle Hiff].
    destruct (encode_char_length _ _ Hc) as [Hb Hb1].
    rewrite length_app. cbn [length is_ascii forallb].
    fold (is_ascii s). rewrite andb_true_iff, <- Hb1, <- Hiff.
    split; lia.
Qed.

(** C5, amended: the frame of a response is [200], a blank, the number of
    characters of the body in decimal, padded with blanks on the left to
    eleven characters, a line feed, and the body, which is the [repr] of the
    list of lists.  The number counts code points: encoded as UTF-8 the body
    has at least that many bytes, and exactly that many when and only when
    it is ASCII. *)
Theorem make_livestatus_response_frame (response : Response) :
  let body := repr (response_value response) in
  let digits := str_of_N (N.of_nat (length body)) in
  _make_livestatus_response response
    = py "200" ++ py " " ++ replicate (11 - length digits) SP ++ digits
        ++ [NL] ++ body ∧
  ∀ bytes, encode_utf8 body = Some bytes →
    (length body ≤ length bytes)%nat ∧
    (length bytes = length body ↔ is_ascii body = true).
Proof.
  intros body digits. split.
  - unfold _make_livestatus_response, rjust. fold body. fold digits.
    by rewrite <- (app_assoc _ digits).
  - intros bytes. apply encode_utf8_length.
Qed.

(** ** The order of strings and [sorted] *)

Lemma str_ltb_irrefl (a : str) : str_ltb a a = false.
Proof.
  induction a as [|x a IH]; [done|]. cbn.
  by rewrite N.ltb_irrefl, N.eqb_refl, IH.
Qed.

Lemma str_ltb_trichotomy (a b : str) :
  str_ltb a b = true ∨ a = b ∨ str_ltb b a = true.
Proof.
  revert b. induction a as [|x a IH]; intros [|y b]; cbn; auto.
  destruct (N.compare_spec x y) as [->|Hlt|Hgt].
  - rewrite N.ltb_irrefl, N.eqb_refl. cbn.
    destruct (IH b) as [?|[->|?]]; auto.
  - left. apply N.ltb_lt in Hlt. by rewrite Hlt.
  - right; right. apply N.ltb_lt in Hgt. by rewrite Hgt.
Qed.

Lemma str_ltb_trans (a b c : str) :
  str_ltb a b = true → str_ltb b c = true → str_ltb a c = true.
Proof.
  revert b c. induction a as [|x a IH]; intros [|y b] [|z c]; cbn; try done.
  rewrite !orb_true_iff, !andb_true_iff, !N.ltb_lt, !N.eqb_eq.
  intros [Hxy|[-> Hab]] [Hyz|[-> Hbc]].
  - left. lia.
  - by left.
  - by left.
  - right. split; [done|]. by eapply IH.
Qed.

Lemma str_ltb_asym (a b : str) : str_ltb a b = true → str_ltb b a = false.
Proof.
  intros Hab. destruct (str_ltb b a) eqn:Hba; [|done].
  pose proof (str_ltb_trans _ _ _ Hab Hba) as H.
  by rewrite str_ltb_irrefl in H.
Qed.

Lemma str_le_refl : Reflexive str_le.
Proof. intros a. unfold str_le, str_leb. by rewrite str_ltb_irrefl. Qed.

Lemma str_le_trans : Transitive str_le.
Proof.
  intros a b c. unfold str_le, str_leb. rewrite !negb_true_iff.
  intros Hba Hcb. destruct (str_ltb c a) eqn:Hca; [|done].
  destruct (str_ltb_trichotomy a b) as [Hab|[->|Hab]]; [|congruence..].
  pose proof (str_ltb_trans _ _ _ Hca Hab). congruence.
Qed.

Lemma str_le_antisym : AntiSymm (=) str_le.
Proof.
  intros a b. unfold str_le, str_leb. rewrite !negb_true_iff. intros Hba Hab.
  destruct (str_ltb_trichotomy a b) as [?|[->|?]]; congruence.
Qed.

Lemma str_le_total : Total str_le.
Proof.
  intros a b. unfold str_le, str_leb. rewrite !negb_true_iff.
  destruct (str_ltb a b) eqn:Hab; [|by right].
  left. by apply str_ltb_asym.
Qed.

Lemma insert_sorted_perm (x : str) (l : list str) : insert_sorted x l ≡ₚ x :: l.
Proof.
  induction l as [|y l IH]; cbn; [done|].
  destruct (str_leb x y); [done|]. by rewrite IH, Permutation_swap.
Qed.

Lemma insert_sorted_Sorted (x : str) (l : list str) :
  Sorted str_le l → Sorted str_le (insert_sorted x l).
Proof.
  induction 1 as [|y l Hl IH Hy]; cbn; [by repeat constructor|].
  destruct (str_leb x y) eqn:Hxy.
  - constructor; [by constructor | by constructor].
  - constructor; [done|].
    assert (Hyx : str_le y x) by (destruct (str_le_total x y); [congruence | done]).
    destruct l as [|z l]; cbn in *; [by constructor|].
    destruct (str_leb x z); constructor; [done | by inversion Hy].
Qed.

(** [sorted] sorts: its result is in order and has the same items. *)
Lemma sorted_spec (l : list str) : Sorted str_le (sorted l) ∧ sorted l ≡ₚ l.
Proof.
  induction l as [|x l [IH1 IH2]]; cbn; [split; [constructor | done]|].
  split; [by apply insert_sorted_Sorted|]. by rewrite insert_sorted_perm, IH2.
Qed.

Lemma sorted_perm_eq (l k : list str) : l ≡ₚ k → sorted l = sorted k.
Proof.
  intros Hlk. destruct (sorted_spec l) as [Hl1 Hl2], (sorted_spec k) as [Hk1 Hk2].
  apply (@Sorted_unique _ str_le str_le_trans str_le_antisym); [done..|].
  by rewrite Hl2, Hk2.
Qed.

(** ** Declaring an expected query *)

Lemma columns_from_rows_last (columns : list str) (rows : list Row) :
  columns_from_rows columns rows
  = match last rows with
    | Some entry => sorted (map_to_list entry).*1
    | None => columns
    end.
Proof.
  unfold columns_from_rows. revert columns.
  induction rows as [|entry rows IH]; intros columns; [done|].
  cbn [foldl]. rewrite IH, last_cons. by destruct (last rows).
Qed.

Lemma keys_union_columns (rows : list Row) (entry : Row) :
  last rows = Some entry →
  (∀ other, other ∈ rows → dom other ⊆ dom entry) →
  sorted (map_to_list entry).*1 = union_columns rows.
Proof.
  intros Hlast Hsub. apply sorted_perm_eq, NoDup_Permutation.
  - apply NoDup_fst_map_to_list.
  - apply NoDup_elements.
  - intros key. rewrite elem_of_elements, elem_of_union_list. split.
    + intros Hkey. exists (dom entry). split.
      * apply list_elem_of_fmap. exists entry. split; [done|].
        apply last_Some in Hlast as [rows' ->]. apply elem_of_app. right. by left.
      * apply elem_of_dom. apply list_elem_of_fmap in Hkey as [[k v] [Hk Hkv]].
        cbn in Hk. subst k. apply elem_of_map_to_list in Hkv. by exists v.
    + intros (X & [other [-> Hother]]%list_elem_of_fmap & Hkey).
      apply Hsub in Hkey; [|done]. apply elem_of_dom in Hkey as [v Hv].
      apply list_elem_of_fmap. exists (key, v). split; [done|].
      by apply elem_of_map_to_list.
Qed.

Lemma expect_query_Ok (query : query_arg) (match_type : MatchType)
    (force_pos : option Z) (self self' : MockLiveStatusConnection) :
  expect_query query match_type force_pos self = (Ok (), self') →
  ∃ entry,
    resolve_query (_tables self) (normalize_query query) match_type = Ok entry ∧
    self' = set_expected_queries
              (enqueue force_pos entry (_expected_queries self)) self.
Proof.
  unfold expect_query.
  destruct (resolve_query _ _ _) as [entry|e]; [|done].
  intros [= <-]. by exists entry.
Qed.

(** C3, amended: when a declaration succeeds for a query that names a table
    and gives no columns, the columns of the entry put on the queue are the
    column names of the last row stored for the table, sorted; there are
    none when the table has no rows or is not stored.  These are the sorted
    union of the column names of all rows whenever no row has a column that
    the last row lacks. *)
Theorem expect_query_fallback_columns (query : query_arg)
    (match_type : MatchType) (force_pos : option Z)
    (self self' : MockLiveStatusConnection) (t : str) :
  _table_of_query (normalize_query query) = Ok (Some t) →
  default [] (_column_of_query (normalize_query query)) = [] →
  expect_query query match_type force_pos self = (Ok (), self') →
  let rows := default [] (_tables self !! t) in
  let columns := match last rows with
                 | Some entry => sorted (map_to_list entry).*1
                 | None => []
                 end in
  (∃ response,
     _expected_queries self'
     = enqueue force_pos (normalize_query query, columns, response, match_type)
               (_expected_queries self)) ∧
  Sorted str_le columns ∧
  ((∀ entry other, last rows = Some entry → other ∈ rows →
      dom other ⊆ dom entry) →
   columns = union_columns rows).
Proof.
  intros Htable Hnone Hexpect rows columns.
  apply expect_query_Ok in Hexpect as (entry & Hentry & ->).
  unfold resolve_query in Hentry. rewrite Htable in Hentry.
  cbn [mbind result_bind] in Hentry.
  assert (Hcols : resolve_columns (_tables self) (Some t) (normalize_query query)
                  = columns).
  { unfold resolve_columns. rewrite Hnone. by rewrite columns_from_rows_last. }
  rewrite Hcols in Hentry.
  destruct (resolve_rows _ _ _ _) as [response|e]; [|done].
  cbn in Hentry. injection Hentry as <-.
  split; [by exists response|]. split.
  - subst columns. destruct (last rows); [apply sorted_spec | constructor].
  - intros Hsub. subst columns. destruct (last rows) as [entry|] eqn:Hlast.
    + apply keys_union_columns; [done|]. intros other. by apply Hsub.
    + apply last_None in Hlast. by rewrite Hlast.
Qed.

Lemma row_of_entry_missing (table : str) (columns : list str) (entry : Row)
    (col : str) :
  col ∈ columns → entry !! col = None →
  ∃ col', col' ∈ columns ∧
          row_of_entry table columns entry = Raise (KeyError_column table col').
Proof.
  intros Hin Hcol. unfold row_of_entry.
  induction columns as [|c columns IH]; [by apply elem_of_nil in Hin|].
  cbn [map_result]. destruct (entry !! c) as [v|] eqn:Hc; cbn.
  - apply elem_of_cons in Hin as [->|Hin]; [congruence|].
    destruct (IH Hin) as (col' & Hin' & ->). cbn.
    exists col'. split; [by right | done].
  - exists c. split; [by left | done].
Qed.

Lemma row_of_entry_raises (table : str) (columns : list str) (entry : Row)
    (e : exn) :
  row_of_entry table columns entry = Raise e →
  ∃ col, col ∈ columns ∧ entry !! col = None ∧ e = KeyError_column table col.
Proof.
  unfold row_of_entry. induction columns as [|c columns IH]; [done|].
  cbn [map_result]. destruct (entry !! c) as [v|] eqn:Hc; cbn.
  - destruct (map_result _ columns) as [vs|e'] eqn:Hrest; cbn; [done|].
    intros [= <-]. destruct (IH eq_refl) as (col & Hin & Hcol & ->).
    exists col. split; [by right | done].
  - intros [= <-]. exists c. split; [by left | done].
Qed.

Lemma map_rows_missing (table : str) (columns : list str) (rows : list Row)
    (entry : Row) (col : str) :
  entry ∈ rows → col ∈ columns → entry !! col = None →
  ∃ col', col' ∈ columns ∧
          map_result (row_of_entry table columns) rows
          = Raise (KeyError_column table col').
Proof.
  intros Hentry Hcol Hnone.
  induction rows as [|r rows IH]; [by apply elem_of_nil in Hentry|].
  cbn [map_result].
  destruct (row_of_entry table columns r) as [vs|e] eqn:Hr; cbn.
  - apply elem_of_cons in Hentry as [->|Hentry].
    + destruct (row_of_entry_missing table columns r col Hcol Hnone)
        as (col' & _ & Hraise). congruence.
    + destruct (IH Hentry) as (col' & Hin' & ->). by exists col'.
  - apply row_of_entry_raises in Hr as (col' & Hin' & _ & ->). by exists col'.
Qed.

(** C8, amended: for a declaration whose query names the table [t].  If [t]
    is not stored and the query gives no columns, the declaration succeeds
    and its entry has no columns and no rows.  If [t] is not stored and the
    query gives columns, it raises the [KeyError] of the table.  If [t] is
    stored and one of the rows that the filters of the query select lacks
    one of the columns, it raises the [KeyError] of a column; without
    filter directives every stored row is selected.  When it raises, the
    connection is as before, so nothing is put on the queue. *)
Theorem expect_query_resolution (query : query_arg) (match_type : MatchType)
    (force_pos : option Z) (self : MockLiveStatusConnection) (t : str) :
  _table_of_query (normalize_query query) = Ok (Some t) →
  let q := normalize_query query in
  let columns := resolve_columns (_tables self) (Some t) q in
  (_tables self !! t = None → default [] (_column_of_query q) = [] →
   expect_query query match_type force_pos self
   = (Ok (),
      set_expected_queries
        (enqueue force_pos (q, [], [], match_type) (_expected_queries self))
        self)) ∧
  (_tables self !! t = None → columns ≠ [] →
   expect_query query match_type force_pos self = (Raise (KeyError_table t), self)) ∧
  (∀ stored selected entry col,
     _tables self !! t = Some stored →
     evaluate_filter q stored = Ok selected →
     entry ∈ selected → col ∈ columns → entry !! col = None →
     ∃ col', col' ∈ columns ∧
       expect_query query match_type force_pos self
       = (Raise (KeyError_column t col'), self)) ∧
  (∀ stored entry col,
     _tables self !! t = Some stored →
     forallb (λ line, negb (is_filter_directive line)) (splitlines q) = true →
     entry ∈ stored → col ∈ columns → entry !! col = None →
     ∃ col', col' ∈ columns ∧
       expect_query query match_type force_pos self
       = (Raise (KeyError_column t col'), self)).
Proof.
  intros Htable q columns.
  change (_table_of_query q = Ok (Some t)) in Htable.
  assert (Hselected : ∀ stored selected entry col,
     _tables self !! t = Some stored →
     evaluate_filter q stored = Ok selected →
     entry ∈ selected → col ∈ columns → entry !! col = None →
     ∃ col', col' ∈ columns ∧
       expect_query query match_type force_pos self
       = (Raise (KeyError_column t col'), self)).
  { intros stored selected entry col Hstored Hfilter Hentry Hcol Hnone.
    destruct (map_rows_missing t columns selected entry col Hentry Hcol Hnone)
      as (col' & Hin' & Hraise).
    exists col'. split; [done|].
    unfold expect_query, resolve_query. fold q. rewrite Htable.
    cbn [mbind result_bind]. fold columns. unfold resolve_rows.
    destruct columns as [|c cs]; [by apply elem_of_nil in Hcol|].
    rewrite Hstored. cbn [or_raise mbind result_bind].
    rewrite Hfilter. cbn [mbind result_bind]. by rewrite Hraise. }
  split; [|split; [|split]].
  - intros Hstored Hnone.
    unfold expect_query, resolve_query. fold q. rewrite Htable.
    cbn [mbind result_bind]. unfold resolve_columns. rewrite Hnone, Hstored.
    by cbn.
  - intros Hstored Hcols.
    unfold expect_query, resolve_query. fold q. rewrite Htable.
    cbn [mbind result_bind]. fold columns. unfold resolve_rows.
    destruct columns as [|c cs]; [done|]. by rewrite Hstored.
  - exact Hselected.
  - intros stored entry col Hstored Hplain Hentry.
    apply (Hselected stored stored); [done| |done].
    by apply evaluate_filter_no_directive.
Qed.

(** ** Sending the declared queries *)

(** Under [strict] and under [loose] a text matches itself. *)
Lemma compare_self (query : str) (match_type : MatchType) :
  (match_type = ellipsis →
   re_match (ellipsis_pattern query) query = Some true) →
  _compare query query match_type = Ok true.
Proof.
  destruct match_type; cbn [_compare]; intros Hre.
  - unfold str_eqb. by rewrite bool_decide_true.
  - by rewrite Hre.
  - f_equal. by apply loose_lines_spec.
Qed.

Lemma is_scalar_ascii (c : N) : (c <? 128) = true → is_scalar c = true.
Proof.
  intros Hc%N.ltb_lt. unfold is_scalar.
  apply orb_true_iff. left. apply N.ltb_lt. lia.
Qed.

Lemma encode_char_scalar (c : N) :
  is_scalar c = true → ∃ b, encode_char c = Some b.
Proof.
  unfold is_scalar, encode_char. intros Hc.
  destruct (c <? 128); [by eexists|]. destruct (c <? 2048); [by eexists|].
  destruct (c <? 65536) eqn:H16.
  - destruct ((55296 <=? c) && (c <=? 57343)) eqn:Hsur; [|by eexists].
    apply andb_true_iff in Hsur as [H1%N.leb_le H2%N.leb_le].
    apply N.ltb_lt in H16. apply orb_true_iff in Hc as [Hc|Hc].
    + apply N.ltb_lt in Hc. lia.
    + apply andb_true_iff in Hc as [Hc%N.ltb_lt _]. lia.
  - apply orb_true_iff in Hc as [Hc|Hc].
    + apply N.ltb_lt in Hc. apply N.ltb_ge in H16. lia.
    + apply andb_true_iff in Hc as [_ ->]. by eexists.
Qed.

Lemma encode_utf8_scalar (s : str) :
  Forall (λ c, is_scalar c = true) s → ∃ bytes, encode_utf8 s = Some bytes.
Proof.
  induction 1 as [|c s Hc _ [bs IH]]; cbn [encode_utf8]; [by eexists|].
  destruct (encode_char_scalar c Hc) as [b ->]. rewrite IH. by eexists.
Qed.

Lemma ascii_scalar (s : str) :
  is_ascii s = true → Forall (λ c, is_scalar c = true) s.
Proof.
  unfold is_ascii. induction s as [|c s IH]; cbn [forallb]; [constructor|].
  intros [Hc Hs]%andb_true_iff. constructor; [by apply is_scalar_ascii | auto].
Qed.

Lemma is_ascii_app (s t : str) :
  is_ascii (s ++ t) = is_ascii s && is_ascii t.
Proof. apply forallb_app. Qed.

Lemma uint_digits_ascii (d : Decimal.uint) : is_ascii (uint_digits d) = true.
Proof. induction d; cbn; done. Qed.

Lemma str_of_Z_ascii (z : Z) : is_ascii (str_of_Z z) = true.
Proof.
  destruct z as [|p|p]; [done | apply uint_digits_ascii |].
  change (is_ascii (uint_digits (N.to_uint (Npos p))) = true).
  apply uint_digits_ascii.
Qed.

Lemma hex_fixed_ascii (width : nat) (n : N) : is_ascii (hex_fixed width n) = true.
Proof.
  revert n. induction width as [|w IH]; intros n; cbn [hex_fixed]; [done|].
  rewrite is_ascii_app, IH. cbn. rewrite andb_true_r. apply N.ltb_lt.
  unfold hex_digit. pose proof (N.mod_lt n 16). destruct (n mod 16 <? 10); lia.
Qed.

(** What [repr] writes can be encoded, whatever the text holds, as long as
    the table of printable characters names no surrogate and nothing past
    U+10FFFF. *)
Lemma repr_char_scalar (quote c : N) :
  (∀ c, unicode_printable c = true → is_scalar c = true) →
  is_scalar quote = true →
  Forall (λ c, is_scalar c = true) (repr_char quote c).
Proof.
  intros Htable Hquote. unfold repr_char.
  destruct ((c =? quote) || (c =? 92)) eqn:H1.
  { apply orb_true_iff in H1 as [->%N.eqb_eq | ->%N.eqb_eq]; by repeat constructor. }
  destruct (c =? 9); [by apply ascii_scalar|].
  destruct (c =? 10); [by apply ascii_scalar|].
  destruct (c =? 13); [by apply ascii_scalar|].
  destruct ((c <? 32) || (c =? 127)).
  { apply ascii_scalar. by rewrite is_ascii_app, hex_fixed_ascii. }
  destruct (c <? 127) eqn:H127.
  { apply ascii_scalar. cbn. rewrite andb_true_r. apply N.ltb_lt.
    apply N.ltb_lt in H127. lia. }
  destruct (isprintable c) eqn:Hprint.
  { repeat constructor. unfold isprintable in Hprint.
    destruct (c <? 128) eqn:H128; [by apply is_scalar_ascii|].
    destruct (c <? 256) eqn:H256; [|by apply Htable].
    unfold is_scalar. apply orb_true_iff. left.
    apply N.ltb_lt. apply N.ltb_lt in H256. lia. }
  destruct (c <? 256).
  { apply ascii_scalar. by rewrite is_ascii_app, hex_fixed_ascii. }
  destruct (c <? 65536);
    apply ascii_scalar; by rewrite is_ascii_app, hex_fixed_ascii.
Qed.

Lemma repr_str_scalar (s : str) :
  (∀ c, unicode_printable c = true → is_scalar c = true) →
  Forall (λ c, is_scalar c = true) (repr_str s).
Proof.
  intros Htable. unfold repr_str.
  set (quote := if char_in 39 s && negb (char_in 34 s) then 34 else 39).
  assert (Hquote : is_scalar quote = true)
    by (subst quote; by destruct (char_in 39 s && negb (char_in 34 s))).
  clearbody quote. constructor; [done|]. apply Forall_app. split; [|by repeat constructor].
  induction s as [|c s IH]; [constructor|].
  cbn. apply Forall_app. split; [by apply repr_char_scalar | apply IH].
Qed.

Lemma str_join_scalar (sep : str) (parts : list str) :
  Forall (λ c, is_scalar c = true) sep →
  Forall (Forall (λ c, is_scalar c = true)) parts →
  Forall (λ c, is_scalar c = true) (str_join sep parts).
Proof.
  intros Hsep. induction 1 as [|p parts Hp Hparts IH]; [constructor|].
  cbn [str_join]. destruct parts as [|p' parts]; [done|].
  apply Forall_app. split; [done|]. apply Forall_app. by split.
Qed.

(** A text written as a literal has code points below 256. *)
Lemma py_scalar (s : string) : Forall (λ c, is_scalar c = true) (py s).
Proof.
  unfold py. induction s as [|a s IH]; cbn; constructor; [|exact IH].
  unfold is_scalar. pose proof (N_ascii_bounded a).
  apply orb_true_iff. left. apply N.ltb_lt. lia.
Qed.

Lemma repr_scalar (v : value) :
  (∀ c, unicode_printable c = true → is_scalar c = true) →
  Forall (λ c, is_scalar c = true) (repr v).
Proof.
  intros Htable. induction v as [z|x|s|l IH] using value_nested_ind; cbn [repr].
  - apply ascii_scalar, str_of_Z_ascii.
  - apply py_scalar.
  - by apply repr_str_scalar.
  - apply Forall_app. split; [by apply ascii_scalar|].
    apply Forall_app. split; [|by apply ascii_scalar].
    apply str_join_scalar; [by apply ascii_scalar|].
    induction IH; constructor; done.
Qed.

Lemma frame_scalar (response : Response) :
  (∀ c, unicode_printable c = true → is_scalar c = true) →
  Forall (λ c, is_scalar c = true) (_make_livestatus_response response).
Proof.
  intros Htable. unfold _make_livestatus_response, rjust.
  apply Forall_app. split; [by apply ascii_scalar|].
  apply Forall_app. split; [by apply ascii_scalar|].
  apply Forall_app. split.
  { apply Forall_app. split; [by apply Forall_replicate|].
    apply ascii_scalar, uint_digits_ascii. }
  apply Forall_app. split; [by apply ascii_scalar|]. by apply repr_scalar.
Qed.

Lemma send_receive_step (self : MockLiveStatusConnection) (data : list byte)
    (size : Z) (entry : Expectation) (rest : list Expectation) :
  (∀ c, unicode_printable c = true → is_scalar c = true) →
  is_Some (_expect_status_query self) →
  _expected_queries self = entry :: rest →
  sends_entry (_prepend_site self) (data, size) entry →
  ∃ bytes self1 self2,
    socket_send data self = (Ok (), self1) ∧
    socket_recv size self1 = (Ok bytes, self2) ∧
    encode_utf8 (frame_of_entry (_prepend_site self) entry) = Some bytes ∧
    _expected_queries self2 = rest ∧
    _expect_status_query self2 = _expect_status_query self ∧
    _prepend_site self2 = _prepend_site self.
Proof.
  intros Htable [b Hstatus] Hqueue Hsends.
  destruct entry as [[[query columns] response] match_type].
  destruct Hsends as (Hdata & Hwf & Hself & Hsize). cbn [fst snd] in Hdata, Hsize.
  set (frame := frame_of_entry (_prepend_site self)
                  (query, columns, response, match_type)) in *.
  destruct (encode_utf8_scalar frame) as [bytes Hbytes];
    [by apply frame_scalar|].
  destruct self as [site queue multi status last tabs].
  cbn [_expect_status_query _expected_queries _prepend_site] in *. subst.
  eexists bytes, _, _. split; [|split; [|split; [|split; [|split]]]].
  - unfold socket_send. rewrite Hdata. unfold _lookup_next_query.
    cbn [_expect_status_query _expected_queries _prepend_site].
    rewrite (unpack_headers_Ok query Hwf).
    rewrite (compare_self query match_type Hself). reflexivity.
  - unfold socket_recv.
    cbn [_last_response set_last_response set_expected_queries
         _prepend_site _expected_queries StringIO_read io_pos io_text drop].
    rewrite drop_0.
    change (_make_livestatus_response (_generate_output _ _ _ _)) with frame.
    destruct (Z.ltb_spec size 0) as [Hneg|_]; [lia|].
    rewrite take_ge by lia. rewrite Hbytes. reflexivity.
  - done.
  - reflexivity.
  - reflexivity.
  - reflexivity.
Qed.

(** Sending, in the order of the queue, the texts of its first entries. *)
Lemma exchange_in_queue_order (self : MockLiveStatusConnection)
    (sends : list (list byte * Z)) (entries remaining : list Expectation) :
  (∀ c, unicode_printable c = true → is_scalar c = true) →
  is_Some (_expect_status_query self) →
  _expected_queries self = entries ++ remaining →
  Forall2 (sends_entry (_prepend_site self)) sends entries →
  (∃ received self',
     exchange sends self = (Ok received, self') ∧
     Forall2 (λ bytes entry,
                encode_utf8 (frame_of_entry (_prepend_site self) entry)
                = Some bytes)
             received entries ∧
     _expected_queries self' = remaining).
Proof.
  intros Htable Hstatus Hqueue Hsends.
  revert self entries Hstatus Hqueue Hsends.
  induction sends as [|[data size] sends IH];
    intros self entries Hstatus Hqueue Hsends.
  - apply Forall2_nil_inv_l in Hsends as ->.
    exists [], self. by repeat split.
  - apply Forall2_cons_inv_l in Hsends as (entry & entries' & Hentry & Hrest & ->).
    destruct (send_receive_step self data size entry (entries' ++ remaining)
                Htable Hstatus Hqueue Hentry)
      as (bytes & self1 & self2 & Hsend & Hrecv & Hbytes & Hq2 & Hs2 & Hp2).
    destruct (IH self2 entries') as (received & self' & Hex & Hall & Hq');
      [by rewrite Hs2 | done | by rewrite Hp2 |].
    exists (bytes :: received), self'. split; [|split; [|done]].
    + cbn [exchange]. by rewrite Hsend, Hrecv, Hex.
    + constructor; [done|]. by rewrite <- Hp2.
Qed.

Lemma resolve_query_entry (tables : gmap str (list Row)) (query : str)
    (match_type : MatchType) (entry : Expectation) :
  resolve_query tables query match_type = Ok entry →
  entry.1.1.1 = query ∧ entry.2 = match_type.
Proof.
  unfold resolve_query. destruct (_table_of_query query) as [table|]; [|done].
  cbn [mbind result_bind]. destruct (resolve_rows _ _ _ _); [|done].
  by intros [= <-].
Qed.

(** What a run of declarations leaves on the queue. *)
Lemma declare_all_queue (decls : list (query_arg * MatchType))
    (self self' : MockLiveStatusConnection) :
  declare_all decls self = (Ok (), self') →
  ∃ entries,
    _expected_queries self' = _expected_queries self ++ entries ∧
    Forall2 (declared_as (_tables self)) decls entries ∧
    _tables self' = _tables self ∧
    _prepend_site self' = _prepend_site self ∧
    _expect_status_query self' = _expect_status_query self.
Proof.
  revert self. induction decls as [|[query match_type] decls IH]; intros self.
  - intros [= <-]. exists []. by rewrite app_nil_r.
  - cbn [declare_all].
    destruct (expect_query query match_type None self) as [[[]|e] self1] eqn:Hexp;
      [|done].
    intros Hrest. apply expect_query_Ok in Hexp as (entry & Hentry & ->).
    destruct (IH _ Hrest) as (entries & Hq & Hall & Ht & Hp & Hs).
    destruct self as [site queue multi status last tabs]. cbn in *.
    exists (entry :: entries). rewrite Hq, <- app_assoc.
    split; [done|]. split; [|done].
    constructor; [|done]. split; [done|]. by eapply resolve_query_entry.
Qed.

(** C1, amended: let the queries [decls] be declared on a connection with
    an empty queue, and the scope be entered without a status query.  Let
    the queries sent carry, in the declared order, exactly the texts kept on
    the queue (the declared texts without their final line feeds), each text
    having only well-formed header lines and, if it is compared as
    [ellipsis], being matched by the regular expression made from it.  Then
    no send raises, each receive that asks for the whole frame returns the
    UTF-8 bytes of the frame of the response computed at the declaration,
    and the queue ends empty.  Under [strict] and under [loose] a text always
    matches itself. *)
Theorem exchange_in_declared_order (decls : list (query_arg * MatchType))
    (self declared : MockLiveStatusConnection) (sends : list (list byte * Z)) :
  (∀ c, unicode_printable c = true → is_scalar c = true) →
  _expected_queries self = [] →
  declare_all decls self = (Ok (), declared) →
  Forall2 (sends_entry (_prepend_site declared)) sends
          (_expected_queries declared) →
  Forall2 (declared_as (_tables self)) decls (_expected_queries declared) ∧
  __enter__ (__call__ false declared) = (Ok (), __call__ false declared) ∧
  (∃ received self',
     exchange sends (__call__ false declared) = (Ok received, self') ∧
     Forall2 (λ bytes entry,
                encode_utf8 (frame_of_entry (_prepend_site declared) entry)
                = Some bytes)
             received (_expected_queries declared) ∧
     _expected_queries self' = []) ∧
  (∀ query match_type, match_type ≠ ellipsis →
     _compare query query match_type = Ok true).
Proof.
  intros Htable Hempty Hdecl Hsends.
  destruct (declare_all_queue _ _ _ Hdecl) as (entries & Hq & Hall & _).
  rewrite Hempty in Hq. cbn [app] in Hq.
  split; [by rewrite Hq|]. split; [done|]. split.
  - apply (exchange_in_queue_order (__call__ false declared) sends
             (_expected_queries declared) []); [done | by eexists | |done].
    cbn. by rewrite app_nil_r.
  - intros query match_type Hmode. by apply compare_self.
Qed.

(** ** UTF-8 *)

Lemma byte_of_N_to_N (n : N) : n < 256 → Byte.to_N (byte_of_N n) = n.
Proof.
  intros Hn. unfold byte_of_N. destruct (Byte.of_N n) as [b|] eqn:Hb.
  - by apply Byte.to_of_N in Hb.
  - apply Byte.of_N_None_iff in Hb. lia.
Qed.

Lemma continuation_byte (n : N) :
  n < 64 → continuation (byte_of_N (128 + n)) = Some n.
Proof.
  intros Hn. unfold continuation. rewrite byte_of_N_to_N by lia.
  destruct (N.leb_spec 128 (128 + n)); [|lia].
  destruct (N.leb_spec (128 + n) 191); [|lia].
  cbn. f_equal. lia.
Qed.

(** One step of [decode_utf8]. *)
Lemma decode_utf8_cons (b0 : byte) (r0 : list byte) :
  decode_utf8 (b0 :: r0)
  = let n0 := Byte.to_N b0 in
    if n0 <? 128 then cons n0 <$> decode_utf8 r0
    else if (192 <=? n0) && (n0 <=? 223) then
      match r0 with
      | b1 :: r1 =>
          match continuation b1 with
          | Some c1 =>
              let c := (n0 - 192) * 64 + c1 in
              if 128 <=? c then cons c <$> decode_utf8 r1 else None
          | None => None
          end
      | _ => None
      end
    else if (224 <=? n0) && (n0 <=? 239) then
      match r0 with
      | b1 :: b2 :: r2 =>
          match continuation b1, continuation b2 with
          | Some c1, Some c2 =>
              let c := (n0 - 224) * 4096 + c1 * 64 + c2 in
              if (2048 <=? c) && negb ((55296 <=? c) && (c <=? 57343))
              then cons c <$> decode_utf8 r2 else None
          | _, _ => None
          end
      | _ => None
      end
    else if (240 <=? n0) && (n0 <=? 247) then
      match r0 with
      | b1 :: b2 :: b3 :: r3 =>
          match continuation b1, continuation b2, continuation b3 with
          | Some c1, Some c2, Some c3 =>
              let c := (n0 - 240) * 262144 + c1 * 4096 + c2 * 64 + c3 in
              if (65536 <=? c) && (c <? 1114112)
              then cons c <$> decode_utf8 r3 else None
          | _, _, _ => None
          end
      | _ => None
      end
    else None.
Proof. reflexivity. Qed.

Lemma decode_encode_char (c : N) (b rest : list byte) :
  encode_char c = Some b →
  decode_utf8 (b ++ rest) = cons c <$> decode_utf8 rest.
Proof.
  unfold encode_char.
  destruct (N.ltb_spec c 128).
  { intros [= <-]. cbn [app]. rewrite decode_utf8_cons. cbv beta iota zeta.
    rewrite byte_of_N_to_N by lia. by decide_tests. }
  destruct (N.ltb_spec c 2048).
  { intros [= <-]. cbn [app]. rewrite decode_utf8_cons. cbv beta iota zeta.
    rewrite byte_of_N_to_N by lia_div. rewrite continuation_byte by lia_div.
    decide_tests. cbn [andb negb].
    by replace ((192 + c / 64 - 192) * 64 + c mod 64) with c by lia_div. }
  destruct (N.ltb_spec c 65536).
  { destruct (N.leb_spec 55296 c), (N.leb_spec c 57343); cbn [andb]; try done;
      intros [= <-]; cbn [app]; rewrite decode_utf8_cons; cbv beta iota zeta;
      rewrite byte_of_N_to_N by lia_div; rewrite !continuation_byte by lia_div;
      decide_tests; cbn [andb negb];
      by replace ((224 + c / 4096 - 224) * 4096 + (c / 64) mod 64 * 64 + c mod 64)
        with c by lia_div. }
  destruct (N.ltb_spec c 1114112); [|done].
  intros [= <-]. cbn [app]. rewrite decode_utf8_cons. cbv beta iota zeta.
  rewrite byte_of_N_to_N by lia_div. rewrite !continuation_byte by lia_div.
  decide_tests. cbn [andb negb].
  by replace ((240 + c / 262144 - 240) * 262144 + (c / 4096) mod 64 * 4096
              + (c / 64) mod 64 * 64 + c mod 64) with c by lia_div.
Qed.

(** Decoding what was encoded gives the text back. *)
Lemma decode_encode_utf8 (s : str) (bytes : list byte) :
  encode_utf8 s = Some bytes → decode_utf8 bytes = Some s.
Proof.
  revert bytes. induction s as [|c s IH]; intros bytes; cbn [encode_utf8].
  - by intros [= <-].
  - destruct (encode_char c) as [b|] eqn:Hc; [|done].
    destruct (encode_utf8 s) as [bs|] eqn:Hs; [|done].
    intros [= <-]. rewrite (decode_encode_char c b bs Hc).
    by rewrite (IH bs eq_refl).
Qed.

Lemma strip_terminator_app (bytes : list byte) :
  strip_terminator (bytes ++ [x0a; x0a]) = bytes.
Proof.
  unfold strip_terminator. rewrite length_app. cbn [length].
  replace (length bytes + 2 - 2)%nat with (length bytes) by lia.
  rewrite drop_app_length, take_app_length. by rewrite bool_decide_true.
Qed.

(** The bytes of a text followed by the terminator carry the text. *)
Lemma terminated_query_carried (query : str) (bytes : list byte) :
  encode_utf8 query = Some bytes →
  decode_utf8 (strip_terminator (bytes ++ [x0a; x0a])) = Some query.
Proof. intros H. rewrite strip_terminator_app. by apply decode_encode_utf8. Qed.

(** * Further properties *)

(** ** The scope *)

(** X1: Sending never reads the tables: replacing a table commutes with
    [_lookup_next_query], [socket_send] and [socket_recv]. *)
Theorem sending_ignores_tables (name : str) (data : list Row) (query : str)
    (bytes : list byte) (size : Z) (self : MockLiveStatusConnection) :
  _lookup_next_query query (add_table name data self)
    = ((_lookup_next_query query self).1,
       add_table name data (_lookup_next_query query self).2) ∧
  socket_send bytes (add_table name data self)
    = ((socket_send bytes self).1, add_table name data (socket_send bytes self).2) ∧
  socket_recv size (add_table name data self)
    = ((socket_recv size self).1, add_table name data (socket_recv size self).2).
Proof.
  assert (Hlook : ∀ q, _lookup_next_query q (add_table name data self)
    = ((_lookup_next_query q self).1,
       add_table name data (_lookup_next_query q self).2)).
  { intros q. unfold _lookup_next_query.
    destruct self as [site queue multi status last tabs].
    cbn [add_table _expect_status_query _expected_queries _prepend_site
         _report_multiple _last_response _tables].
    destruct status as [b|]; [|done].
    destruct (_unpack_headers q) as [headers|e]; [|done].
    destruct queue as [|[[[expected columns] response] match_type] rest]; [done|].
    destruct (_compare expected q match_type) as [[|]|e]; done. }
  split; [apply Hlook|]. split.
  - unfold socket_send. destruct (decode_utf8 (strip_terminator bytes)); [|done].
    rewrite Hlook. by destruct (_lookup_next_query l self).
  - unfold socket_recv. destruct self as [site queue multi status last tabs].
    cbn [add_table _last_response]. destruct last as [io|]; [|done].
    by destruct (StringIO_read size io).
Qed.

(** X2: Leaving the scope: the flag is reset whatever happens, nothing else
    changes, and from then on every query is refused with the error of the
    missing context.  The exit raises exactly when entries are left and the
    scope is not being left by an exception that hides them; the error lists
    the texts of all the entries left, in the order of the queue. *)
Theorem exit_closes_scope (exc : bool) (self : MockLiveStatusConnection) :
  let outcome := (__exit__ exc self).1 in
  let after := (__exit__ exc self).2 in
  after = set_expect_status_query None self ∧
  (∀ query, _lookup_next_query query after = (Raise RuntimeError_no_context, after)) ∧
  (∀ data query, decode_utf8 (strip_terminator data) = Some query →
     socket_send data after = (Raise RuntimeError_no_context, after)) ∧
  (outcome = Ok () ↔
   _expected_queries self = [] ∨ (exc = true ∧ _report_multiple self = false)) ∧
  (outcome ≠ Ok () →
   outcome = Raise (RuntimeError_remaining (queue_texts (_expected_queries self)))).
Proof.
  destruct self as [site queue multi status last tabs]. unfold __exit__.
  cbn [set_expect_status_query _report_multiple _expected_queries
       _prepend_site _expect_status_query _last_response _tables].
  destruct exc, multi, queue as [|entry queue]; cbn [andb negb fst snd];
    (split; [done|]); (split; [done|]);
    (split; [intros data query Hdata; unfold socket_send; by rewrite Hdata|]);
    (split; [|done]); split; try done; try (intros; by left);
    try (intros; right; done); intros [H|[H1 H2]]; done.
Qed.

(** X3: An exchange as in the order of the queue, followed by the exit: the exit
    succeeds when every entry was sent for, and otherwise raises the error
    that lists the entries never sent for. *)
Theorem exit_after_exchange (self : MockLiveStatusConnection)
    (sends : list (list byte * Z)) (entries remaining : list Expectation) :
  (∀ c, unicode_printable c = true → is_scalar c = true) →
  is_Some (_expect_status_query self) →
  _expected_queries self = entries ++ remaining →
  Forall2 (sends_entry (_prepend_site self)) sends entries →
  ∃ received self',
    exchange sends self = (Ok received, self') ∧
    (__exit__ false self').1
    = match remaining with
      | [] => Ok ()
      | _ => Raise (RuntimeError_remaining (queue_texts remaining))
      end ∧
    _expect_status_query (__exit__ false self').2 = None.
Proof.
  intros Htable Hstatus Hqueue Hsends.
  destruct (exchange_in_queue_order self sends entries remaining
              Htable Hstatus Hqueue Hsends) as (received & self' & Hex & _ & Hq).
  exists received, self'. split; [done|].
  destruct self' as [site queue multi status last tabs].
  cbn [_expected_queries] in Hq. subst queue. unfold __exit__.
  cbn [set_expect_status_query _report_multiple _expected_queries
       _expect_status_query andb fst snd].
  by destruct remaining.
Qed.

Lemma row_of_entry_present (table : str) (columns : list str) (entry : Row) :
  (∀ col, col ∈ columns → is_Some (entry !! col)) →
  ∃ cells, row_of_entry table columns entry = Ok cells ∧
           Forall2 (λ col cell, entry !! col = Some cell) columns cells.
Proof.
  unfold row_of_entry. induction columns as [|col columns IH]; intros Hall.
  - exists []. split; [done | constructor].
  - destruct (Hall col) as [cell Hcell]; [by left|].
    destruct IH as (cells & Hcells & Hrel); [intros c Hc; apply Hall; by right|].
    exists (cell :: cells). cbn [map_result]. rewrite Hcell, Hcells.
    split; [done | by constructor].
Qed.

Lemma rows_of_entries_present (table : str) (columns : list str)
    (rows : list Row) :
  (∀ entry col, entry ∈ rows → col ∈ columns → is_Some (entry !! col)) →
  ∃ response,
    map_result (row_of_entry table columns) rows = Ok response ∧
    Forall2 (λ entry cells,
               Forall2 (λ col cell, entry !! col = Some cell) columns cells)
            rows response.
Proof.
  induction rows as [|entry rows IH]; intros Hall.
  - exists []. split; [done | constructor].
  - destruct (row_of_entry_present table columns entry) as (cells & Hcells & Hrel);
      [intros col Hcol; apply Hall; [by left | done]|].
    destruct IH as (response & Hresp & Hrels);
      [intros e c He Hc; apply Hall; [by right | done]|].
    exists (cells :: response). cbn [map_result]. rewrite Hcells, Hresp.
    split; [done | by constructor].
Qed.

(** X4: Entering the scope with the status query expected (the default): when
    the table [status] is stored and each of its rows has the five columns
    of the status query, the entry of that query is put in front of
    everything declared before, with the cells of these columns for every
    row.  The status query is then the first query accepted, and once it is
    answered the queue is what it was before the scope was entered. *)
Theorem enter_expects_status_first (self : MockLiveStatusConnection)
    (rows : list Row) (data : list byte) (size : Z) :
  (∀ c, unicode_printable c = true → is_scalar c = true) →
  _expect_status_query self ≠ Some false →
  _tables self !! py "status" = Some rows →
  (∀ entry col, entry ∈ rows → col ∈ status_columns → is_Some (entry !! col)) →
  decode_utf8 (strip_terminator data) = Some status_query →
  ∃ response entered,
    __enter__ self = (Ok (), entered) ∧
    _expect_status_query entered = Some true ∧
    _expected_queries entered
      = (status_query, status_columns, response, loose) :: _expected_queries self ∧
    Forall2 (λ entry cells,
               Forall2 (λ col cell, entry !! col = Some cell) status_columns cells)
            rows response ∧
    ((Z.of_nat (length (frame_of_entry (_prepend_site self)
                          (status_query, status_columns, response, loose)))
      ≤ size)%Z →
     ∃ bytes answered received,
       socket_send data entered = (Ok (), answered) ∧
       socket_recv size answered = (Ok bytes, received) ∧
       encode_utf8 (frame_of_entry (_prepend_site self)
                      (status_query, status_columns, response, loose))
         = Some bytes ∧
       _expected_queries received = _expected_queries self).
Proof.
  intros Htable Hflag Hstored Hrows Hdata.
  destruct (rows_of_entries_present (py "status") status_columns rows Hrows)
    as (response & Hresp & Hrel).
  assert (Hresolve : resolve_query (_tables self) status_query loose
                     = Ok (status_query, status_columns, response, loose)).
  { unfold resolve_query.
    change (_table_of_query status_query) with (Ok (Some (py "status")) : result _).
    cbn [mbind result_bind].
    change (resolve_columns (_tables self) (Some (py "status")) status_query)
      with status_columns.
    unfold resolve_rows. change status_columns
      with (py "livestatus_version" :: tail status_columns) at 1.
    cbn match. rewrite Hstored. cbn [or_raise mbind result_bind].
    rewrite evaluate_filter_no_directive by reflexivity.
    cbn [mbind result_bind]. by rewrite Hresp. }
  set (entry := (status_query, status_columns, response, loose)).
  set (entered := set_expected_queries (entry :: _expected_queries self)
                    (set_expect_status_query (Some true) self)).
  assert (Henter : __enter__ self = (Ok (), entered)).
  { assert (Hpost : ∀ s, _tables s = _tables self →
              _expect_post_connect_query s
              = (Ok (), set_expected_queries
                          (entry :: _expected_queries s) s)).
    { intros s Hs. unfold _expect_post_connect_query, expect_query.
      cbv zeta. change (normalize_query _) with status_query.
      by rewrite Hs, Hresolve. }
    unfold __enter__. destruct self as [site queue multi status last tabs].
    cbn [_expect_status_query set_expect_status_query] in *.
    destruct status as [[|]|]; [| done |].
    - rewrite bool_decide_true by done. by rewrite Hpost.
    - rewrite bool_decide_true by done. by rewrite Hpost. }
  exists response, entered. split; [done|].
  destruct self as [site queue multi status last tabs].
  cbn [_expect_status_query _expected_queries _prepend_site
       set_expected_queries set_expect_status_query] in *.
  split; [done|]. split; [done|]. split; [done|].
  intros Hsize.
  destruct (send_receive_step entered data size entry queue)
    as (bytes & self1 & self2 & Hsend & Hrecv & Hbytes & Hq & _);
    [done | by eexists | done | |].
  { split; [done|]. split; [reflexivity|]. split; [done | exact Hsize]. }
  by exists bytes, self1, self2.
Qed.

(** X5: Entering the scope with the status query expected fails when the table
    [status] is not stored, or when one of its rows lacks a column of the
    status query.  The [KeyError] leaves the queue as it was, but the flag
    is already set: the scope counts as entered. *)
Theorem enter_without_status_data (self : MockLiveStatusConnection) :
  _expect_status_query self ≠ Some false →
  (_tables self !! py "status" = None →
   __enter__ self
   = (Raise (KeyError_table (py "status")),
      set_expect_status_query (Some true) self)) ∧
  (∀ rows entry col,
     _tables self !! py "status" = Some rows →
     entry ∈ rows → col ∈ status_columns → entry !! col = None →
     ∃ col', col' ∈ status_columns ∧
       __enter__ self
       = (Raise (KeyError_column (py "status") col'),
          set_expect_status_query (Some true) self)).
Proof.
  intros Hflag.
  assert (Henter : ∀ e,
            resolve_query (_tables self) status_query loose = Raise e →
            __enter__ self = (Raise e, set_expect_status_query (Some true) self)).
  { intros e Hresolve.
    assert (Hpost : ∀ s, _tables s = _tables self →
              _expect_post_connect_query s = (Raise e, s)).
    { intros s Hs. unfold _expect_post_connect_query, expect_query.
      cbv zeta. change (normalize_query _) with status_query.
      by rewrite Hs, Hresolve. }
    unfold __enter__. destruct self as [site queue multi status last tabs].
    cbn [_expect_status_query set_expect_status_query] in *.
    destruct status as [[|]|]; [| done |].
    - rewrite bool_decide_true by done. by rewrite Hpost.
    - rewrite bool_decide_true by done. by rewrite Hpost. }
  assert (Hshape :
            resolve_query (_tables self) status_query loose
            = (stored ← or_raise (KeyError_table (py "status"))
                                 (_tables self !! py "status");
               result_dicts ← evaluate_filter status_query stored;
               response ← map_result (row_of_entry (py "status") status_columns)
                                     result_dicts;
               Ok (status_query, status_columns, response, loose))).
  { unfold resolve_query.
    change (_table_of_query status_query) with (Ok (Some (py "status")) : result _).
    cbn [mbind result_bind].
    change (resolve_columns (_tables self) (Some (py "status")) status_query)
      with status_columns.
    unfold resolve_rows. change status_columns
      with (py "livestatus_version" :: tail status_columns) at 1.
    cbn match. destruct (_tables self !! py "status"); [|done].
    cbn [or_raise mbind result_bind].
    destruct (evaluate_filter status_query l); [|done]. done. }
  split.
  - intros Hnone. apply Henter. rewrite Hshape, Hnone. done.
  - intros rows entry col Hstored Hentry Hcol Hmissing.
    destruct (map_rows_missing (py "status") status_columns rows entry col
                Hentry Hcol Hmissing) as (col' & Hcol' & Hraise).
    exists col'. split; [done|]. apply Henter.
    rewrite Hshape, Hstored. cbn [or_raise mbind result_bind].
    rewrite evaluate_filter_no_directive by reflexivity.
    cbn [mbind result_bind]. by rewrite Hraise.
Qed.

(** ** Receiving *)

Lemma encode_utf8_app (s t : str) (a b : list byte) :
  encode_utf8 s = Some a → encode_utf8 t = Some b →
  encode_utf8 (s ++ t) = Some (a ++ b).
Proof.
  revert a. induction s as [|c s IH]; intros a; cbn [encode_utf8 app].
  - by intros [= <-].
  - destruct (encode_char c) as [bc|]; [|done].
    destruct (encode_utf8 s) as [bs|]; [|done].
    intros [= <-] Ht. rewrite (IH bs eq_refl Ht). by rewrite <- app_assoc.
Qed.

(** Reading a text in two pieces gives the text read in one piece. *)
Lemma StringIO_read_twice (n m : Z) (io : StringIO) :
  (0 ≤ n)%Z → (0 ≤ m)%Z →
  let first := StringIO_read n io in
  let second := StringIO_read m first.2 in
  StringIO_read (n + m) io = (first.1 ++ second.1, second.2).
Proof.
  intros Hn Hm. destruct io as [text pos]. unfold StringIO_read.
  cbn [io_pos io_text fst snd].
  destruct (Z.ltb_spec n 0); [lia|]. destruct (Z.ltb_spec m 0); [lia|].
  destruct (Z.ltb_spec (n + m) 0); [lia|].
  rewrite Z2Nat.inj_add by done.
  set (rest := drop pos text). set (n' := Z.to_nat n). set (m' := Z.to_nat m).
  rewrite <- drop_drop. fold rest.
  destruct (decide (n' ≤ length rest)%nat) as [Hle|Hgt].
  - rewrite (length_take_le rest n') by done.
    rewrite take_take_drop. f_equal. f_equal.
    rewrite <- (take_take_drop rest n' m'), length_app.
    rewrite (length_take_le rest n') by done. lia.
  - rewrite (take_ge rest n') by lia. rewrite drop_all.
    rewrite take_nil, app_nil_r. rewrite (take_ge rest (n' + m')) by lia.
    f_equal. f_equal. cbn. lia.
Qed.

(** X6: The answer can be read in pieces: two receives in a row return bytes
    that, put together, are what one receive of both sizes returns, and they
    leave the connection in the same state.  Once the text is used up a
    receive returns no bytes; it does not raise. *)
Theorem recv_in_pieces (self : MockLiveStatusConnection) (io : StringIO)
    (n m : Z) :
  _last_response self = Some io →
  Forall (λ c, is_scalar c = true) (io_text io) →
  (0 ≤ n)%Z → (0 ≤ m)%Z →
  ∃ first second after_first after_second,
    socket_recv n self = (Ok first, after_first) ∧
    socket_recv m after_first = (Ok second, after_second) ∧
    socket_recv (n + m) self = (Ok (first ++ second), after_second) ∧
    ((length (io_text io) ≤ io_pos io + Z.to_nat n)%nat → second = []).
Proof.
  intros Hlast Htext Hn Hm.
  pose proof (StringIO_read_twice n m io Hn Hm) as Htwice. cbv zeta in Htwice.
  destruct (StringIO_read n io) as [text1 io1] eqn:H1.
  destruct (StringIO_read m io1) as [text2 io2] eqn:H2.
  cbn [fst snd] in Htwice. rewrite H2 in Htwice. cbn [fst snd] in Htwice.
  assert (Hs1 : Forall (λ c, is_scalar c = true) text1).
  { destruct io as [text pos]. unfold StringIO_read in H1.
    cbn [io_pos io_text] in *. injection H1 as <- _.
    destruct (n <? 0)%Z; [|apply Forall_take]; by apply Forall_drop. }
  assert (Hs2 : Forall (λ c, is_scalar c = true) text2).
  { destruct io as [text pos]. unfold StringIO_read in H1.
    cbn [io_pos io_text] in *. injection H1 as _ <-.
    unfold StringIO_read in H2. cbn [io_pos io_text] in H2. injection H2 as <- _.
    destruct (m <? 0)%Z; [|apply Forall_take]; by apply Forall_drop. }
  destruct (encode_utf8_scalar text1 Hs1) as [b1 Hb1].
  destruct (encode_utf8_scalar text2 Hs2) as [b2 Hb2].
  destruct self as [site queue multi status last tabs].
  cbn [_last_response] in Hlast. subst last.
  exists b1, b2. eexists _, _. split; [|split; [|split]].
  - unfold socket_recv. cbn [_last_response]. rewrite H1, Hb1. reflexivity.
  - unfold socket_recv. cbn [_last_response set_last_response]. rewrite H2, Hb2.
    reflexivity.
  - unfold socket_recv. cbn [_last_response]. rewrite Htwice.
    rewrite (encode_utf8_app _ _ _ _ Hb1 Hb2). reflexivity.
  - intros Hused. destruct io as [text pos]. unfold StringIO_read in H1, H2.
    cbn [io_pos io_text] in *. injection H1 as <- <-.
    cbn [io_pos io_text] in H2. injection H2 as <- _.
    destruct (Z.ltb_spec n 0); [lia|]. destruct (Z.ltb_spec m 0); [lia|].
    rewrite drop_ge in Hb2.
    + rewrite take_nil in Hb2. cbn in Hb2. by injection Hb2 as <-.
    + rewrite length_take, length_drop. lia.
Qed.

(** ** Reading the table and the columns of a query *)

(** White space between tokens is skipped. *)
Lemma split_ws_from_skip (m : option nat) (blanks rest : str) :
  forallb isspace blanks = true →
  split_ws_from m None (blanks ++ rest) = split_ws_from m None rest.
Proof.
  induction blanks as [|c blanks IH]; [done|].
  cbn [forallb]. intros [Hc Hrest]%andb_true_iff.
  cbn [app split_ws_from]. rewrite Hc. by apply IH.
Qed.

(** With no split left, what remains is one piece. *)
Lemma split_ws_from_last (rest : str) :
  is_filter_value rest = true →
  split_ws_from (Some 0%nat) None rest
  = match rest with [] => [] | _ => [rest] end.
Proof.
  destruct rest as [|c rest]; [done|]. cbn [is_filter_value split_ws_from].
  intros Hc%negb_true_iff. by rewrite Hc.
Qed.

Lemma split_get_line (blanks name : str) :
  forallb isspace blanks = true → is_filter_value name = true →
  split_ws (Some 1%nat) (py "GET " ++ blanks ++ name)
  = py "GET" :: match name with [] => [] | _ => [name] end.
Proof.
  intros Hblanks Hname. unfold split_ws.
  change (py "GET " ++ blanks ++ name)
    with (71 :: 69 :: 84 :: 32 :: blanks ++ name).
  cbn [split_ws_from]. change (isspace 71) with false.
  change (isspace 69) with false. change (isspace 84) with false.
  change (isspace 32) with true. cbn match.
  cbn [fmap option_fmap option_map pred rev app].
  f_equal. rewrite split_ws_from_skip by done. by apply split_ws_from_last.
Qed.

(** X7: The table of a query is what follows [GET] and the blanks after it on
    the first line, up to the end of the line, blanks inside and at the end
    included.  A first line that does not start with [GET ] names no table,
    and neither does a text without lines.  A first line that has only
    blanks after [GET ] raises an [IndexError], and so does the declaration
    of the query, which leaves the connection as it was. *)
Theorem table_of_query_cases (query : str) :
  (splitlines query = [] → _table_of_query query = Ok None) ∧
  (∀ line0 rest, splitlines query = line0 :: rest →
     (startswith line0 (py "GET ") = false → _table_of_query query = Ok None) ∧
     (∀ blanks name,
        line0 = py "GET " ++ blanks ++ name →
        forallb isspace blanks = true → is_filter_value name = true →
        _table_of_query query
        = match name with
          | [] => Raise IndexError_range
          | _ => Ok (Some name)
          end) ∧
     (∀ declared match_type force_pos self blanks,
        query = normalize_query declared →
        line0 = py "GET " ++ blanks → forallb isspace blanks = true →
        expect_query declared match_type force_pos self
        = (Raise IndexError_range, self))).
Proof.
  split; [unfold _table_of_query; by intros ->|].
  intros line0 rest Hsplit.
  assert (Hname : ∀ blanks name,
            line0 = py "GET " ++ blanks ++ name →
            forallb isspace blanks = true → is_filter_value name = true →
            _table_of_query query
            = match name with
              | [] => Raise IndexError_range
              | _ => Ok (Some name)
              end).
  { intros blanks name -> Hblanks Hname. unfold _table_of_query.
    rewrite Hsplit, startswith_app, split_get_line by done. by destruct name. }
  split; [unfold _table_of_query; rewrite Hsplit; by intros ->|].
  split; [exact Hname|].
  intros declared match_type force_pos self blanks Hq Hline Hblanks.
  unfold expect_query, resolve_query. cbv zeta. rewrite <- Hq.
  rewrite (Hname blanks []); [done | by rewrite app_nil_r | done | done].
Qed.

Lemma split_ws_from_tokens (cur : option str) (s : str) :
  match cur with
  | Some t => is_token (rev t) = true
  | None => True
  end →
  Forall (λ piece, is_token piece = true) (split_ws_from None cur s).
Proof.
  revert cur. induction s as [|c s IH]; intros cur Hcur; cbn [split_ws_from].
  - destruct cur; by repeat constructor.
  - destruct cur as [t|].
    + destruct (isspace c) eqn:Hc.
      * constructor; [done|]. by apply IH.
      * apply IH. cbn [rev]. unfold is_token in *.
        destruct (rev t) as [|x xs] eqn:Hrev; [done|].
        cbn [app]. change (x :: xs ++ [c]) with ((x :: xs) ++ [c]).
        rewrite forallb_app, Hcur. cbn. by rewrite Hc.
    + destruct (isspace c) eqn:Hc; [by apply IH|].
      apply IH. cbn. by rewrite Hc.
Qed.

Lemma split_ws_join (cols : list str) :
  Forall (λ col, is_token col = true) cols →
  split_ws_from None None (str_join [SP] cols) = cols.
Proof.
  induction 1 as [|col cols Hcol Hcols IH]; [done|].
  destruct col as [|c0 col]; [done|]. cbn [is_token forallb] in Hcol.
  apply andb_true_iff in Hcol as [Hc0%negb_true_iff Hcol].
  cbn [str_join]. destruct cols as [|col' cols].
  - cbn [app split_ws_from]. rewrite Hc0.
    rewrite <- (app_nil_r col) at 1. rewrite split_ws_from_token by done.
    cbn [split_ws_from]. by rewrite rev_app_distr, rev_involutive.
  - cbn [app split_ws_from]. rewrite Hc0.
    rewrite split_ws_from_token by done. cbn [app split_ws_from].
    change (isspace SP) with true. cbn match.
    rewrite rev_app_distr, rev_involutive. cbn [rev app]. f_equal. exact IH.
Qed.

(** X8: The columns of a query are the names on the first line that starts with
    [Columns:], split at white space; without such a line there are none.
    No name is empty or has white space in it, and names written with one
    blank between them are read back as they are. *)
Theorem column_of_query_first_line (query : str) :
  (∀ before line after text,
     splitlines query = before ++ line :: after →
     Forall (λ l, startswith l (py "Columns:") = false) before →
     line = py "Columns:" ++ text →
     _column_of_query query = Some (split_ws None text)) ∧
  (Forall (λ l, startswith l (py "Columns:") = false) (splitlines query) →
   _column_of_query query = None) ∧
  (∀ columns, _column_of_query query = Some columns →
     Forall (λ col, is_token col = true) columns) ∧
  (∀ before after blanks columns,
     splitlines query
       = before ++ (py "Columns:" ++ blanks ++ str_join [SP] columns) :: after →
     Forall (λ l, startswith l (py "Columns:") = false) before →
     forallb isspace blanks = true →
     Forall (λ col, is_token col = true) columns →
     _column_of_query query = Some columns).
Proof.
  unfold _column_of_query.
  assert (Hfirst : ∀ before line after text,
            Forall (λ l, startswith l (py "Columns:") = false) before →
            line = py "Columns:" ++ text →
            first_columns (before ++ line :: after) = Some (split_ws None text)).
  { intros before line after text Hbefore ->.
    induction Hbefore as [|l before Hl _ IH]; cbn [app first_columns].
    - rewrite startswith_app. reflexivity.
    - by rewrite Hl. }
  split; [|split; [|split]].
  - intros before line after text -> Hbefore Hline. by apply Hfirst.
  - induction 1 as [|l lines Hl _ IH]; cbn [first_columns]; [done|].
    by rewrite Hl.
  - intros columns. generalize (splitlines query). intros lines.
    induction lines as [|l lines IH]; cbn [first_columns]; [done|].
    destruct (startswith l (py "Columns:")); [|exact IH].
    intros [= <-]. by apply split_ws_from_tokens.
  - intros before after blanks columns -> Hbefore Hblanks Hcolumns.
    rewrite (Hfirst before _ after (blanks ++ str_join [SP] columns) Hbefore eq_refl).
    f_equal. unfold split_ws. rewrite split_ws_from_skip by done.
    by apply split_ws_join.
Qed.

(** ** Compiling a filter line *)

Lemma OPERATORS_unknown (op : str) :
  op ∉ operator_names → OPERATORS !! op = None.
Proof. intros Hop. by apply not_elem_of_list_to_map_1. Qed.

Lemma OPERATORS_eq : OPERATORS !! py "=" = Some (cast_down (rich_compare op_eq)).
Proof. unfold OPERATORS. lookup_table. Qed.

(** A line with a single token after [Filter:], or with none. *)
Lemma split_short_filter_line (blanks field trailing : str) :
  forallb isspace blanks = true → forallb isspace trailing = true →
  forallb (λ c, negb (isspace c)) field = true →
  split_ws (Some 2%nat) (drop 7 (py "Filter:" ++ blanks ++ field ++ trailing))
  = match field with [] => [] | _ => [field] end.
Proof.
  intros Hblanks Htrailing Hfield.
  change (drop 7 (py "Filter:" ++ blanks ++ field ++ trailing))
    with (blanks ++ field ++ trailing).
  unfold split_ws. rewrite split_ws_from_skip by done.
  destruct field as [|f0 field].
  - cbn [app]. rewrite <- (app_nil_r trailing).
    by rewrite split_ws_from_skip.
  - cbn [forallb] in Hfield. apply andb_true_iff in Hfield as [Hf0%negb_true_iff Hfield].
    cbn [app split_ws_from]. rewrite Hf0.
    rewrite split_ws_from_token by done.
    destruct trailing as [|b trailing]; cbn [split_ws_from].
    + by rewrite rev_app_distr, rev_involutive.
    + cbn [forallb] in Htrailing.
      apply andb_true_iff in Htrailing as [-> Htrailing].
      rewrite rev_app_distr, rev_involutive. cbn [rev app]. f_equal.
      rewrite <- (app_nil_r trailing). by rewrite split_ws_from_skip.
Qed.

Lemma collect_filters_app (lines more : list str) (filters : list FilterFunc) :
  collect_filters (lines ++ more) filters
  = (stack ← collect_filters lines filters; collect_filters more stack).
Proof.
  revert filters. induction lines as [|line lines IH]; intros filters; [done|].
  cbn [app collect_filters].
  destruct (startswith line (py "Filter:")).
  { destruct (make_filter_func line); cbn [mbind result_bind]; [apply IH | done]. }
  destruct (startswith line (py "And:") || startswith line (py "Or:")); [|apply IH].
  destruct (split_sep_1 (py " ") line) as [|op [|count_ [|? ?]]]; try done.
  destruct (int_of_str count_); cbn [or_raise mbind result_bind]; [|done].
  destruct (COMBINATORS !! op); cbn [or_raise mbind result_bind]; [apply IH | done].
Qed.

(** X9: What cannot be compiled.  An operator that [OPERATORS] does not know is
    refused with the [ValueError] that names it; a line with fewer than two
    tokens after [Filter:] fails to unpack.  Either error stops
    [evaluate_filter] at that line, whatever the rows.  A compiled predicate
    applied to a row without its column raises the [KeyError] of the
    column. *)
Theorem make_filter_func_errors :
  (∀ field op literal,
     is_token field = true → is_token op = true →
     is_filter_value literal = true → op ∉ operator_names →
     make_filter_func (py "Filter: " ++ field ++ [SP] ++ op ++ [SP] ++ literal)
     = Raise (ValueError_operator op)) ∧
  (∀ blanks field trailing,
     forallb isspace blanks = true → forallb isspace trailing = true →
     forallb (λ c, negb (isspace c)) field = true →
     make_filter_func (py "Filter:" ++ blanks ++ field ++ trailing)
     = Raise ValueError_unpack) ∧
  (∀ query before line after stack rows e,
     splitlines query = before ++ line :: after →
     collect_filters before [] = Ok stack →
     startswith line (py "Filter:") = true →
     make_filter_func line = Raise e →
     evaluate_filter query rows = Raise e) ∧
  (∀ field op literal operator entry,
     is_token field = true → is_token op = true →
     is_filter_value literal = true → OPERATORS !! op = Some operator →
     entry !! field = None →
     ∃ f, make_filter_func (py "Filter: " ++ field ++ [SP] ++ op ++ [SP] ++ literal)
            = Ok f ∧
          f entry = Raise (KeyError_key field)).
Proof.
  split; [|split; [|split]].
  - intros field op literal Hfield Hop Hliteral Hunknown.
    unfold make_filter_func.
    rewrite split_filter_line by done. by rewrite OPERATORS_unknown.
  - intros blanks field trailing Hblanks Htrailing Hfield.
    unfold make_filter_func. rewrite split_short_filter_line by done.
    by destruct field.
  - intros query before line after stack rows e Hsplit Hstack Hfilter Hraise.
    unfold evaluate_filter. rewrite Hsplit, collect_filters_app, Hstack.
    cbn [mbind result_bind collect_filters]. by rewrite Hfilter, Hraise.
  - intros field op literal operator entry Hfield Hop Hliteral Hlookup Hmissing.
    destruct (make_filter_func_line field op literal operator
                Hfield Hop Hliteral Hlookup) as (f & Hf & Hentry).
    exists f. split; [done|]. by rewrite Hentry, Hmissing.
Qed.

(** ** The operator [=] *)

Lemma value_eqb_str (a : value) (s : str) :
  value_eqb a (VStr s) = true ↔ a = VStr s.
Proof.
  destruct a as [x|x|x|xs]; cbn [value_eqb]; try done.
  unfold str_eqb. rewrite bool_decide_eq_true.
  split; [by intros -> | by intros [= ->]].
Qed.

Lemma equal_items_strs (xs : list value) (ys : list str) :
  equal_items value_eqb xs (VStr <$> ys) = true ↔ xs = VStr <$> ys.
Proof.
  revert ys. induction xs as [|x xs IH]; intros [|y ys];
    cbn [fmap list_fmap equal_items]; try done.
  rewrite andb_true_iff, value_eqb_str, IH.
  split; [by intros [-> ->] | by intros [= -> ->]].
Qed.

(** X10: The predicate compiled from [Filter: <col> = <b>] never raises a
    [TypeError]: it converts the text [b] to the type of the value [a] of the
    column and answers whether the two are equal.  A string is compared with
    the text as it stands; an integer with the number the text denotes, and
    a text that denotes none, the empty one included, raises the
    [ValueError] of [int]; a float with the float the text denotes, by the
    equality of IEEE 754, and a text that denotes none raises the
    [ValueError] of [float]; a list with the list of the characters of the
    text, so the empty text selects the empty list.  Without the column the
    [KeyError] names it. *)
Theorem filter_equality (field literal : str) (entry : Row) :
  is_token field = true →
  is_filter_value literal = true →
  ∃ f, make_filter_func (py "Filter: " ++ field ++ py " = " ++ literal) = Ok f ∧
    (entry !! field = None → f entry = Raise (KeyError_key field)) ∧
    (∀ s, entry !! field = Some (VStr s) →
       f entry = Ok (bool_decide (s = literal))) ∧
    (∀ x, entry !! field = Some (VInt x) →
       match int_of_str literal with
       | Some y => f entry = Ok (bool_decide (x = y))
       | None => f entry = Raise (ValueError_int literal)
       end) ∧
    (∀ x, entry !! field = Some (VInt x) → literal = [] →
       f entry = Raise (ValueError_int [])) ∧
    (∀ x, entry !! field = Some (VFloat x) →
       match float_of_str literal with
       | Some y => f entry = Ok (PrimFloat.eqb x y)
       | None => f entry = Raise (ValueError_float literal)
       end) ∧
    (∀ l, entry !! field = Some (VList l) →
       ∃ b, f entry = Ok b ∧ (b = true ↔ l = (λ c, VStr [c]) <$> literal)) ∧
    (∀ a, entry !! field = Some a → f entry ≠ Raise TypeError_operand).
Proof.
  intros Hfield Hliteral.
  destruct (make_filter_func_line field (py "=") literal _
              Hfield eq_refl Hliteral OPERATORS_eq) as (f & Hf & Hentry).
  exists f. split; [exact Hf|].
  split; [|split; [|split; [|split; [|split; [|split]]]]].
  - intros Hmissing. by rewrite Hentry, Hmissing.
  - intros s Hs. rewrite Hentry, Hs. reflexivity.
  - intros x Hx. rewrite Hentry, Hx.
    cbn [or_raise mbind result_bind]. unfold cast_down. cbn [cast_to_type_of].
    destruct (int_of_str literal) as [y|]; cbn; [|done].
    f_equal. destruct (Z.eqb_spec x y);
      [by rewrite bool_decide_true | by rewrite bool_decide_false].
  - intros x Hx ->. rewrite Hentry, Hx. reflexivity.
  - intros x Hx. rewrite Hentry, Hx.
    cbn [or_raise mbind result_bind]. unfold cast_down. cbn [cast_to_type_of].
    by destruct (float_of_str literal) as [y|].
  - intros l Hl. rewrite Hentry, Hl.
    cbn [or_raise mbind result_bind]. unfold cast_down.
    cbn [cast_to_type_of mbind result_bind rich_compare].
    eexists. split; [reflexivity|]. cbn [value_eqb].
    replace ((λ c : N, VStr [c]) <$> literal)
      with (VStr <$> ((λ c : N, [c]) <$> literal))
      by (by rewrite <- list_fmap_compose).
    apply equal_items_strs.
  - intros a Ha. rewrite Hentry, Ha.
    cbn [or_raise mbind result_bind]. unfold cast_down.
    destruct a as [x|x|s|l]; cbn [cast_to_type_of]; [| |done..].
    + destruct (int_of_str literal); cbn; done.
    + destruct (float_of_str literal); cbn; done.
Qed.

(** ** The combinators *)

Lemma map_result_total {A B} (f : A → result B) (g : A → B) (l : list A) :
  Forall (λ x, f x = Ok (g x)) l → map_result f l = Ok (g <$> l).
Proof.
  induction 1 as [|x l Hx _ IH]; cbn [map_result]; [done|].
  by rewrite Hx, IH.
Qed.

Lemma map_result_raises {A B} (f : A → result B) (l : list A) (x : A) (e : exn) :
  x ∈ l → f x = Raise e → ∃ e', map_result f l = Raise e'.
Proof.
  intros Hin Hx. induction l as [|y l IH]; [by apply elem_of_nil in Hin|].
  cbn [map_result]. destruct (f y) as [b|e'] eqn:Hy; cbn; [|by eexists].
  apply elem_of_cons in Hin as [->|Hin]; [congruence|].
  destruct (IH Hin) as [e' ->]. cbn. by eexists.
Qed.

Lemma holds_Ok (f : FilterFunc) (entry : Row) (b : bool) :
  f entry = Ok b → holds f entry = b.
Proof. unfold holds. intros ->. by destruct b. Qed.

Lemma combinators_total (filters : list FilterFunc) (entry : Row) :
  Forall (λ f, ∃ b, f entry = Ok b) filters →
  and_ filters entry = Ok (forallb (λ f, holds f entry) filters) ∧
  or_ filters entry = Ok (existsb (λ f, holds f entry) filters).
Proof.
  intros Hall. unfold and_, or_.
  rewrite (map_result_total _ (λ f, holds f entry)).
  - cbn [fmap result_fmap]. split; f_equal.
    + induction filters as [|f filters IH]; [done|].
      apply Forall_cons in Hall as [_ Hall]. cbn. by rewrite IH.
    + induction filters as [|f filters IH]; [done|].
      apply Forall_cons in Hall as [_ Hall]. cbn. by rewrite IH.
  - eapply Forall_impl; [exact Hall|]. intros f [b Hb]. cbn beta.
    by rewrite (holds_Ok _ _ _ Hb).
Qed.

(** X11: [and_] and [or_] build the list of all answers before they look at any:
    when every predicate answers, the result is the conjunction, or the
    disjunction, of the answers (true for no predicate under [and_], false
    under [or_]); when any predicate raises, both raise the same exception,
    also where a predicate in front of it has decided the result. *)
Theorem combinators_evaluate_all (filters : list FilterFunc) (entry : Row) :
  (Forall (λ f, ∃ b, f entry = Ok b) filters →
     and_ filters entry = Ok (forallb (λ f, holds f entry) filters) ∧
     or_ filters entry = Ok (existsb (λ f, holds f entry) filters)) ∧
  (∀ f e, f ∈ filters → f entry = Raise e →
     ∃ e', and_ filters entry = Raise e' ∧ or_ filters entry = Raise e') ∧
  (∀ decided raising b e,
     decided entry = Ok b → raising entry = Raise e →
     and_ [decided; raising] entry = Raise e ∧
     or_ [decided; raising] entry = Raise e) ∧
  and_ [] entry = Ok true ∧ or_ [] entry = Ok false.
Proof.
  split; [apply combinators_total|]. split; [|split; [|done]].
  - intros f e Hin Hf. unfold and_, or_.
    destruct (map_result_raises (λ filt : FilterFunc, filt entry) filters f e Hin Hf)
      as [e' ->].
    by exists e'.
  - intros decided raising b e Hdecided Hraise. unfold and_, or_.
    cbn [map_result]. by rewrite Hdecided, Hraise.
Qed.

(** ** Lines that combine predicates *)

Lemma find_sep_blank (a b : str) :
  forallb (λ c, negb (c =? SP)) a = true →
  find_sep (py " ") (a ++ SP :: b) = Some (a, b).
Proof.
  intros Ha. induction a as [|c a IH].
  - change (py " ") with [SP]. cbn [app find_sep startswith length drop].
    rewrite N.eqb_refl. by destruct b.
  - cbn [forallb] in Ha. apply andb_true_iff in Ha as [Hc Ha].
    cbn [app find_sep]. change (py " ") with [SP]. cbn [startswith].
    rewrite N.eqb_sym. apply negb_true_iff in Hc. rewrite Hc. cbn [andb].
    change [SP] with (py " "). by rewrite (IH Ha).
Qed.

Lemma combinator_line_start (op rest : str) :
  op ∈ [py "And:"; py "Or:"] →
  startswith (op ++ rest) (py "Filter:") = false ∧
  startswith (op ++ rest) (py "And:") || startswith (op ++ rest) (py "Or:") = true ∧
  forallb (λ c, negb (c =? SP)) op = true.
Proof.
  intros Hop. apply elem_of_cons in Hop as [->|Hop];
    [|apply list_elem_of_singleton in Hop as ->].
  - split; [done|]. split; [|done]. by rewrite startswith_app.
  - split; [done|]. split; [|done]. rewrite startswith_app. apply orb_true_r.
Qed.

Lemma COMBINATORS_lookup (op : str) :
  COMBINATORS !! op
  = if decide (op = py "And:") then Some and_
    else if decide (op = py "Or:") then Some or_ else None.
Proof.
  unfold COMBINATORS. cbn [list_to_map foldr uncurry fst snd].
  destruct (decide (op = py "And:")) as [->|Hand].
  { by rewrite lookup_insert_eq. }
  rewrite lookup_insert_ne by done.
  destruct (decide (op = py "Or:")) as [->|Hor].
  { by rewrite lookup_insert_eq. }
  by rewrite lookup_insert_ne.
Qed.

(** X12: A line [And: <n>] or [Or: <n>] takes the last [n] predicates off the
    stack and puts their combination in their place.  The count is not
    checked against the stack: with [n] zero, or [n] beyond the height of the
    stack, the whole stack is combined, and for a negative [n] the first
    [-n] predicates stay and the rest is combined. *)
Theorem combinator_line_step (op count_ : str)
    (comb : list FilterFunc → FilterFunc) (count : Z) (stack : list FilterFunc) :
  (op, comb) ∈ [(py "And:", and_); (py "Or:", or_)] →
  int_of_str count_ = Some count →
  let n := length stack in
  let after := collect_filters [op ++ [SP] ++ count_] stack in
  after = Ok (slice_to (- count) stack ++ [comb (slice_from (- count) stack)]) ∧
  ((0 < count ≤ Z.of_nat n)%Z →
     after = Ok (take (n - Z.to_nat count) stack
                 ++ [comb (drop (n - Z.to_nat count) stack)])) ∧
  ((count = 0 ∨ Z.of_nat n ≤ count)%Z → after = Ok [comb stack]) ∧
  ((count < 0)%Z →
     after = Ok (take (Z.to_nat (- count)) stack
                 ++ [comb (drop (Z.to_nat (- count)) stack)])).
Proof.
  intros Hop Hcount n after.
  assert (Hnames : op ∈ [py "And:"; py "Or:"] ∧ COMBINATORS !! op = Some comb).
  { apply elem_of_cons in Hop as [[= -> ->]|Hop];
      [|apply list_elem_of_singleton in Hop as [= -> ->]].
    - split; [by left | by rewrite COMBINATORS_lookup].
    - split; [right; by left | by rewrite COMBINATORS_lookup]. }
  destruct Hnames as [Hname Hcomb].
  destruct (combinator_line_start op ([SP] ++ count_) Hname)
    as (Hfilter & Hstart & Hblank).
  assert (Hafter : after = Ok (slice_to (- count) stack
                               ++ [comb (slice_from (- count) stack)])).
  { unfold after. cbn [collect_filters]. rewrite Hfilter, Hstart.
    unfold split_sep_1. cbn [app]. rewrite (find_sep_blank _ _ Hblank).
    rewrite Hcount. cbn [or_raise mbind result_bind]. rewrite Hcomb.
    reflexivity. }
  split; [exact Hafter|]. rewrite Hafter. unfold slice_to, slice_from.
  split; [|split].
  - intros [Hpos Hle]. destruct (Z.ltb_spec (- count) 0) as [_|]; [|lia].
    subst n.
    replace (Z.to_nat (Z.of_nat (length stack) + - count))
      with (length stack - Z.to_nat count)%nat by lia.
    reflexivity.
  - intros [->|Hge].
    + reflexivity.
    + destruct (Z.ltb_spec (- count) 0) as [_|Hzero].
      * subst n.
        replace (Z.to_nat (Z.of_nat (length stack) + - count)) with 0%nat by lia.
        reflexivity.
      * assert (count = 0%Z) as -> by lia. reflexivity.
  - intros Hneg. destruct (Z.ltb_spec (- count) 0) as [|_]; [lia|]. reflexivity.
Qed.

(** X13: Lines that start like a combinator and cannot be executed: without a
    blank after the name the line fails to unpack; a count that is not a
    number raises the [ValueError] of [int]; and a name that only starts with
    [And:] or [Or:] is looked up as it is and raises the [KeyError] of the
    name, after the count has been read. *)
Theorem combinator_line_errors (stack : list FilterFunc) :
  (∀ op rest,
     op ∈ [py "And:"; py "Or:"] → contains (py " ") (op ++ rest) = false →
     collect_filters [op ++ rest] stack = Raise ValueError_unpack) ∧
  (∀ op count_,
     op ∈ [py "And:"; py "Or:"] → int_of_str count_ = None →
     collect_filters [op ++ [SP] ++ count_] stack = Raise (ValueError_int count_)) ∧
  (∀ op suffix count_ count,
     op ∈ [py "And:"; py "Or:"] →
     suffix ≠ [] → forallb (λ c, negb (c =? SP)) suffix = true →
     int_of_str count_ = Some count →
     collect_filters [op ++ suffix ++ [SP] ++ count_] stack
     = Raise (KeyError_key (op ++ suffix))).
Proof.
  split; [|split].
  - intros op rest Hop Hblank.
    destruct (combinator_line_start op rest Hop) as (Hfilter & Hstart & _).
    cbn [collect_filters]. rewrite Hfilter, Hstart.
    by rewrite (split_sep_1_absent _ _ Hblank).
  - intros op count_ Hop Hcount.
    destruct (combinator_line_start op ([SP] ++ count_) Hop)
      as (Hfilter & Hstart & Hblank).
    cbn [collect_filters]. rewrite Hfilter, Hstart.
    unfold split_sep_1. cbn [app]. rewrite (find_sep_blank _ _ Hblank).
    by rewrite Hcount.
  - intros op suffix count_ count Hop Hsuffix Hblanks Hcount.
    destruct (combinator_line_start op (suffix ++ [SP] ++ count_) Hop)
      as (Hfilter & Hstart & Hblank).
    cbn [collect_filters]. rewrite Hfilter, Hstart.
    unfold split_sep_1. cbn [app]. rewrite (app_assoc op suffix).
    rewrite find_sep_blank by (rewrite forallb_app; by apply andb_true_iff).
    rewrite Hcount. cbn [or_raise mbind result_bind].
    rewrite COMBINATORS_lookup.
    assert (Hlonger : ∀ name : str, op = name → op ++ suffix ≠ name).
    { intros name <- Heq. rewrite <- (app_nil_r op) in Heq at 2.
      by apply app_inv_head in Heq. }
    apply elem_of_cons in Hop as [->|Hop];
      [|apply list_elem_of_singleton in Hop as ->].
    + rewrite decide_False by (by apply Hlonger).
      rewrite decide_False; [done|].
      intros Heq. apply (f_equal (take 1)) in Heq. by vm_compute in Heq.
    + rewrite decide_False.
      2:{ intros Heq. apply (f_equal (take 1)) in Heq. by vm_compute in Heq. }
      by rewrite decide_False by (by apply Hlonger).
Qed.

Lemma filter_agree {A} (P Q : A → Prop) `{!∀ x, Decision (P x)}
    `{!∀ x, Decision (Q x)} (l : list A) :
  (∀ x, x ∈ l → P x ↔ Q x) → filter P l = filter Q l.
Proof.
  induction l as [|x l IH]; intros Hagree; [done|].
  rewrite !filter_cons, IH by (intros y Hy; apply Hagree; by right).
  destruct (decide (P x)) as [HP|HP], (decide (Q x)) as [HQ|HQ]; try done.
  - destruct HQ. apply Hagree; [by left | done].
  - destruct HP. apply Hagree; [by left | done].
Qed.

(** X14: A query whose filter lines are closed by one [And:] or [Or:] over all of
    them: when every predicate answers on every row, [evaluate_filter]
    returns, in their order, the rows on which all of the predicates hold,
    respectively at least one of them.  Over no predicate [And: 0] keeps
    every row and [Or: 0] none. *)
Theorem evaluate_filter_combined (query : str) (lines : list str)
    (op count_ : str) (stack : list FilterFunc) (rows : list Row) :
  op ∈ [py "And:"; py "Or:"] →
  splitlines query = lines ++ [op ++ [SP] ++ count_] →
  collect_filters lines [] = Ok stack →
  int_of_str count_ = Some (Z.of_nat (length stack)) →
  (∀ entry, entry ∈ rows → Forall (λ f, ∃ b, f entry = Ok b) stack) →
  evaluate_filter query rows
  = Ok (filter (λ entry,
                  (if decide (op = py "And:")
                   then forallb (λ f, holds f entry) stack
                   else existsb (λ f, holds f entry) stack) = true) rows).
Proof.
  intros Hop Hsplit Hstack Hcount Htotal.
  set (comb := if decide (op = py "And:") then and_ else or_).
  assert (Hcomb : COMBINATORS !! op = Some comb).
  { rewrite COMBINATORS_lookup. unfold comb.
    apply elem_of_cons in Hop as [->|Hop];
      [|apply list_elem_of_singleton in Hop as ->]; done. }
  destruct (combinator_line_start op ([SP] ++ count_) Hop)
    as (Hfilter & Hstart & Hblank).
  assert (Hall : collect_filters (splitlines query) [] = Ok [comb stack]).
  { rewrite Hsplit, collect_filters_app, Hstack. cbn [mbind result_bind].
    cbn [collect_filters]. rewrite Hfilter, Hstart.
    unfold split_sep_1. cbn [app]. rewrite (find_sep_blank _ _ Hblank).
    rewrite Hcount. cbn [or_raise mbind result_bind]. rewrite Hcomb.
    cbn [or_raise mbind result_bind]. unfold slice_to, slice_from.
    destruct (Z.ltb_spec (- Z.of_nat (length stack)) 0) as [_|Hzero].
    - replace (Z.to_nat (Z.of_nat (length stack) + - Z.of_nat (length stack)))
        with 0%nat by lia.
      reflexivity.
    - replace (Z.to_nat (- Z.of_nat (length stack))) with 0%nat by lia.
      reflexivity. }
  unfold evaluate_filter. rewrite Hall. cbn [mbind result_bind].
  assert (Hanswer : ∀ entry, entry ∈ rows →
            comb stack entry
            = Ok (if decide (op = py "And:")
                  then forallb (λ f, holds f entry) stack
                  else existsb (λ f, holds f entry) stack)).
  { intros entry Hin. destruct (combinators_total stack entry (Htotal entry Hin))
      as [Hand Hor].
    unfold comb. by destruct (decide (op = py "And:")). }
  rewrite keep_rows_total by (intros entry Hin; rewrite (Hanswer entry Hin); by eexists).
  f_equal. apply filter_agree. intros entry Hin.
  by rewrite (holds_Ok _ _ _ (Hanswer entry Hin)).
Qed.

(** ** Refused queries *)

(** X15: A query sent inside the scope, decodable and with well-formed headers,
    is refused when the queue is empty, with the error that quotes the query,
    and when it does not compare equal to the first entry, with the error
    that quotes the mode, the expected text and the query.  Either way the
    connection is left as it was: the entry stays first. *)
Theorem send_refused (self : MockLiveStatusConnection) (data : list byte)
    (query : str) (headers : gmap str str) :
  is_Some (_expect_status_query self) →
  decode_utf8 (strip_terminator data) = Some query →
  _unpack_headers query = Ok headers →
  (_expected_queries self = [] →
     socket_send data self = (Raise (RuntimeError_unexpected query), self)) ∧
  (∀ expected columns response match_type rest,
     _expected_queries self = (expected, columns, response, match_type) :: rest →
     _compare expected query match_type = Ok false →
     socket_send data self
     = (Raise (RuntimeError_mismatch match_type expected query), self)).
Proof.
  intros [b Hscope] Hdata Hheaders. unfold socket_send, _lookup_next_query.
  rewrite Hdata, Hscope, Hheaders. split.
  - by intros ->.
  - intros expected columns response match_type rest -> Hcompare.
    by rewrite Hcompare.
Qed.

(** X16: A send either raises and changes nothing, or it takes exactly the first
    entry off the queue and stores a response to be received; the tables,
    the flags and the rest of the queue are never touched. *)
Theorem send_consumes_first (data : list byte) (self : MockLiveStatusConnection) :
  match socket_send data self with
  | (Raise _, after) => after = self
  | (Ok _, after) =>
      ∃ query expected columns response match_type,
        decode_utf8 (strip_terminator data) = Some query ∧
        _compare expected query match_type = Ok true ∧
        _expected_queries self
          = (expected, columns, response, match_type) :: _expected_queries after ∧
        is_Some (_last_response after) ∧
        _tables after = _tables self ∧
        _prepend_site after = _prepend_site self ∧
        _report_multiple after = _report_multiple self ∧
        _expect_status_query after = _expect_status_query self
  end.
Proof.
  unfold socket_send, _lookup_next_query.
  destruct (decode_utf8 (strip_terminator data)) as [query|]; [|done].
  destruct self as [site queue multi status last tabs].
  cbn [_expect_status_query _expected_queries _prepend_site].
  destruct status as [b|]; [|done].
  destruct (_unpack_headers query) as [headers|e]; [|done].
  destruct queue as [|[[[expected columns] response] match_type] rest]; [done|].
  destruct (_compare expected query match_type) as [[|]|e] eqn:Hcompare;
    [|done..].
  cbn [fmap result_fmap]. by exists query, expected, columns, response, match_type.
Qed.

(** ** The shape of the responses *)

Lemma map_result_Forall2 {A B} (f : A → result B) (l : list A) (l' : list B) :
  map_result f l = Ok l' → Forall2 (λ x y, f x = Ok y) l l'.
Proof.
  revert l'. induction l as [|x l IH]; intros l'; cbn [map_result].
  - intros [= <-]. constructor.
  - destruct (f x) as [y|e] eqn:Hx; cbn; [|done].
    destruct (map_result f l) as [ys|e]; cbn; [|done].
    intros [= <-]. constructor; [done | by apply IH].
Qed.

Lemma resolve_query_rectangular (tables : gmap str (list Row)) (query : str)
    (match_type : MatchType) (entry : Expectation) :
  resolve_query tables query match_type = Ok entry → rectangular entry.
Proof.
  unfold resolve_query.
  destruct (_table_of_query query) as [table|e]; cbn [mbind result_bind]; [|done].
  set (columns := resolve_columns tables table query).
  destruct (resolve_rows tables table columns query) as [rows|e] eqn:Hrows;
    cbn [mbind result_bind]; [|done].
  intros [= <-]. unfold rectangular. cbn [fst snd].
  unfold resolve_rows in Hrows.
  destruct table as [t|]; [|injection Hrows as <-; constructor].
  destruct columns as [|col columns]; [injection Hrows as <-; constructor|].
  destruct (tables !! t) as [stored|]; cbn [or_raise mbind result_bind] in Hrows;
    [|done].
  destruct (evaluate_filter query stored) as [dicts|e];
    cbn [mbind result_bind] in Hrows; [|done].
  apply map_result_Forall2 in Hrows.
  induction Hrows as [|d row ds rows' Hrow _ IH]; constructor; [|exact IH].
  apply map_result_Forall2, Forall2_length in Hrow. by rewrite Hrow.
Qed.

(** X17: Every entry that [expect_query] puts on the queue has rows of exactly as
    many cells as it has columns, wherever the entry is put; entering the
    scope and answering a query keep the queue so.  The response of an
    answered query therefore has rows of one width: the number of columns of
    the entry, plus one when the site is prepended.  The row of column names
    that [ColumnHeaders: on] asks for is not given a site cell. *)
Theorem responses_rectangular (self : MockLiveStatusConnection) :
  Forall rectangular (_expected_queries self) →
  (∀ query match_type force_pos after,
     expect_query query match_type force_pos self = (Ok (), after) →
     Forall rectangular (_expected_queries after)) ∧
  (∀ after, __enter__ self = (Ok (), after) →
     Forall rectangular (_expected_queries after)) ∧
  (∀ query response after,
     _lookup_next_query query self = (Ok response, after) →
     Forall rectangular (_expected_queries after) ∧
     ∃ expected columns rows match_type names data,
       head (_expected_queries self) = Some (expected, columns, rows, match_type) ∧
       response = names ++ data ∧
       (names = [] ∨ names = [VStr <$> columns]) ∧
       length data = length rows ∧
       Forall (λ row, length row
                      = ((if _prepend_site self then 1 else 0) + length columns)%nat)
              data).
Proof.
  intros Hqueue.
  assert (Hexpect : ∀ self0 query match_type force_pos after,
            Forall rectangular (_expected_queries self0) →
            expect_query query match_type force_pos self0 = (Ok (), after) →
            Forall rectangular (_expected_queries after)).
  { intros self0 query match_type force_pos after Hqueue0. unfold expect_query.
    destruct (resolve_query _ _ _) as [entry|e] eqn:Hentry; [|done].
    intros [= <-]. apply resolve_query_rectangular in Hentry.
    destruct self0 as [site queue multi status last tabs].
    cbn [set_expected_queries _expected_queries] in *.
    destruct force_pos as [pos|]; cbn [enqueue].
    - unfold list_insert_at, slice_to, slice_from. apply Forall_app. split.
      + destruct (pos <? 0)%Z; by apply Forall_take.
      + constructor; [done|]. destruct (pos <? 0)%Z; by apply Forall_drop.
    - apply Forall_app. split; [done|]. by constructor. }
  split; [intros query match_type force_pos after; by apply Hexpect|].
  split.
  - intros after. unfold __enter__. cbv zeta.
    case_bool_decide as Hflag.
    + unfold _expect_post_connect_query. apply Hexpect.
      by destruct self as [site queue multi [b|] last tabs].
    + intros [= <-]. by destruct self as [site queue multi [b|] last tabs].
  - intros query response after. unfold _lookup_next_query.
    destruct self as [site queue multi status last tabs].
    cbn [_expect_status_query _expected_queries _prepend_site] in *.
    destruct status as [b|]; [|done].
    destruct (_unpack_headers query) as [headers|e]; [|done].
    destruct queue as [|[[[expected columns] rows] match_type] rest]; [done|].
    destruct (_compare expected query match_type) as [[|]|e]; [|done..].
    intros [= <- <-].
    cbn [set_expected_queries set_last_response _expected_queries drop].
    apply Forall_cons in Hqueue as [Hentry Hrest]. split; [done|].
    unfold rectangular in Hentry. cbn [fst snd] in Hentry.
    unfold _generate_output.
    eexists expected, columns, rows, match_type, _, _.
    split; [done|]. split; [reflexivity|].
    split; [case_bool_decide; [by right | by left]|].
    destruct site.
    + split; [by rewrite length_fmap|].
      apply Forall_fmap. eapply Forall_impl; [exact Hentry|].
      intros row Hrow. cbn. by rewrite Hrow.
    + split; [done|]. eapply Forall_impl; [exact Hentry|].
      intros row Hrow. by rewrite Hrow.
Qed.

(** ** The text and the place of an expected query *)

Lemma char_in_NL (c : N) : char_in c [NL] = true ↔ c = NL.
Proof.
  unfold char_in. cbn [existsb]. rewrite orb_false_r. apply N.eqb_eq.
Qed.

Lemma lstrip_NL_replicate (k : nat) (s : str) :
  lstrip [NL] (replicate k NL ++ s) = lstrip [NL] s.
Proof.
  induction k as [|k IH]; [done|]. cbn [replicate app lstrip].
  by rewrite (proj2 (char_in_NL NL) eq_refl).
Qed.

Lemma lstrip_NL_split (s : str) :
  ∃ k, s = replicate k NL ++ lstrip [NL] s ∧
       head (lstrip [NL] s) ≠ Some NL.
Proof.
  induction s as [|c s (k & Hk & Hhead)]; [by exists 0%nat|].
  cbn [lstrip]. destruct (char_in c [NL]) eqn:Hc.
  - apply char_in_NL in Hc as ->. exists (S k). split; [|done].
    cbn [replicate app]. by rewrite <- Hk.
  - exists 0%nat. split; [done|]. cbn [head]. intros [= ->].
    by rewrite (proj2 (char_in_NL NL) eq_refl) in Hc.
Qed.

Lemma rev_replicate {A} (k : nat) (x : A) : rev (replicate k x) = replicate k x.
Proof.
  induction k as [|k IH]; [done|]. cbn [replicate rev]. rewrite IH.
  clear IH. induction k as [|k IH]; [done|]. cbn [replicate app]. by rewrite IH.
Qed.

Lemma rstrip_NL_app (s : str) (k : nat) :
  rstrip [NL] (s ++ replicate k NL) = rstrip [NL] s.
Proof.
  unfold rstrip. by rewrite rev_app_distr, rev_replicate, lstrip_NL_replicate.
Qed.

Lemma rstrip_NL_split (s : str) :
  ∃ k, s = rstrip [NL] s ++ replicate k NL ∧ last (rstrip [NL] s) ≠ Some NL.
Proof.
  unfold rstrip. destruct (lstrip_NL_split (rev s)) as (k & Hk & Hhead).
  exists k. split.
  - rewrite <- (rev_involutive s) at 1. rewrite Hk at 1.
    by rewrite rev_app_distr, rev_replicate.
  - destruct (lstrip [NL] (rev s)) as [|c t]; [done|].
    cbn [rev]. rewrite last_snoc. by cbn [head] in Hhead.
Qed.

(** X18: [expect_query] keeps the text of the query without the line feeds at its
    end, and nothing else is removed: a text and the same text followed by
    any number of line feeds declare the same entry, a list of lines
    declares what the lines joined by line feeds declare, and the text on
    the queue never ends in a line feed. *)
Theorem expect_query_drops_final_linefeeds (match_type : MatchType)
    (force_pos : option Z) (self : MockLiveStatusConnection) :
  (∀ text k,
     expect_query (query_text (text ++ replicate k NL)) match_type force_pos self
     = expect_query (query_text text) match_type force_pos self) ∧
  (∀ lines,
     expect_query (query_lines lines) match_type force_pos self
     = expect_query (query_text (str_join [NL] lines)) match_type force_pos self) ∧
  (∀ query after,
     expect_query query match_type None self = (Ok (), after) →
     ∃ columns rows k,
       _expected_queries after
       = _expected_queries self
           ++ [(normalize_query query, columns, rows, match_type)] ∧
       text_of query = normalize_query query ++ replicate k NL ∧
       last (normalize_query query) ≠ Some NL).
Proof.
  split; [|split].
  - intros text k. unfold expect_query, normalize_query.
    by rewrite rstrip_NL_app.
  - done.
  - intros query after. unfold expect_query.
    destruct (resolve_query _ _ _) as [entry|e] eqn:Hentry; [|done].
    intros [= <-]. unfold resolve_query in Hentry.
    destruct (_table_of_query _) as [table|e]; cbn [mbind result_bind] in Hentry;
      [|done].
    destruct (resolve_rows _ _ _ _) as [rows|e]; cbn [mbind result_bind] in Hentry;
      [|done].
    injection Hentry as <-.
    destruct (rstrip_NL_split (text_of query)) as (k & Hk & Hlast).
    eexists _, rows, k.
    split; [by destruct self|]. split; [exact Hk | exact Hlast].
Qed.

(** X19: The place of an entry declared with a position is that of
    [list.insert]: a position from zero up to the length of the queue is the
    index of the new entry, a larger one appends as no position does, a
    negative one counts from the end and is clipped at the front.  So zero
    makes the entry the next to be compared, and a negative position never
    puts the entry last in a queue that is not empty. *)
Theorem expect_query_position (query : query_arg) (match_type : MatchType)
    (pos : Z) (self after : MockLiveStatusConnection) :
  expect_query query match_type (Some pos) self = (Ok (), after) →
  let queue := _expected_queries self in
  let n := Z.of_nat (length queue) in
  ∃ entry,
    resolve_query (_tables self) (normalize_query query) match_type = Ok entry ∧
    let k := Z.to_nat (if (pos <? 0)%Z then n + pos else pos) in
    _expected_queries after = take k queue ++ entry :: drop k queue ∧
    ((0 ≤ pos ≤ n)%Z → _expected_queries after !! Z.to_nat pos = Some entry) ∧
    ((pos = 0 ∨ pos ≤ - n)%Z → _expected_queries after = entry :: queue) ∧
    ((n ≤ pos)%Z → expect_query query match_type None self = (Ok (), after)) ∧
    ((pos < 0)%Z → queue ≠ [] → last (_expected_queries after) = last queue).
Proof.
  intros Hexpect queue n. unfold expect_query in *.
  destruct (resolve_query _ _ _) as [entry|e] eqn:Hentry; [|done].
  injection Hexpect as <-. exists entry. split; [done|].
  destruct self as [site queue0 multi status last0 tabs].
  cbn [set_expected_queries _expected_queries enqueue] in *. subst queue n.
  unfold list_insert_at, slice_to, slice_from.
  split; [by destruct (pos <? 0)%Z|].
  split; [|split; [|split]].
  - intros [Hpos Hle]. destruct (Z.ltb_spec pos 0) as [|_]; [lia|].
    rewrite lookup_app_r by (rewrite length_take; lia).
    rewrite length_take. by replace (Z.to_nat pos - _)%nat with 0%nat by lia.
  - intros [->|Hle]; [done|].
    destruct (Z.ltb_spec pos 0) as [_|Hpos].
    + by replace (Z.to_nat (Z.of_nat (length queue0) + pos)) with 0%nat by lia.
    + assert (length queue0 = 0%nat) as Hempty by lia.
      apply nil_length_inv in Hempty as ->. by rewrite take_nil, drop_nil.
  - intros Hge. destruct (Z.ltb_spec pos 0) as [|_]; [lia|].
    by rewrite take_ge, drop_ge by lia.
  - intros Hneg Hqueue. destruct (Z.ltb_spec pos 0) as [_|]; [|lia].
    set (k := Z.to_nat (Z.of_nat (length queue0) + pos)).
    assert (Hk : (k < length queue0)%nat).
    { destruct queue0; [done|]. subst k. cbn [length]. lia. }
    rewrite <- (take_drop k queue0) at 3.
    destruct (drop k queue0) as [|x rest] eqn:Hdrop.
    { apply (f_equal length) in Hdrop. rewrite length_drop in Hdrop.
      cbn [length] in Hdrop. lia. }
    rewrite !last_app. cbn [last]. by destruct rest.
Qed.

(** ** The length field of a frame *)

Lemma parse_digits_acc (d : Decimal.uint) (p : positive) :
  parse_digits (Npos p) true (uint_digits d) = Some (Npos (Pos.of_uint_acc d p)).
Proof.
  revert p. induction d as [|d IH|d IH|d IH|d IH|d IH|d IH|d IH|d IH|d IH|d IH];
    intros p; [reflexivity|..];
    cbn [uint_digits parse_digits Pos.of_uint_acc];
    match goal with
    | |- context [digit_val ?c] =>
        let v := eval vm_compute in (digit_val c) in change (digit_val c) with v
    end;
    cbv iota beta; rewrite <- IH; f_equal; lia.
Qed.

Lemma parse_digits_uint (d : Decimal.uint) :
  parse_digits 0 true (uint_digits d) = Some (N.of_uint d).
Proof.
  induction d as [|d IH|d IH|d IH|d IH|d IH|d IH|d IH|d IH|d IH|d IH];
    [reflexivity | exact IH | ..];
    apply (parse_digits_acc d).
Qed.

Lemma parse_digits_str_of_N (n : N) : parse_digits 0 false (str_of_N n) = Some n.
Proof.
  unfold str_of_N. pose proof (DecimalN.Unsigned.of_to n) as Hn.
  rewrite <- Hn at 2. rewrite <- parse_digits_uint.
  destruct (N.to_uint n) eqn:Hd; try reflexivity.
  cbn in Hn. subst n. discriminate Hd.
Qed.

Lemma uint_digits_no_blank (d : Decimal.uint) :
  forallb (λ c, negb (ascii_isspace c)) (uint_digits d) = true.
Proof. induction d; cbn; done. Qed.

Lemma drop_while_no_blank (s : str) :
  forallb (λ c, negb (ascii_isspace c)) s = true →
  drop_while ascii_isspace s = s.
Proof.
  destruct s as [|c s]; [done|]. cbn [forallb drop_while].
  intros [Hc%negb_true_iff _]%andb_true_iff. by rewrite Hc.
Qed.

Lemma strip_ascii_padded (k : nat) (s : str) :
  forallb (λ c, negb (ascii_isspace c)) s = true →
  strip_ascii (replicate k SP ++ s) = s.
Proof.
  intros Hs. unfold strip_ascii.
  assert (Hpad : drop_while ascii_isspace (replicate k SP ++ s) = s).
  { induction k as [|k IH]; [by apply drop_while_no_blank | exact IH]. }
  rewrite Hpad, drop_while_no_blank; [apply rev_involutive|].
  apply forallb_forall. intros c Hc%in_rev.
  by apply (proj1 (forallb_forall _ _) Hs).
Qed.

Lemma int_of_padded (k : nat) (n : N) :
  int_of_str (replicate k SP ++ str_of_N n) = Some (Z.of_N n).
Proof.
  unfold int_of_str.
  assert (Hascii : forallb (λ c, c <? 128) (replicate k SP ++ str_of_N n) = true).
  { rewrite forallb_app. apply andb_true_iff. split.
    - induction k as [|k IH]; [done | exact IH].
    - apply uint_digits_ascii. }
  rewrite Hascii. cbv zeta.
  rewrite strip_ascii_padded by apply uint_digits_no_blank.
  pose proof (parse_digits_str_of_N n) as Hparse. unfold str_of_N in *.
  destruct (N.to_uint n); cbn [uint_digits] in *; [by rewrite Hparse|..];
    by rewrite Hparse.
Qed.

(** X20: The length field of a frame can be read back: the frame is [200], a
    blank, a field of at least eleven characters, a line feed and the body,
    and [int] of the field is the number of characters of the body.  While
    that number has at most eleven digits, the field has exactly eleven
    characters, so that the body starts at the seventeenth character and the
    field is the slice from the fifth to the fifteenth. *)
Theorem frame_length_field (response : Response) :
  let body := repr (response_value response) in
  let frame := _make_livestatus_response response in
  ∃ field,
    frame = py "200 " ++ field ++ [NL] ++ body ∧
    int_of_str field = Some (Z.of_nat (length body)) ∧
    (11 ≤ length field)%nat ∧
    ((length (str_of_N (N.of_nat (length body))) ≤ 11)%nat →
       length field = 11%nat ∧
       length frame = (16 + length body)%nat ∧
       drop 16 frame = body ∧
       int_of_str (take 11 (drop 4 frame)) = Some (Z.of_nat (length body))).
Proof.
  intros body frame.
  set (digits := str_of_N (N.of_nat (length body))).
  exists (rjust 11 digits).
  assert (Hframe : frame = py "200 " ++ rjust 11 digits ++ [NL] ++ body) by done.
  assert (Hint : int_of_str (rjust 11 digits) = Some (Z.of_nat (length body))).
  { unfold rjust, digits. rewrite int_of_padded. f_equal; lia. }
  assert (Hlen : length (rjust 11 digits) = (11 `max` length digits)%nat).
  { unfold rjust. rewrite length_app, length_replicate. lia. }
  split; [exact Hframe|]. split; [exact Hint|]. split; [lia|].
  intros Hdigits.
  assert (Hfield : length (rjust 11 digits) = 11%nat) by lia.
  split; [exact Hfield|]. rewrite Hframe.
  change (py "200 ") with [50; 48; 48; SP]. cbn [app drop].
  split; [|split].
  - cbn [length]. rewrite !length_app, Hfield. cbn [length]. lia.
  - rewrite cons_middle, app_assoc.
    by rewrite drop_app_length' by (rewrite length_app, Hfield; reflexivity).
  - rewrite drop_0, take_app_length' by (by rewrite Hfield). exact Hint.
Qed.

(** ** The operators [<], [>] and [~] *)

Lemma OPERATORS_lt : OPERATORS !! py "<" = Some (cast_down (rich_compare op_lt)).
Proof. unfold OPERATORS. lookup_table. Qed.

Lemma OPERATORS_gt : OPERATORS !! py ">" = Some (cast_down (rich_compare op_gt)).
Proof. unfold OPERATORS. lookup_table. Qed.

Lemma OPERATORS_match : OPERATORS !! py "~" = Some match_regexp.
Proof. unfold OPERATORS. lookup_table. Qed.

(** X21: Unlike [>=] and [<=], the operators [<] and [>] of a filter line mean
    what they say: on a row with the value [a] the predicate of
    [Filter: <col> < <b>] is [a < t(b)] and that of [Filter: <col> > <b>] is
    [a > t(b)], with the text [b] converted to the type of [a]; on a string
    they always answer.  The operator [~] converts nothing: it matches the
    text as a regular expression at the start of a string value; on a value
    that is not a string it raises the error of the pattern when [re]
    rejects the pattern, and a [TypeError] otherwise. *)
Theorem filter_order_and_regexp (field literal : str) (entry : Row) (a : value) :
  is_token field = true →
  is_filter_value literal = true →
  entry !! field = Some a →
  (∃ f, make_filter_func (py "Filter: " ++ field ++ py " < " ++ literal) = Ok f ∧
        f entry = (t_b ← cast_to_type_of a literal; rich_compare op_lt a t_b) ∧
        (∀ s, a = VStr s → f entry = Ok (str_ltb s literal)) ∧
        (∀ x y, a = VInt x → int_of_str literal = Some y →
           f entry = Ok (x <? y)%Z) ∧
        (∀ x y, a = VFloat x → float_of_str literal = Some y →
           f entry = Ok (PrimFloat.ltb x y))) ∧
  (∃ f, make_filter_func (py "Filter: " ++ field ++ py " > " ++ literal) = Ok f ∧
        f entry = (t_b ← cast_to_type_of a literal; rich_compare op_gt a t_b) ∧
        (∀ s, a = VStr s → f entry = Ok (str_ltb literal s)) ∧
        (∀ x y, a = VInt x → int_of_str literal = Some y →
           f entry = Ok (y <? x)%Z) ∧
        (∀ x y, a = VFloat x → float_of_str literal = Some y →
           f entry = Ok (PrimFloat.ltb y x))) ∧
  (∃ f, make_filter_func (py "Filter: " ++ field ++ py " ~ " ++ literal) = Ok f ∧
        (∀ s, a = VStr s → f entry = or_raise re_error (re_match literal s)) ∧
        ((∀ s, a ≠ VStr s) →
           f entry = match re_match literal [] with
                     | Some _ => Raise TypeError_operand
                     | None => Raise re_error
                     end)).
Proof.
  intros Hfield Hliteral Hentry. split; [|split].
  - destruct (make_filter_func_line field (py "<") literal _
                Hfield eq_refl Hliteral OPERATORS_lt) as (f & Hf & Hrow).
    exists f. split; [exact Hf|]. rewrite Hrow, Hentry.
    cbn [or_raise mbind result_bind]. unfold cast_down.
    split; [done|]. split; [|split].
    + by intros s ->.
    + intros x y -> Hy. cbn [cast_to_type_of]. by rewrite Hy.
    + intros x y -> Hy. cbn [cast_to_type_of]. by rewrite Hy.
  - destruct (make_filter_func_line field (py ">") literal _
                Hfield eq_refl Hliteral OPERATORS_gt) as (f & Hf & Hrow).
    exists f. split; [exact Hf|]. rewrite Hrow, Hentry.
    cbn [or_raise mbind result_bind]. unfold cast_down.
    split; [done|]. split; [|split].
    + by intros s ->.
    + intros x y -> Hy. cbn [cast_to_type_of]. by rewrite Hy.
    + intros x y -> Hy. cbn [cast_to_type_of]. by rewrite Hy.
  - destruct (make_filter_func_line field (py "~") literal _
                Hfield eq_refl Hliteral OPERATORS_match) as (f & Hf & Hrow).
    exists f. split; [exact Hf|]. rewrite Hrow, Hentry.
    cbn [or_raise mbind result_bind]. split.
    + by intros s ->.
    + intros Hother. unfold match_regexp.
      destruct a as [x|x|s|l]; [| |by destruct (Hother s)|];
        by destruct (re_match literal []).
Qed.

(** ** The modes of comparison *)

Lemma replace_absent (old new s : str) :
  contains old s = false → replace old new s = s.
Proof.
  unfold replace. induction s as [|c s IH]; [done|].
  cbn [contains replace_from]. intros [Hstart Hrest]%orb_false_iff.
  by rewrite Hstart, (IH Hrest).
Qed.

(** X22: Under [strict] the comparison is the equality of the two texts and
    never raises; what matches strictly matches loosely.  Under [ellipsis]
    only [[] and [...] are rewritten: a text without them is taken as a
    regular expression as it stands, between [^] and [$], so that any other
    character special to regular expressions keeps its meaning. *)
Theorem compare_strict_and_ellipsis (pattern string : str) :
  (_compare pattern string strict = Ok true ↔ pattern = string) ∧
  (∃ b, _compare pattern string strict = Ok b) ∧
  (_compare pattern string strict = Ok true →
   _compare pattern string loose = Ok true) ∧
  (contains (py "[") pattern = false → contains (py "...") pattern = false →
   ellipsis_pattern pattern = py "^" ++ pattern ++ py "$" ∧
   _compare pattern string ellipsis
   = or_raise re_error (re_match (py "^" ++ pattern ++ py "$") string)).
Proof.
  assert (Hstrict : _compare pattern string strict = Ok true ↔ pattern = string).
  { cbn [_compare]. unfold str_eqb. split.
    - intros [= Heq]. by apply bool_decide_eq_true in Heq.
    - intros ->. by rewrite bool_decide_true. }
  split; [exact Hstrict|]. split; [by eexists|]. split.
  - intros Heq%Hstrict. subst string. by apply compare_self.
  - intros Hbracket Hdots.
    assert (Hpattern : ellipsis_pattern pattern = py "^" ++ pattern ++ py "$").
    { unfold ellipsis_pattern. cbv zeta.
      by rewrite (replace_absent (py "[")), replace_absent. }
    split; [exact Hpattern|]. cbn [_compare]. by rewrite Hpattern.
Qed.

End Simulator.

(** * The model at concrete queries *)

(** The first of two expected queries is sent: it is accepted, its entry
    leaves the queue and the frame of its empty response is stored. *)
Lemma lookup_next_query_fifo_witness :
  _lookup_next_query re_fragment latin1_printable special_float_repr
    (py "GET hosts") two_expected
  = (Ok [],
     set_last_response
       (Some (mk_StringIO (py "200           2" ++ [NL] ++ py "[]") 0))
       (set_expected_queries [(py "GET services", [], [], strict)]
                             two_expected)).
Proof.
  refine (proj1 (lookup_next_query_fifo re_fragment latin1_printable
                   special_float_repr (py "GET hosts") two_expected)
            ∅ (py "GET hosts") [] [] loose
            [(py "GET services", [], [], strict)] _ eq_refl eq_refl eq_refl).
  by eexists.
Defined.

Lemma unpack_headers_malformed_line_witness :
  _unpack_headers (py "GET hosts" ++ [NL] ++ py "ColumnHeaders:on")
    = Raise ValueError_unpack ∧
  ∀ self, is_Some (_expect_status_query self) →
    _lookup_next_query re_fragment latin1_printable special_float_repr
        (py "GET hosts" ++ [NL] ++ py "ColumnHeaders:on") self
      = (Raise ValueError_unpack, self) ∧
    ∀ data,
      decode_utf8 (strip_terminator data)
        = Some (py "GET hosts" ++ [NL] ++ py "ColumnHeaders:on") →
      socket_send re_fragment latin1_printable special_float_repr data self
        = (Raise ValueError_unpack, self).
Proof.
  apply (unpack_headers_malformed_line re_fragment latin1_printable
      special_float_repr
           (py "GET hosts" ++ [NL] ++ py "ColumnHeaders:on")
           (py "ColumnHeaders:on")).
  - vm_compute. apply list_elem_of_In. simpl. tauto.
  - reflexivity.
  - reflexivity.
  - reflexivity.
Defined.

Lemma unpack_headers_wellformed_witness :
  _unpack_headers (py "GET hosts" ++ [NL] ++ py "ColumnHeaders:   on")
    = Ok (headers_of (splitlines (py "GET hosts" ++ [NL] ++ py "ColumnHeaders:   on"))) ∧
  headers_of (splitlines (py "GET hosts" ++ [NL] ++ py "ColumnHeaders:   on"))
    = {[ py "ColumnHeaders" := py "on" ]}.
Proof.
  split.
  - apply (unpack_headers_wellformed
             (py "GET hosts" ++ [NL] ++ py "ColumnHeaders:   on")).
    reflexivity.
  - reflexivity.
Defined.

(** C9 as stated fails: of the three blanks after the colon of [A:   b] the
    split takes one and leaves two in front of the value; removing a single
    blank would keep one, and the source keeps none. *)
Lemma unpack_headers_strips_all_blanks :
  find_sep (py ": ") (py "A:   b") = Some (py "A", py "  b") ∧
  strip_one_blank (py "  b") = py " b" ∧
  _unpack_headers (py "A:   b") = Ok {[ py "A" := py "b" ]}.
Proof. repeat split; reflexivity. Qed.

Lemma evaluate_filter_by_stack_witness :
  evaluate_filter re_fragment latin1_decimal float_fragment
      query_two_filters heute_morgen
    = Raise (ValueError_filters 2) ∧
  evaluate_filter re_fragment latin1_decimal float_fragment
      query_hosts_name heute_morgen = Ok heute_morgen.
Proof.
  split.
  - refine (proj1 (evaluate_filter_by_stack
        re_fragment latin1_decimal float_fragment
        query_two_filters
                     heute_morgen _ eq_refl) _).
    vm_compute. lia.
  - exact (proj1 (proj2 (evaluate_filter_by_stack
        re_fragment latin1_decimal float_fragment
        query_hosts_name
                           heute_morgen _ eq_refl)) eq_refl).
Defined.

(** The examples of the documentation of [evaluate_filter]. *)
Example evaluate_filter_one_filter :
  evaluate_filter re_fragment latin1_decimal float_fragment
      query_one_filter heute_morgen
    = Ok [row_of [(py "name", VStr (py "heute")); (py "state", VInt 0)]].
Proof. vm_compute. reflexivity. Qed.

(** The row with state 0 passes [Filter: state >= 1] and
    [Filter: state <= 0], and fails [Filter: state <= 1]. *)
Lemma filter_ge_le_reversed_witness :
  (∃ f, make_filter_func re_fragment latin1_decimal float_fragment
      (py "Filter: state >= 1") = Ok f ∧
        f row_heute = Ok true) ∧
  (∃ f, make_filter_func re_fragment latin1_decimal float_fragment
      (py "Filter: state <= 1") = Ok f ∧
        f row_heute = Ok false).
Proof.
  pose proof (filter_ge_le_reversed re_fragment latin1_decimal float_fragment
      (py "state") (py "1")
                row_heute (VInt 0) eq_refl eq_refl
                ltac:(vm_compute; reflexivity)) as (Hge & Hle & _).
  destruct Hge as (f & Hf & Hfe & _). destruct Hle as (g & Hg & Hge & _).
  split.
  - exists f. split; [exact Hf | rewrite Hfe; reflexivity].
  - exists g. split; [exact Hg | rewrite Hge; reflexivity].
Defined.

(** C4 as stated fails on a float: the predicate of [Filter: load >= nan]
    on the value 1.0 is [1.0 <= nan], which is false, although 1.0 is not
    greater than the NaN; and the predicate of [Filter: load <= nan] is
    [1.0 >= nan], false although 1.0 is not less. *)
Lemma filter_ge_le_false_on_nan :
  row_load !! py "load" = Some (VFloat 1%float) ∧
  cast_to_type_of latin1_decimal float_fragment (VFloat 1%float) (py "nan")
  = Ok (VFloat nan) ∧
  (f ← make_filter_func re_fragment latin1_decimal float_fragment
         (py "Filter: load >= nan");
   f row_load) = Ok false ∧
  rich_compare op_gt (VFloat 1%float) (VFloat nan) = Ok false ∧
  (f ← make_filter_func re_fragment latin1_decimal float_fragment
         (py "Filter: load <= nan");
   f row_load) = Ok false ∧
  rich_compare op_lt (VFloat 1%float) (VFloat nan) = Ok false.
Proof. repeat split; vm_compute; reflexivity. Qed.

(** C5 as stated fails: the body of the response [[['é']]] has seven
    characters and eight bytes, and the frame says seven. *)
Lemma frame_length_counts_characters :
  repr latin1_printable special_float_repr (response_value [[VStr [233]]])
    = py "[['" ++ [233] ++ py "']]" ∧
  _make_livestatus_response latin1_printable special_float_repr [[VStr [233]]]
    = py "200           7" ++ [NL] ++ py "[['" ++ [233] ++ py "']]" ∧
  length <$> encode_utf8 (py "[['" ++ [233] ++ py "']]") = Some 8%nat.
Proof. repeat split; reflexivity. Qed.

(** The example of the documentation of [_make_livestatus_response], with an
    empty list in place of the empty dictionary. *)
Example frame_of_documentation :
  _make_livestatus_response latin1_printable special_float_repr
    [[VStr (py "foo")]; [VInt 1; VList []]]
  = py "200          18" ++ [NL] ++ py "[['foo'], [1, []]]".
Proof. reflexivity. Qed.

Lemma expect_query_fallback_columns_witness :
  (∃ response,
     _expected_queries
       (expect_query re_fragment latin1_decimal float_fragment
           (query_text (py "GET hosts")) loose None
                     uneven_connection).2
     = [(py "GET hosts", [py "name"], response, loose)]) ∧
  Sorted str_le [py "name"].
Proof.
  pose proof (expect_query_fallback_columns re_fragment latin1_decimal
      float_fragment
                (query_text (py "GET hosts")) loose None uneven_connection
                _ (py "hosts") eq_refl eq_refl eq_refl) as (Hqueue & Hsorted & _).
  split; [exact Hqueue | exact Hsorted].
Defined.

(** C3 as stated fails: for a table whose last row lacks a column of
    another row, the declaration succeeds with the columns of the last row,
    which are not the union. *)
Lemma fallback_columns_not_union :
  expect_query re_fragment latin1_decimal float_fragment
      (query_text (py "GET hosts")) loose None
               uneven_connection
  = (Ok (),
     set_expected_queries
       [(py "GET hosts", [py "name"],
         [[VStr (py "heute")]; [VStr (py "morgen")]], loose)]
       uneven_connection) ∧
  union_columns uneven_hosts = [py "alias"; py "name"].
Proof. split; vm_compute; reflexivity. Qed.

Lemma expect_query_resolution_witness :
  expect_query re_fragment latin1_decimal float_fragment
      (query_text (py "GET services")) loose None
               uneven_connection
  = (Ok (),
     set_expected_queries [(py "GET services", [], [], loose)]
                          uneven_connection) ∧
  (∃ col, col ∈ [py "alias"] ∧
     expect_query re_fragment latin1_decimal float_fragment
         (query_text query_alias) loose None
                  uneven_connection
     = (Raise (KeyError_column (py "hosts") col), uneven_connection)).
Proof.
  split.
  - exact (proj1 (expect_query_resolution re_fragment latin1_decimal
      float_fragment
                    (query_text (py "GET services")) loose None
                    uneven_connection (py "services") eq_refl)
                 eq_refl eq_refl).
  - refine (proj2 (proj2 (proj2 (expect_query_resolution
        re_fragment latin1_decimal float_fragment
                    (query_text query_alias) loose None
                    uneven_connection (py "hosts") eq_refl)))
              uneven_hosts (row_of [(py "name", VStr (py "morgen"))])
              (py "alias") _ eq_refl _ _ _).
    + vm_compute. reflexivity.
    + unfold uneven_hosts. apply elem_of_cons. right. by left.
    + by left.
    + vm_compute. reflexivity.
Defined.

(** C8 as stated fails: the table is stored and its second row lacks the
    column [alias], yet the declaration succeeds, because the filter of the
    query does not select that row. *)
Lemma missing_column_of_unselected_row :
  uneven_connection.(_tables) !! py "hosts" = Some uneven_hosts ∧
  uneven_hosts !! 1%nat = Some (row_of [(py "name", VStr (py "morgen"))]) ∧
  row_of [(py "name", VStr (py "morgen"))] !! py "alias" = None ∧
  expect_query re_fragment latin1_decimal float_fragment
      (query_text query_alias_of_heute) loose None
               uneven_connection
  = (Ok (),
     set_expected_queries
       [(query_alias_of_heute, [py "alias"], [[VStr (py "h")]], loose)]
       uneven_connection).
Proof. repeat split; vm_compute; reflexivity. Qed.

Lemma exchange_in_declared_order_witness :
  ∃ received self',
    exchange re_fragment latin1_printable special_float_repr
      [(ascii_bytes query_hosts_name ++ [x0a; x0a], 4096%Z);
       (ascii_bytes query_services_headers, 4096%Z)]
      (__call__ false
         (declare_all re_fragment latin1_decimal float_fragment
            [(query_text query_hosts_name, loose);
             (query_text query_services_headers, strict)]
            (connection_with documentation_tables)).2)
    = (Ok received, self') ∧
    Forall2 (λ bytes entry,
               encode_utf8 (frame_of_entry latin1_printable special_float_repr
                   false entry)
               = Some bytes)
      received
      [(query_hosts_name, [py "name"],
        [[VStr (py "heute")]; [VStr (py "example.com")]], loose);
       (query_services_headers, [py "description"],
        [[VStr (py "Memory")]; [VStr (py "CPU load")]; [VStr (py "CPU load")]],
        strict)] ∧
    _expected_queries self' = [].
Proof.
  refine (proj1 (proj2 (proj2
    (exchange_in_declared_order
          re_fragment latin1_printable latin1_decimal float_fragment special_float_repr
       [(query_text query_hosts_name, loose);
        (query_text query_services_headers, strict)]
       (connection_with documentation_tables) _
       [(ascii_bytes query_hosts_name ++ [x0a; x0a], 4096%Z);
        (ascii_bytes query_services_headers, 4096%Z)]
       _ eq_refl eq_refl _)))).
  - intros c Hc. discriminate Hc.
  - repeat constructor; try (vm_compute; reflexivity);
      try (intros Hmode; discriminate Hmode);
      vm_compute; intros Hgt; discriminate Hgt.
Defined.

(** C1 as stated fails, in three ways.  A declared text with a header line
    without a blank after the colon is accepted by [expect_query], and
    sending it raises.  A text compared as [ellipsis] is read as a regular
    expression and need not match itself: [heu+te] does not match
    [heu+te].  A text declared with a final line feed is kept without it,
    and under [strict] the declared text no longer equals the kept one. *)
Lemma declared_text_can_fail :
  ((declare_all re_fragment latin1_decimal float_fragment
      [(query_text query_malformed_header, loose)]
      (connection_with documentation_tables)).1 = Ok () ∧
   (socket_send re_fragment latin1_printable special_float_repr
      (ascii_bytes query_malformed_header)
      (__call__ false
         (declare_all re_fragment latin1_decimal float_fragment
             [(query_text query_malformed_header, loose)]
            (connection_with documentation_tables)).2)).1
   = Raise ValueError_unpack) ∧
  ((declare_all re_fragment latin1_decimal float_fragment
      [(query_text query_with_plus, ellipsis)]
      (connection_with documentation_tables)).1 = Ok () ∧
   _compare re_fragment query_with_plus query_with_plus ellipsis = Ok false ∧
   (socket_send re_fragment latin1_printable special_float_repr
      (ascii_bytes query_with_plus)
      (__call__ false
         (declare_all re_fragment latin1_decimal float_fragment
             [(query_text query_with_plus, ellipsis)]
            (connection_with documentation_tables)).2)).1
   = Raise (RuntimeError_mismatch ellipsis query_with_plus query_with_plus)) ∧
  ((declare_all re_fragment latin1_decimal float_fragment
      [(query_text (py "GET hosts" ++ [NL]), strict)]
      (connection_with documentation_tables)).1 = Ok () ∧
   (socket_send re_fragment latin1_printable special_float_repr
      (ascii_bytes (py "GET hosts" ++ [NL]))
      (__call__ false
         (declare_all re_fragment latin1_decimal float_fragment
            [(query_text (py "GET hosts" ++ [NL]), strict)]
            (connection_with documentation_tables)).2)).1
   = Raise (RuntimeError_mismatch strict (py "GET hosts")
              (py "GET hosts" ++ [NL]))).
Proof. repeat split; vm_compute; reflexivity. Qed.

(** The examples of the documentation of [_compare]. *)
Example compare_documentation :
  _compare re_fragment (py "asdf") (py "asdf") strict = Ok true ∧
  _compare re_fragment (py "...") (py "asdf") ellipsis = Ok true ∧
  _compare re_fragment (py "...b") (py "abc") ellipsis = Ok false ∧
  _compare re_fragment (py "foo") (py "asdf") ellipsis = Ok false ∧
  _compare re_fragment
      (py "Hello ... world!") (py "Hello cruel world!") ellipsis
    = Ok true ∧
  _compare re_fragment
      (py "COMMAND [...] DEL_FOO;") (py "COMMAND [123] DEL_FOO;")
    ellipsis = Ok true.
Proof. repeat split; vm_compute; reflexivity. Qed.

(** * Further properties at concrete queries *)

(** One of two expected queries is sent; leaving the scope names the
    other. *)
Lemma exit_after_exchange_witness :
  ∃ received self',
    exchange re_fragment latin1_printable special_float_repr
      [(ascii_bytes (py "GET hosts"), 4096%Z)] two_expected
    = (Ok received, self') ∧
    (__exit__ false self').1
    = Raise (RuntimeError_remaining [py "GET services"]) ∧
    _expect_status_query (__exit__ false self').2 = None.
Proof.
  refine (exit_after_exchange re_fragment latin1_printable special_float_repr
      two_expected
            [(ascii_bytes (py "GET hosts"), 4096%Z)]
            [(py "GET hosts", [], [], loose)]
            [(py "GET services", [], [], strict)] _ _ eq_refl _).
  - intros c Hc. discriminate Hc.
  - by eexists.
  - repeat constructor; try (vm_compute; reflexivity);
      try (intros Hmode; discriminate Hmode);
      vm_compute; intros Hgt; discriminate Hgt.
Defined.

(** Entering the scope of a connection with a [status] table puts the status
    query first. *)
Lemma enter_expects_status_first_witness :
  ∃ response entered,
    __enter__ re_fragment latin1_decimal float_fragment
        status_connection = (Ok (), entered) ∧
    _expect_status_query entered = Some true ∧
    _expected_queries entered = [(status_query, status_columns, response, loose)].
Proof.
  destruct (enter_expects_status_first
        re_fragment latin1_printable latin1_decimal float_fragment special_float_repr
              status_connection status_rows
              (ascii_bytes status_query ++ [x0a; x0a]) 4096%Z)
    as (response & entered & Henter & Hflag & Hqueue & _).
  - intros c Hc. discriminate Hc.
  - discriminate.
  - reflexivity.
  - intros entry col Hentry Hcol.
    apply list_elem_of_singleton in Hentry as ->.
    repeat (apply elem_of_cons in Hcol as [->|Hcol]; [by eexists|]).
    by apply elem_of_nil in Hcol.
  - vm_compute. reflexivity.
  - exists response, entered. split; [exact Henter|]. split; [exact Hflag|].
    exact Hqueue.
Defined.

(** Without a [status] table the scope cannot be entered. *)
Lemma enter_without_status_data_witness :
  __enter__ re_fragment latin1_decimal float_fragment (connection_with ∅)
  = (Raise (KeyError_table (py "status")),
     set_expect_status_query (Some true) (connection_with ∅)).
Proof.
  refine (proj1 (enter_without_status_data
        re_fragment latin1_decimal float_fragment
        (connection_with ∅) _) _).
  - discriminate.
  - reflexivity.
Defined.

(** The header of a frame is received first, and the body after it. *)
Lemma recv_in_pieces_witness :
  ∃ first second after_first after_second,
    socket_recv 16 answered_connection = (Ok first, after_first) ∧
    socket_recv 100 after_first = (Ok second, after_second) ∧
    socket_recv (16 + 100) answered_connection
    = (Ok (first ++ second), after_second) ∧
    ((length (py "200           2" ++ [NL] ++ py "[]") ≤ 0 + Z.to_nat 16)%nat →
     second = []).
Proof.
  refine (recv_in_pieces answered_connection
            (mk_StringIO (py "200           2" ++ [NL] ++ py "[]") 0)
            16 100 eq_refl _ _ _).
  - apply ascii_scalar. reflexivity.
  - vm_compute. discriminate.
  - vm_compute. discriminate.
Defined.

(** The row of [heute] passes [Filter: name = heute]. *)
Lemma filter_equality_witness :
  ∃ f, make_filter_func re_fragment latin1_decimal float_fragment
      (py "Filter: name = heute") = Ok f ∧
       f row_heute = Ok true.
Proof.
  destruct (filter_equality re_fragment latin1_decimal float_fragment
      (py "name") (py "heute") row_heute
              eq_refl eq_refl) as (f & Hf & _ & Hstr & _).
  exists f. split; [exact Hf|].
  rewrite (Hstr (py "heute")) by (vm_compute; reflexivity).
  by rewrite bool_decide_true.
Defined.

(** [And: 2] on a stack of three predicates combines the last two. *)
Lemma combinator_line_step_witness :
  collect_filters re_fragment latin1_decimal float_fragment [py "And: 2"]
    [always true; always false; always true]
  = Ok [always true; and_ [always false; always true]].
Proof.
  refine (proj1 (proj2 (combinator_line_step
        re_fragment latin1_decimal float_fragment
        (py "And:") (py "2")
                          and_ 2 [always true; always false; always true]
                          _ eq_refl)) _).
  - by left.
  - cbn [length]. lia.
Defined.

(** Two filters closed by [And: 2] keep the row that passes both. *)
Lemma evaluate_filter_combined_witness :
  ∃ stack,
    collect_filters re_fragment latin1_decimal float_fragment
      [py "GET hosts"; py "Filter: name = heute"; py "Filter: state = 0"] []
    = Ok stack ∧
    evaluate_filter re_fragment latin1_decimal float_fragment
        query_name_and_state heute_morgen
    = Ok (filter (λ entry, forallb (λ f, holds f entry) stack = true)
            heute_morgen).
Proof.
  eexists. split; [reflexivity|].
  refine (evaluate_filter_combined re_fragment latin1_decimal float_fragment
      query_name_and_state
            [py "GET hosts"; py "Filter: name = heute"; py "Filter: state = 0"]
            (py "And:") (py "2") _ heute_morgen _ eq_refl eq_refl eq_refl _).
  - by left.
  - intros entry Hentry.
    repeat (apply elem_of_cons in Hentry as [->|Hentry];
            [repeat constructor; by eexists|]).
    by apply elem_of_nil in Hentry.
Defined.

(** A query other than the expected one is refused, and the expected one
    stays first. *)
Lemma send_refused_witness :
  socket_send re_fragment latin1_printable special_float_repr
      (ascii_bytes (py "GET services"))
              two_expected
  = (Raise (RuntimeError_mismatch loose (py "GET hosts") (py "GET services")),
     two_expected).
Proof.
  refine (proj2 (send_refused re_fragment latin1_printable special_float_repr
      two_expected
                   (ascii_bytes (py "GET services")) (py "GET services") ∅
                   _ eq_refl eq_refl)
            (py "GET hosts") [] [] loose [(py "GET services", [], [], strict)]
            eq_refl eq_refl).
  by eexists.
Defined.

(** The entry declared for [GET hosts] with the column [name] has rows of
    one cell. *)
Lemma responses_rectangular_witness :
  Forall rectangular
    (_expected_queries
       (expect_query re_fragment latin1_decimal float_fragment
           (query_text query_hosts_name) loose None
                     (connection_with documentation_tables)).2).
Proof.
  refine (proj1 (responses_rectangular
        re_fragment latin1_printable latin1_decimal float_fragment special_float_repr
                   (connection_with documentation_tables) _)
            (query_text query_hosts_name) loose None _ _).
  - constructor.
  - vm_compute. reflexivity.
Defined.

(** The position [-1] puts the entry before the last one. *)
Lemma expect_query_position_witness :
  _expected_queries
    (expect_query re_fragment latin1_decimal float_fragment
        (query_text (py "GET downtimes")) loose
                  (Some (-1)%Z) two_expected).2
  = [(py "GET hosts", [], [], loose);
     (py "GET downtimes", [], [], loose);
     (py "GET services", [], [], strict)].
Proof.
  destruct (expect_query_position re_fragment latin1_decimal float_fragment
      (query_text (py "GET downtimes"))
              loose (-1)%Z two_expected
              (expect_query re_fragment latin1_decimal float_fragment
                  (query_text (py "GET downtimes")) loose
                            (Some (-1)%Z) two_expected).2)
    as (entry & Hentry & Hqueue & _).
  - vm_compute. reflexivity.
  - rewrite Hqueue. vm_compute in Hentry. injection Hentry as <-.
    vm_compute. reflexivity.
Defined.

(** The row of [heute] passes [Filter: name ~ heu]. *)
Lemma filter_order_and_regexp_witness :
  ∃ f, make_filter_func re_fragment latin1_decimal float_fragment
      (py "Filter: name ~ heu") = Ok f ∧
       f row_heute = Ok true.
Proof.
  destruct (filter_order_and_regexp re_fragment latin1_decimal float_fragment
      (py "name") (py "heu") row_heute
              (VStr (py "heute")) eq_refl eq_refl
              ltac:(vm_compute; reflexivity)) as (_ & _ & f & Hf & Hstr & _).
  exists f. split; [exact Hf|].
  rewrite (Hstr (py "heute") eq_refl). vm_compute. reflexivity.
Defined.

(** A query that is only [GET ] cannot be declared. *)
Lemma table_of_query_cases_witness :
  expect_query re_fragment latin1_decimal float_fragment
      (query_text (py "GET ")) loose None two_expected
  = (Raise IndexError_range, two_expected).
Proof.
  exact (proj2 (proj2 (proj2 (table_of_query_cases
        re_fragment latin1_decimal float_fragment
        (py "GET "))
                         (py "GET ") [] eq_refl))
               (query_text (py "GET ")) loose None two_expected []
               eq_refl eq_refl eq_refl).
Defined.

(** The columns of [GET hosts] with the line [Columns: name]. *)
Lemma column_of_query_first_line_witness :
  _column_of_query query_hosts_name = Some [py "name"].
Proof.
  refine (proj1 (column_of_query_first_line query_hosts_name)
            [py "GET hosts"] (py "Columns: name") [] (py " name")
            eq_refl _ eq_refl).
  by repeat constructor.
Defined.

(** The example of the documentation of [make_filter_func], and a filter
    line without an operator. *)
Lemma make_filter_func_errors_witness :
  make_filter_func re_fragment latin1_decimal float_fragment
      (py "Filter: name !! heute")
  = Raise (ValueError_operator (py "!!")) ∧
  make_filter_func re_fragment latin1_decimal float_fragment
      (py "Filter: name") = Raise ValueError_unpack.
Proof.
  split.
  - refine (proj1 (make_filter_func_errors re_fragment latin1_decimal
      float_fragment)
              (py "name") (py "!!") (py "heute") eq_refl eq_refl eq_refl _).
    unfold operator_names. rewrite !not_elem_of_cons.
    repeat split; try (intros Heq; vm_compute in Heq; discriminate Heq).
    apply not_elem_of_nil.
  - exact (proj1 (proj2 (make_filter_func_errors re_fragment latin1_decimal
      float_fragment))
             (py " ") (py "name") [] eq_refl eq_refl eq_refl).
Defined.

(** A predicate that raises is reached although the one before it has
    decided the result. *)
Lemma combinators_evaluate_all_witness :
  and_ [always false; never_answers] row_heute = Raise TypeError_operand ∧
  or_ [always true; never_answers] row_heute = Raise TypeError_operand.
Proof.
  split.
  - exact (proj1 (proj1 (proj2 (proj2 (combinators_evaluate_all
                                         [] row_heute)))
                    (always false) never_answers false TypeError_operand
                    eq_refl eq_refl)).
  - exact (proj2 (proj1 (proj2 (proj2 (combinators_evaluate_all
                                         [] row_heute)))
                    (always true) never_answers true TypeError_operand
                    eq_refl eq_refl)).
Defined.

(** [And:2] has no blank after the name; [And:x 2] names no combinator. *)
Lemma combinator_line_errors_witness :
  collect_filters re_fragment latin1_decimal float_fragment
      [py "And:2"] [] = Raise ValueError_unpack ∧
  collect_filters re_fragment latin1_decimal float_fragment [py "And:x 2"] []
  = Raise (KeyError_key (py "And:x")).
Proof.
  split.
  - refine (proj1 (combinator_line_errors
        re_fragment latin1_decimal float_fragment
        [])
              (py "And:") (py "2") _ eq_refl).
    by left.
  - refine (proj2 (proj2 (combinator_line_errors
        re_fragment latin1_decimal float_fragment
        []))
              (py "And:") (py "x") (py "2") 2%Z _ _ eq_refl eq_refl).
    + by left.
    + discriminate.
Defined.

(** The frame of the empty response. *)
Lemma frame_length_field_witness :
  drop 16 (_make_livestatus_response latin1_printable special_float_repr
      []) = py "[]" ∧
  int_of_str latin1_decimal
      (take 11 (drop 4 (_make_livestatus_response
            latin1_printable special_float_repr
            [])))
  = Some 2%Z.
Proof.
  destruct (frame_length_field
        latin1_printable latin1_decimal special_float_repr
        [])
    as (field & _ & _ & _ & Hshort).
  destruct Hshort as (_ & _ & Hbody & Hfield).
  - vm_compute. lia.
  - split; [exact Hbody | exact Hfield].
Defined.

(** A text without brackets and dots is the regular expression itself. *)
Lemma compare_strict_and_ellipsis_witness :
  ellipsis_pattern (py "GET hosts") = py "^GET hosts$" ∧
  _compare re_fragment (py "GET hosts") (py "GET hosts") strict = Ok true.
Proof.
  split.
  - exact (proj1 (proj2 (proj2 (proj2 (compare_strict_and_ellipsis re_fragment
                                         (py "GET hosts") (py "GET hosts"))))
                    eq_refl eq_refl)).
  - exact (proj2 (proj1 (compare_strict_and_ellipsis re_fragment
                           (py "GET hosts") (py "GET hosts")))
                 eq_refl).
Defined.
